(** * A software cache in front of accelerator-card buffers (cache.c / cache.h)

    Shallow embedding of [CreateCache], [GetIndex], [GetWay], [SetWay],
    [clCreateCacheBuffer] and [clEnqueueReadCacheBuffer], and the properties
    of the lookup, the replacement policies, the transfer counters and the
    construction that follow from the code.

    Conventions of the model
    - a C [int] is a [Z]; the operations of the code that are undefined in C
      (signed overflow, an array access outside the allocated block, division
      by zero, a [double] that does not fit the [int] it is stored in) end the
      run with [Undefined];
    - a pointer ([void*], [cl_mem]) is the integer it converts to
      ([intptr_t]); [NULL] is 0;
    - the OpenCL runtime and [rand()] are not part of the cache: what they
      return is supplied by an [Environment], and the calls made to the
      runtime are recorded. *)

From Stdlib Require Import ZArith Bool Lia.
From stdpp Require Import base list.

Local Open Scope Z_scope.

(** ** Constants of the C environment *)

Definition INT_MAX : Z := 2147483647.
Definition INT_MIN : Z := -2147483648.

(** [CL/cl.h]: bits of [cl_mem_flags], and the success code. *)
Definition CL_MEM_READ_WRITE : Z := 1.
Definition CL_MEM_COPY_HOST_PTR : Z := 32.
Definition CL_SUCCESS : Z := 0.
Definition NULL : Z := 0.

(** ** Data model (cache.h) *)

Inductive CacheConfiguration_t : Set :=
| direct_mapped | two_way | four_way | fully_associative.

Inductive ReplacementPolicy_t : Set :=
| random_RP | fifo_RP | lru_RP | mru_RP | lfu_RP | mfu_RP.

#[export] Instance CacheConfiguration_eq_dec : EqDecision CacheConfiguration_t.
Proof. solve_decision. Defined.
#[export] Instance ReplacementPolicy_eq_dec : EqDecision ReplacementPolicy_t.
Proof. solve_decision. Defined.

Record MetaData_t : Set := mkMetaData {
  nodeId : Z;
  accessedOrder : Z
}.

(** [deviceData] is left uninitialised by [CreateCache]: [None] until the
    first assignment. *)
Record CacheLine_t : Set := mkCacheLine {
  valid : bool;
  tag : Z;
  metaData : MetaData_t;
  deviceData : option Z
}.

Record Cache_t : Set := mkCache {
  memCopies : Z;
  ReadTransfers : Z;
  WriteTransfers : Z;
  tagSize : Z;
  dataSize : Z;
  indexBitMask : Z;
  addressBitShift : Z;
  numberOfLinesPerSet : Z;
  numberOfSets : Z;
  config : CacheConfiguration_t;
  cacheLine : list (list CacheLine_t);
  replacementLine : list Z;
  policy : ReplacementPolicy_t
}.

Definition set_accessedOrder (v : Z) (l : CacheLine_t) : CacheLine_t :=
  mkCacheLine (valid l) (tag l) (mkMetaData (nodeId (metaData l)) v) (deviceData l).
Definition set_deviceData (v : Z) (l : CacheLine_t) : CacheLine_t :=
  mkCacheLine (valid l) (tag l) (metaData l) (Some v).
Definition set_tag (v : Z) (l : CacheLine_t) : CacheLine_t :=
  mkCacheLine (valid l) v (metaData l) (deviceData l).
Definition set_valid (v : bool) (l : CacheLine_t) : CacheLine_t :=
  mkCacheLine v (tag l) (metaData l) (deviceData l).

Definition with_cacheLine (t : list (list CacheLine_t)) (c : Cache_t) : Cache_t :=
  mkCache (memCopies c) (ReadTransfers c) (WriteTransfers c) (tagSize c)
    (dataSize c) (indexBitMask c) (addressBitShift c) (numberOfLinesPerSet c)
    (numberOfSets c) (config c) t (replacementLine c) (policy c).
Definition with_replacementLine (r : list Z) (c : Cache_t) : Cache_t :=
  mkCache (memCopies c) (ReadTransfers c) (WriteTransfers c) (tagSize c)
    (dataSize c) (indexBitMask c) (addressBitShift c) (numberOfLinesPerSet c)
    (numberOfSets c) (config c) (cacheLine c) r (policy c).
Definition with_memCopies (v : Z) (c : Cache_t) : Cache_t :=
  mkCache v (ReadTransfers c) (WriteTransfers c) (tagSize c)
    (dataSize c) (indexBitMask c) (addressBitShift c) (numberOfLinesPerSet c)
    (numberOfSets c) (config c) (cacheLine c) (replacementLine c) (policy c).
Definition with_ReadTransfers (v : Z) (c : Cache_t) : Cache_t :=
  mkCache (memCopies c) v (WriteTransfers c) (tagSize c)
    (dataSize c) (indexBitMask c) (addressBitShift c) (numberOfLinesPerSet c)
    (numberOfSets c) (config c) (cacheLine c) (replacementLine c) (policy c).
Definition with_WriteTransfers (v : Z) (c : Cache_t) : Cache_t :=
  mkCache (memCopies c) (ReadTransfers c) v (tagSize c)
    (dataSize c) (indexBitMask c) (addressBitShift c) (numberOfLinesPerSet c)
    (numberOfSets c) (config c) (cacheLine c) (replacementLine c) (policy c).
Definition with_policy (p : ReplacementPolicy_t) (c : Cache_t) : Cache_t :=
  mkCache (memCopies c) (ReadTransfers c) (WriteTransfers c) (tagSize c)
    (dataSize c) (indexBitMask c) (addressBitShift c) (numberOfLinesPerSet c)
    (numberOfSets c) (config c) (cacheLine c) (replacementLine c) p.

(** ** Undefined behaviour and the state monad of the cache functions *)

Inductive fault : Set :=
| SetOutOfBounds (setIndex : Z)          (* cacheLine[setIndex], no such set *)
| CursorOutOfBounds (setIndex : Z)       (* replacementLine[setIndex] *)
| LineOutOfBounds (setIndex way : Z)     (* cacheLine[setIndex][way], no such line *)
| SignedOverflow
| DivisionByZero
| FloatToInt.                            (* a double outside the range of int *)

Inductive result (A : Type) : Type :=
| Ok (a : A)
| Undefined (f : fault).
Arguments Ok {A} a.
Arguments Undefined {A} f.

(** A cache function reads and writes the cache behind [cachePtr]. *)
Definition M (A : Type) : Type := Cache_t -> result (A * Cache_t).

Definition ret {A} (a : A) : M A := fun c => Ok (a, c).
Definition bind {A B} (m : M A) (k : A -> M B) : M B :=
  fun c => match m c with
           | Ok (a, c') => k a c'
           | Undefined f => Undefined f
           end.
Definition undefined {A} (f : fault) : M A := fun _ => Undefined f.
Definition gets {A} (field : Cache_t -> A) : M A := fun c => Ok (field c, c).
Definition modify (f : Cache_t -> Cache_t) : M unit := fun c => Ok (tt, f c).

Notation "x <- m ;; k" := (bind m (fun x => k))
  (at level 100, m at next level, right associativity).
Notation "m ;;; k" := (bind m (fun _ => k))
  (at level 100, right associativity).

(** Array access with a C [int] index: defined inside the block only. *)
Definition at_index {A} (l : list A) (i : Z) : option A :=
  if i <? 0 then None else l !! Z.to_nat i.

Definition in_int (v : Z) : bool := (INT_MIN <=? v) && (v <=? INT_MAX).

Definition int_add (a b : Z) : M Z :=
  if in_int (a + b) then ret (a + b) else undefined SignedOverflow.

(** [a % b] on [int]: truncated remainder. *)
Definition int_rem (a b : Z) : M Z :=
  if b =? 0 then undefined DivisionByZero else ret (Z.rem a b).

(** [cachePtr->cacheLine[setIndex]], the pointer to the lines of a set. *)
Definition load_set (setIndex : Z) : M (list CacheLine_t) :=
  fun c => match at_index (cacheLine c) setIndex with
           | Some s => Ok (s, c)
           | None => Undefined (SetOutOfBounds setIndex)
           end.

(** [cachePtr->cacheLine[setIndex][way]], read. *)
Definition load_line (setIndex way : Z) : M CacheLine_t :=
  s <- load_set setIndex ;;
  match at_index s way with
  | Some l => ret l
  | None => undefined (LineOutOfBounds setIndex way)
  end.

(** [cachePtr->cacheLine[setIndex][way].field = ...]. *)
Definition store_line (setIndex way : Z) (f : CacheLine_t -> CacheLine_t) : M unit :=
  l <- load_line setIndex way ;;
  s <- load_set setIndex ;;
  modify (fun c =>
    with_cacheLine (<[Z.to_nat setIndex := <[Z.to_nat way := f l]> s]> (cacheLine c)) c).

(** [cachePtr->replacementLine[setIndex]], read and write. *)
Definition load_cursor (setIndex : Z) : M Z :=
  fun c => match at_index (replacementLine c) setIndex with
           | Some v => Ok (v, c)
           | None => Undefined (CursorOutOfBounds setIndex)
           end.
Definition store_cursor (setIndex v : Z) : M unit :=
  load_cursor setIndex ;;;
  modify (fun c => with_replacementLine (<[Z.to_nat setIndex := v]> (replacementLine c)) c).

(** ** GetIndex

    [(int)(((intptr_t)hostAddress >> addressBitShift) & indexBitMask)]; the
    conversion to [int] keeps the low 32 bits.  [CreateCache] leaves a shift
    between 0 and 30 and a mask between 0 and [INT_MAX]. *)
Definition to_int (v : Z) : Z := (v + 2 ^ 31) mod 2 ^ 32 - 2 ^ 31.

Definition GetIndex (indexBitMask addressBitShift hostAddress : Z) : Z :=
  to_int (Z.land (Z.shiftr hostAddress addressBitShift) indexBitMask).

(** ** GetWay *)

(** The bookkeeping of a hit on [way] (cache.c, lines 130-136). *)
Definition GetWay_hit (setIndex way : Z) : M unit :=
  p <- gets policy ;;
  match p with
  | lru_RP | mru_RP =>
      cur <- load_cursor setIndex ;;
      cur' <- int_add cur 1 ;;
      store_cursor setIndex cur' ;;;
      ord <- load_cursor setIndex ;;
      store_line setIndex way (set_accessedOrder ord)
  | lfu_RP | mfu_RP =>
      l <- load_line setIndex way ;;
      ord <- int_add (accessedOrder (metaData l)) 1 ;;
      store_line setIndex way (set_accessedOrder ord)
  | random_RP | fifo_RP => ret tt
  end.

(** [for (way = ...; way < numberOfLinesPerSet; way++)], [n] iterations left. *)
Fixpoint GetWay_scan (hostAddress setIndex : Z) (n : nat) (way : Z) : M Z :=
  match n with
  | O => ret (-1)
  | S n' =>
      l <- load_line setIndex way ;;
      if valid l && (tag l =? hostAddress) then
        GetWay_hit setIndex way ;;; ret way
      else GetWay_scan hostAddress setIndex n' (way + 1)
  end.

Definition GetWay (hostAddress setIndex : Z) : M Z :=
  n <- gets numberOfLinesPerSet ;;
  load_set setIndex ;;;
  cfg <- gets config ;;
  match cfg with
  | direct_mapped => ret 0
  | _ => GetWay_scan hostAddress setIndex (Z.to_nat n) 0
  end.

(** ** SetWay *)

(** What the world outside the cache answers during one call: the value of
    [rand()], and the results of [clCreateBuffer] (the buffer and the code
    written to [errcode_ret]) and of [clEnqueueReadBuffer] (its return
    value).  The context and the command queue are passed through unchanged
    and left out. *)
Record Environment : Type := mkEnvironment {
  rand : Z;
  clCreateBuffer : Z -> Z -> Z -> Z * Z;
  clEnqueueReadBuffer : option Z -> Z -> Z -> Z -> Z -> Z
}.

(** The calls made to the OpenCL runtime, with their arguments. *)
Inductive call : Set :=
| CreateBuffer (flags size host_ptr : Z)
| ReadBuffer (buffer : option Z) (blocking_read offset size ptr : Z).

(** [random_RP]: the loop looking for an empty way. *)
Fixpoint SetWay_empty (setIndex : Z) (n : nat) (way : Z) : M (option Z) :=
  match n with
  | O => ret None
  | S n' =>
      l <- load_line setIndex way ;;
      if negb (valid l) then ret (Some way)
      else SetWay_empty setIndex n' (way + 1)
  end.

(** [lru_RP], [lfu_RP]: the loop looking for the lowest accessed order. *)
Fixpoint SetWay_lowest (setIndex : Z) (n : nat) (way replacementWay : Z) : M Z :=
  match n with
  | O => ret replacementWay
  | S n' =>
      l <- load_line setIndex way ;;
      r <- load_line setIndex replacementWay ;;
      SetWay_lowest setIndex n' (way + 1)
        (if accessedOrder (metaData l) <? accessedOrder (metaData r)
         then way else replacementWay)
  end.

(** [mru_RP], [mfu_RP]: the loop that stops at an empty way and otherwise
    looks for the highest accessed order. *)
Fixpoint SetWay_highest (setIndex : Z) (n : nat) (way replacementWay : Z) : M Z :=
  match n with
  | O => ret replacementWay
  | S n' =>
      l <- load_line setIndex way ;;
      if negb (valid l) then ret way
      else
        r <- load_line setIndex replacementWay ;;
        SetWay_highest setIndex n' (way + 1)
          (if accessedOrder (metaData l) >? accessedOrder (metaData r)
           then way else replacementWay)
  end.

(** [replacementLine[setIndex]++] followed by
    [cacheLine[setIndex][replacementWay].metaData->accessedOrder =
     replacementLine[setIndex]]. *)
Definition stamp (setIndex replacementWay : Z) : M unit :=
  cur <- load_cursor setIndex ;;
  cur' <- int_add cur 1 ;;
  store_cursor setIndex cur' ;;;
  ord <- load_cursor setIndex ;;
  store_line setIndex replacementWay (set_accessedOrder ord).

Definition SetWay (env : Environment) (setIndex : Z) : M Z :=
  n <- gets numberOfLinesPerSet ;;
  load_set setIndex ;;;
  p <- gets policy ;;
  match p with
  | random_RP =>
      e <- SetWay_empty setIndex (Z.to_nat n) 0 ;;
      match e with
      | Some way => ret way
      | None => int_rem (rand env) n
      end
  | fifo_RP =>
      cur <- load_cursor setIndex ;;
      next <- int_add cur 1 ;;
      next' <- int_rem next n ;;
      store_cursor setIndex next' ;;;
      load_cursor setIndex
  | lru_RP =>
      replacementWay <- SetWay_lowest setIndex (Z.to_nat n) 0 0 ;;
      stamp setIndex replacementWay ;;;
      ret replacementWay
  | mru_RP =>
      replacementWay <- SetWay_highest setIndex (Z.to_nat n) 0 0 ;;
      stamp setIndex replacementWay ;;;
      ret replacementWay
  | lfu_RP =>
      replacementWay <- SetWay_lowest setIndex (Z.to_nat n) 0 0 ;;
      store_line setIndex replacementWay (set_accessedOrder 1) ;;;
      ret replacementWay
  | mfu_RP =>
      replacementWay <- SetWay_highest setIndex (Z.to_nat n) 0 0 ;;
      store_line setIndex replacementWay (set_accessedOrder 1) ;;;
      ret replacementWay
  end.

(** ** clCreateCacheBuffer and clEnqueueReadCacheBuffer *)

Definition has_flag (flags bit : Z) : bool := Z.land flags bit =? bit.

Definition increment (field : Cache_t -> Z) (update : Z -> Cache_t -> Cache_t) : M unit :=
  v <- gets field ;;
  v' <- int_add v 1 ;;
  modify (update v').

(** What [clCreateCacheBuffer] hands back: the [cl_mem] it returns, the code
    left in [*errorcode_ret] ([None]: not written), and the runtime calls. *)
Record Created : Set := mkCreated {
  buffer : option Z;
  errorcode_ret : option Z;
  create_calls : list call
}.

Definition clCreateCacheBuffer (env : Environment) (flags size hostAddress : Z)
  : M Created :=
  mask <- gets indexBitMask ;;
  shift <- gets addressBitShift ;;
  let set := GetIndex mask shift hostAddress in
  way <- GetWay hostAddress set ;;
  (* the condition of line 212, evaluated left to right *)
  present <-
    (if has_flag flags CL_MEM_COPY_HOST_PTR then
       l <- load_line set way ;;
       ret (valid l && (tag l =? hostAddress))
     else ret false) ;;
  if present then
    l <- load_line set way ;;
    ret (mkCreated (deviceData l) None [])
  else
    way <- (if way =? -1 then SetWay env set else ret way) ;;
    size' <- gets dataSize ;;
    let flags' :=
      if hostAddress =? NULL then flags else Z.lor flags CL_MEM_COPY_HOST_PTR in
    let '(mem, err) := clCreateBuffer env flags' size' hostAddress in
    store_line set way (set_deviceData mem) ;;;
    increment memCopies with_memCopies ;;;
    (if has_flag flags CL_MEM_COPY_HOST_PTR
     then increment WriteTransfers with_WriteTransfers else ret tt) ;;;
    store_line set way (set_tag hostAddress) ;;;
    store_line set way (set_valid true) ;;;
    l <- load_line set way ;;
    ret (mkCreated (deviceData l) (Some err) [CreateBuffer flags' size' hostAddress]).

(** What [clEnqueueReadCacheBuffer] hands back: its return value and the
    runtime calls.  The value of [clEnqueueReadBuffer] is stored in the local
    [err] and not used. *)
Record ReadBack : Set := mkReadBack {
  status : Z;
  read_calls : list call
}.

Definition clEnqueueReadCacheBuffer (env : Environment)
    (blocking_read offset size hostAddress : Z) : M ReadBack :=
  mask <- gets indexBitMask ;;
  shift <- gets addressBitShift ;;
  let set := GetIndex mask shift hostAddress in
  way <- GetWay hostAddress set ;;
  l <- load_line set way ;;
  if valid l && (tag l =? hostAddress) then
    size' <- gets dataSize ;;
    let err := clEnqueueReadBuffer env (deviceData l) blocking_read offset size' hostAddress in
    increment memCopies with_memCopies ;;;
    increment ReadTransfers with_ReadTransfers ;;;
    ret (mkReadBack 0 [ReadBuffer (deviceData l) blocking_read offset size' hostAddress])
  else ret (mkReadBack 1 []).

(** ** CreateCache *)

Definition result_bind {A B} (r : result A) (k : A -> result B) : result B :=
  match r with
  | Ok a => k a
  | Undefined f => Undefined f
  end.
Notation "x <~ r ;; k" := (result_bind r (fun x => k))
  (at level 100, r at next level, right associativity).

(** [ceil(log10(n) / log10(2))] stored in an [int].  The quotient of the two
    doubles is taken at its real value, the base-2 logarithm of [n]; for
    [n <= 0], [log10] gives an infinity or a NaN, which no [int] holds. *)
Definition ceil_log2 (n : Z) : result Z :=
  if 1 <=? n then Ok (Z.log2_up n) else Undefined FloatToInt.

(** [(int)pow(2, e)] for [e >= 0]: a power of two is exact in a double. *)
Definition pow2_int (e : Z) : result Z :=
  if 2 ^ e <=? INT_MAX then Ok (2 ^ e) else Undefined FloatToInt.

(** [pow(2, indexSize) - 1] stored in an [int]: for a negative exponent the
    double lies strictly between -1 and 0 and is truncated to 0. *)
Definition index_mask (indexSize : Z) : result Z :=
  if indexSize <? 0 then Ok 0
  else if 2 ^ indexSize - 1 <=? INT_MAX then Ok (2 ^ indexSize - 1)
  else Undefined FloatToInt.

(** The loop of lines 72-75, with [n] iterations left before
    [addressBitShift < dataSize] fails. *)
Fixpoint bitshift_loop (dataSize : Z) (n : nat) (addressBitShift : Z) : result Z :=
  match n with
  | O => Ok addressBitShift
  | S n' =>
      p <~ pow2_int (addressBitShift + 1) ;;
      if negb (Z.rem dataSize p =? 0) then Ok addressBitShift
      else bitshift_loop dataSize n' (addressBitShift + 1)
  end.

Definition fresh_line : CacheLine_t :=
  mkCacheLine false NULL (mkMetaData (-1) 0) None.

Definition CreateCache (numberOfCacheLines dataSize tagSize : Z)
    (config : CacheConfiguration_t) (policy : ReplacementPolicy_t) : result Cache_t :=
  geometry <~
    match config with
    | direct_mapped =>
        w <~ ceil_log2 numberOfCacheLines ;; Ok (numberOfCacheLines, 1, w)
    | two_way =>
        w <~ ceil_log2 numberOfCacheLines ;; Ok (Z.quot numberOfCacheLines 2, 2, w - 1)
    | four_way =>
        w <~ ceil_log2 numberOfCacheLines ;; Ok (Z.quot numberOfCacheLines 4, 4, w - 2)
    | fully_associative => Ok (1, numberOfCacheLines, 1)
    end ;;
  let '(numberOfSets, numberOfLinesPerSet, indexSize) := geometry in
  (* int cacheSize = numberOfCacheLines * dataSize *)
  cacheSize <~ (if in_int (numberOfCacheLines * dataSize)
                then Ok (numberOfCacheLines * dataSize)
        else Undefined SignedOverflow) ;;
  let table :=
    replicate (Z.to_nat numberOfSets)
      (replicate (Z.to_nat numberOfLinesPerSet) fresh_line) in
  let cursors := replicate (Z.to_nat numberOfSets) 0 in
  addressBitShift <~ bitshift_loop dataSize (Z.to_nat dataSize) 0 ;;
  indexBitMask <~
    match config with
    | fully_associative => Ok 0
    | _ => index_mask indexSize
    end ;;
  Ok (mkCache 0 0 0 tagSize dataSize indexBitMask addressBitShift
        numberOfLinesPerSet numberOfSets config table cursors policy).

(** ** Sequences of calls *)

Inductive operation : Set :=
| Resolve (flags size hostAddress : Z)
| ReadBackOp (blocking_read offset size hostAddress : Z).

Definition step (env : Environment) (op : operation) : M unit :=
  match op with
  | Resolve flags size hostAddress =>
      clCreateCacheBuffer env flags size hostAddress ;;; ret tt
  | ReadBackOp blocking_read offset size hostAddress =>
      clEnqueueReadCacheBuffer env blocking_read offset size hostAddress ;;; ret tt
  end.

Fixpoint run (ops : list (Environment * operation)) : M unit :=
  match ops with
  | [] => ret tt
  | (env, op) :: ops' => step env op ;;; run ops'
  end.

(** ** Vocabulary of the properties *)

(** A line holds [hostAddress]: the test of lines 128, 212 and 244. *)
Definition holds (hostAddress : Z) (l : CacheLine_t) : bool :=
  valid l && (tag l =? hostAddress).

(** No way of the set [s] from [k] up to (not including) [k'] holds the
    address. *)
Definition none_between (hostAddress : Z) (s : list CacheLine_t) (k k' : nat) : Prop :=
  forall j, (k <= j < k')%nat ->
    exists l, s !! j = Some l /\ holds hostAddress l = false.

(** The part of a line that the lookup compares and the caller receives. *)
Definition content (l : CacheLine_t) : bool * Z * option Z :=
  (valid l, tag l, deviceData l).
Definition contents (c : Cache_t) : list (list (bool * Z * option Z)) :=
  map (map content) (cacheLine c).

Definition counters (c : Cache_t) : Z * Z * Z :=
  (memCopies c, ReadTransfers c, WriteTransfers c).

(** The geometry of a cache: everything but the lines' contents, the
    cursors' values and the counters. *)
Definition shape (c : Cache_t) :=
  (map length (cacheLine c), length (replacementLine c),
   (numberOfLinesPerSet c, numberOfSets c, config c, policy c),
   (dataSize c, tagSize c, indexBitMask c, addressBitShift c)).

(** [preserves R m]: every completed run of [m] relates the cache before to
    the cache after. *)
Definition preserves {A} (R : Cache_t -> Cache_t -> Prop) (m : M A) : Prop :=
  forall c a c', m c = Ok (a, c') -> R c c'.

(** [unchanged f]: the field (or view) [f] of the cache is the same after. *)
Definition unchanged {B} (f : Cache_t -> B) (c c' : Cache_t) : Prop := f c' = f c.

(** Relations that a write to the usage metadata, respectively to a
    replacement cursor, cannot break. *)
Definition metadata_closed (R : Cache_t -> Cache_t -> Prop) : Prop :=
  forall c setIndex way v s l,
    at_index (cacheLine c) setIndex = Some s -> at_index s way = Some l ->
    R c (with_cacheLine
           (<[Z.to_nat setIndex := <[Z.to_nat way := set_accessedOrder v l]> s]> (cacheLine c)) c).
Definition cursor_closed (R : Cache_t -> Cache_t -> Prop) : Prop :=
  forall c setIndex v,
    R c (with_replacementLine (<[Z.to_nat setIndex := v]> (replacementLine c)) c).

(** The counters only grow, and the transfers in each direction grow no
    faster than [memCopies]. *)
Definition counters_grow (c c' : Cache_t) : Prop :=
  0 <= WriteTransfers c' - WriteTransfers c <= memCopies c' - memCopies c /\
  0 <= ReadTransfers c' - ReadTransfers c <= memCopies c' - memCopies c.

(** The counters after the transfer of lines 224-226. *)
Definition count_create (flags : Z) (c : Cache_t) : Cache_t :=
  let c1 := with_memCopies (memCopies c + 1) c in
  if has_flag flags CL_MEM_COPY_HOST_PTR
  then with_WriteTransfers (WriteTransfers c + 1) c1 else c1.

(** The flags handed to [clCreateBuffer] (lines 219-223). *)
Definition create_flags (flags hostAddress : Z) : Z :=
  if hostAddress =? NULL then flags else Z.lor flags CL_MEM_COPY_HOST_PTR.

(** The line after lines 220-232. *)
Definition populated (hostAddress mem : Z) (l : CacheLine_t) : CacheLine_t :=
  mkCacheLine true hostAddress (metaData l) (Some mem).

(** The bookkeeping of a hit stays within [int]: the cursor for [lru_RP] and
    [mru_RP], the frequency counters for [lfu_RP] and [mfu_RP]. *)
Definition bookkeeping_in_range (c : Cache_t) (setIndex : Z) (s : list CacheLine_t) : Prop :=
  match policy c with
  | lru_RP | mru_RP =>
      exists cur, at_index (replacementLine c) setIndex = Some cur /\
                  INT_MIN <= cur + 1 <= INT_MAX
  | lfu_RP | mfu_RP =>
      forall j l, s !! j = Some l ->
                  INT_MIN <= accessedOrder (metaData l) + 1 <= INT_MAX
  | random_RP | fifo_RP => True
  end.

(** The outcome of a call, with another policy and other cursors put in the
    cache it leaves. *)
Definition repolicy {A} (p : ReplacementPolicy_t) (r : list Z)
    (x : result (A * Cache_t)) : result (A * Cache_t) :=
  match x with
  | Ok (a, c) => Ok (a, with_policy p (with_replacementLine r c))
  | Undefined f => Undefined f
  end.

(** A computation that neither reads nor writes the policy and the cursors. *)
Definition policy_blind {A} (m : M A) : Prop :=
  forall p r c, m (with_policy p (with_replacementLine r c)) = repolicy p r (m c).

(** One cursor per set, and [numberOfLinesPerSet] lines in every set. *)
Definition well_formed (c : Cache_t) : Prop :=
  length (replacementLine c) = length (cacheLine c) /\
  Forall (fun n => n = Z.to_nat (numberOfLinesPerSet c)) (map length (cacheLine c)).

(** Every cursor points at a way of its set. *)
Definition cursors_in_range (c : Cache_t) : Prop :=
  Forall (fun v => 0 <= v < numberOfLinesPerSet c) (replacementLine c).

(** ** The construction as the specification words it *)

(** Section 4.1: the largest [k] such that the line size is evenly divisible
    by [2^(k+1)]. *)
Definition spec_addressBitShift (lineDataSize k : Z) : Prop :=
  0 <= k /\ (2 ^ (k + 1) | lineDataSize) /\
  forall k', 0 <= k' -> (2 ^ (k' + 1) | lineDataSize) -> k' <= k.

Definition is_power_of_two (n : Z) : bool := (0 <? n) && (Z.land n (n - 1) =? 0).

Definition linesPerSet (config : CacheConfiguration_t) (totalLines : Z) : Z :=
  match config with
  | direct_mapped => 1
  | two_way => 2
  | four_way => 4
  | fully_associative => totalLines
  end.

(** Section 4.1: the requests that are to fail with a configuration error. *)
Definition spec_rejects (totalLines lineDataSize : Z) (config : CacheConfiguration_t) : bool :=
  negb (is_power_of_two totalLines) || (lineDataSize =? 0)
  || (linesPerSet config totalLines >? totalLines).

(** ** Example runtimes and caches *)

(** A runtime in which every call succeeds, and one in which every call
    fails with [CL_OUT_OF_RESOURCES]. *)
Definition CL_OUT_OF_RESOURCES : Z := -5.
Definition runtime_ok : Environment :=
  mkEnvironment 7 (fun _ _ host_ptr => (4096 + host_ptr, CL_SUCCESS))
    (fun _ _ _ _ _ => CL_SUCCESS).
Definition runtime_failing : Environment :=
  mkEnvironment 7 (fun _ _ _ => (NULL, CL_OUT_OF_RESOURCES))
    (fun _ _ _ _ _ => CL_OUT_OF_RESOURCES).

(** [CreateCache(4, 64, 32, direct_mapped, policy)] and
    [CreateCache(4, 64, 32, two_way, policy)]. *)
Definition direct_4x64 (policy : ReplacementPolicy_t) : Cache_t :=
  mkCache 0 0 0 32 64 3 6 1 4 direct_mapped
    (replicate 4 [fresh_line]) (replicate 4 0) policy.
Definition two_way_4x64 (policy : ReplacementPolicy_t) : Cache_t :=
  mkCache 0 0 0 32 64 1 6 2 2 two_way
    (replicate 2 [fresh_line; fresh_line]) (replicate 2 0) policy.

(** The cache a completed run leaves ([c] itself when the run is undefined). *)
Definition cache_after {A} (m : M A) (c : Cache_t) : Cache_t :=
  match m c with
  | Ok (_, c') => c'
  | Undefined _ => c
  end.

(** The direct-mapped LRU cache after
    [clCreateCacheBuffer(CL_MEM_READ_WRITE | CL_MEM_COPY_HOST_PTR, 64)]:
    way 0 of set 1 holds the address 64. *)
Definition direct_lru_holding_64 : Cache_t :=
  Eval vm_compute in
    cache_after (clCreateCacheBuffer runtime_ok 33 64 64) (direct_4x64 lru_RP).

(** The two-way LRU cache after [clCreateCacheBuffer(CL_MEM_READ_WRITE, 64)]:
    way 0 of set 1 holds the address 64, stamped 1. *)
Definition two_way_lru_holding_64 : Cache_t :=
  Eval vm_compute in
    cache_after (clCreateCacheBuffer runtime_ok 1 64 64) (two_way_4x64 lru_RP).

(** The two-way LRU cache after
    [clCreateCacheBuffer(CL_MEM_READ_WRITE, NULL)]: way 0 of set 0 is valid
    with the tag [NULL], stamped 1. *)
Definition two_way_lru_holding_null : Cache_t :=
  Eval vm_compute in
    cache_after (clCreateCacheBuffer runtime_ok 1 64 NULL) (two_way_4x64 lru_RP).


(** [numberOfSets] and the index width that [CreateCache] derives from the
    line count (cache.c, lines 15-38); the width is [None] where the code
    computes none. *)
Definition setsOf (config : CacheConfiguration_t) (numberOfCacheLines : Z) : Z :=
  match config with
  | direct_mapped => numberOfCacheLines
  | two_way => Z.quot numberOfCacheLines 2
  | four_way => Z.quot numberOfCacheLines 4
  | fully_associative => 1
  end.
Definition widthOf (config : CacheConfiguration_t) (numberOfCacheLines : Z) : option Z :=
  match config with
  | direct_mapped => Some (Z.log2_up numberOfCacheLines)
  | two_way => Some (Z.log2_up numberOfCacheLines - 1)
  | four_way => Some (Z.log2_up numberOfCacheLines - 2)
  | fully_associative => None
  end.


(** The way that a scan of the set [s] for the lowest, respectively the
    highest, accessed order ends on: the first way that reaches it. *)
Definition first_lowest (s : list CacheLine_t) (r : nat) : Prop :=
  exists l, s !! r = Some l /\
    (forall j lj, s !! j = Some lj ->
       accessedOrder (metaData l) <= accessedOrder (metaData lj)) /\
    (forall j lj, (j < r)%nat -> s !! j = Some lj ->
       accessedOrder (metaData l) < accessedOrder (metaData lj)).
Definition first_highest (s : list CacheLine_t) (r : nat) : Prop :=
  exists l, s !! r = Some l /\
    (forall j lj, s !! j = Some lj ->
       accessedOrder (metaData lj) <= accessedOrder (metaData l)) /\
    (forall j lj, (j < r)%nat -> s !! j = Some lj ->
       accessedOrder (metaData lj) < accessedOrder (metaData l)).

(** The first way of [s] that is not valid; no such way. *)
Definition first_empty (s : list CacheLine_t) (i : nat) : Prop :=
  exists l, s !! i = Some l /\ valid l = false /\
    forall j lj, (j < i)%nat -> s !! j = Some lj -> valid lj = true.
Definition all_valid (s : list CacheLine_t) : Prop :=
  forall j l, s !! j = Some l -> valid l = true.


(** [k] successive calls of [SetWay] on one set, and the ways they return. *)
Fixpoint SetWay_times (env : Environment) (setIndex : Z) (k : nat) : M (list Z) :=
  match k with
  | O => ret []
  | S k' =>
      way <- SetWay env setIndex ;;
      ways <- SetWay_times env setIndex k' ;;
      ret (way :: ways)
  end.

(** Invariants of the table, on the view [contents] of the valid flags, the
    tags and the buffers. *)

(** No two ways of a set cache the same address. *)
Definition cached_once (c : Cache_t) : Prop :=
  forall i row j1 j2 t d1 d2,
    contents c !! i = Some row ->
    row !! j1 = Some (true, t, d1) -> row !! j2 = Some (true, t, d2) -> j1 = j2.

(** Every line is as [CreateCache] left it, or valid with a buffer. *)
Definition fresh_or_populated (c : Cache_t) : Prop :=
  forall i row j x,
    contents c !! i = Some row -> row !! j = Some x ->
    x = content fresh_line \/ exists t mem, x = (true, t, Some mem).

(** The valid lines of [c] are valid in [c']. *)
Definition valid_kept (c c' : Cache_t) : Prop :=
  forall i row j t d,
    contents c !! i = Some row -> row !! j = Some (true, t, d) ->
    exists row' t' d', contents c' !! i = Some row' /\ row' !! j = Some (true, t', d').


(** ** FreeCache (cache.c, lines 253-271)

    The two loops read [cacheLine[i][j]] for [i < numberOfSets] and
    [j < numberOfLinesPerSet], free the metadata and hand [deviceData] to
    [clReleaseMemObject].  The result is the list of the handles released,
    in the order of the calls; [None] is a handle that was never written.
    The cache itself is freed, so no cache is returned. *)
Fixpoint FreeCache_lines (i : Z) (n : nat) (j : Z) : M (list (option Z)) :=
  match n with
  | O => ret []
  | S n' =>
      l <- load_line i j ;;
      rest <- FreeCache_lines i n' (j + 1) ;;
      ret (deviceData l :: rest)
  end.

Fixpoint FreeCache_sets (numberOfLinesPerSet : Z) (n : nat) (i : Z)
  : M (list (option Z)) :=
  match n with
  | O => ret []
  | S n' =>
      released <- FreeCache_lines i (Z.to_nat numberOfLinesPerSet) 0 ;;
      rest <- FreeCache_sets numberOfLinesPerSet n' (i + 1) ;;
      ret (released ++ rest)
  end.

Definition FreeCache (c : Cache_t) : result (list (option Z)) :=
  match FreeCache_sets (numberOfLinesPerSet c) (Z.to_nat (numberOfSets c)) 0 c with
  | Ok (released, _) => Ok released
  | Undefined f => Undefined f
  end.

(** The buffer handles of the table, set by set and way by way. *)
Definition handles (c : Cache_t) : list (option Z) :=
  concat (map (map deviceData) (cacheLine c)).


(** The addresses that the [clCreateCacheBuffer] calls of a sequence were
    given. *)
Definition resolved_by (op : operation) (t : Z) : Prop :=
  match op with
  | Resolve _ _ hostAddress => t = hostAddress
  | ReadBackOp _ _ _ _ => False
  end.
Fixpoint resolved (ops : list (Environment * operation)) : list Z :=
  match ops with
  | [] => []
  | (_, Resolve _ _ hostAddress) :: ops' => hostAddress :: resolved ops'
  | (_, ReadBackOp _ _ _ _) :: ops' => resolved ops'
  end.

(** Every valid line has a tag that satisfies [P] and lies in the set that
    [GetIndex] selects for its tag. *)
Definition placed (P : Z -> Prop) (c : Cache_t) : Prop :=
  forall i row j t d,
    contents c !! i = Some row -> row !! j = Some (true, t, d) ->
    P t /\ Z.of_nat i = GetIndex (indexBitMask c) (addressBitShift c) t.

(** Way 0 of the set of [hostAddress] holds it. *)
Definition held_at_way_0 (hostAddress : Z) (c : Cache_t) : Prop :=
  exists s l,
    at_index (cacheLine c) (GetIndex (indexBitMask c) (addressBitShift c) hostAddress)
      = Some s /\
    at_index s 0 = Some l /\ holds hostAddress l = true.

(** The set of every address exists and has a way 0. *)
Definition every_address_has_a_line (c : Cache_t) : Prop :=
  forall hostAddress, exists s l,
    at_index (cacheLine c) (GetIndex (indexBitMask c) (addressBitShift c) hostAddress)
      = Some s /\
    at_index s 0 = Some l.

(** A direct-mapped cache that has made no read-back: its counters and the
    tags of its valid lines. *)
Definition direct_state (P : Z -> Prop) (copies writes : Z) (c : Cache_t) : Prop :=
  config c = direct_mapped /\ counters c = (copies, 0, writes) /\
  placed P c /\ every_address_has_a_line c.

(** ** The example program (vadd_chain, part_000)

    The cache calls of [main] between [CreateCache] (line 96) and the final
    read-back (line 236): three rounds of two inputs, created with
    [CL_MEM_READ_WRITE | CL_MEM_COPY_HOST_PTR], and one output, created with
    [CL_MEM_READ_WRITE]; the output of a round is the first input of the
    next.  [dataSize] is [sizeof(int) * LENGTH = 40]; [runtime k] is the
    OpenCL runtime at the call number [k]. *)
Definition vadd_chain_creates (runtime : nat -> Environment)
    (h_a h_b h_c h_d h_e h_f h_g : Z) : list (Environment * operation) :=
  [ (runtime 0%nat, Resolve 33 40 h_a); (runtime 1%nat, Resolve 33 40 h_b);
    (runtime 2%nat, Resolve 1 40 h_c);
    (runtime 3%nat, Resolve 33 40 h_c); (runtime 4%nat, Resolve 33 40 h_d);
    (runtime 5%nat, Resolve 1 40 h_e);
    (runtime 6%nat, Resolve 33 40 h_e); (runtime 7%nat, Resolve 33 40 h_f);
    (runtime 8%nat, Resolve 1 40 h_g) ].


(** The two-way LRU cache after two [clCreateCacheBuffer(CL_MEM_READ_WRITE, 64)],
    and the direct-mapped LRU cache holding 64 after a creation and a
    read-back of the address 192. *)
Definition two_way_lru_created_twice : Cache_t :=
  Eval vm_compute in
    cache_after (run [(runtime_ok, Resolve 1 64 64); (runtime_ok, Resolve 1 64 64)])
      (two_way_4x64 lru_RP).
Definition direct_lru_holding_64_192 : Cache_t :=
  Eval vm_compute in
    cache_after
      (run [(runtime_ok, Resolve 1 64 192); (runtime_failing, ReadBackOp 1 0 64 192)])
      direct_lru_holding_64.


(** The buffer of every valid line satisfies [P], with the tag of the line. *)
Definition buffers_satisfy (P : Z -> option Z -> Prop) (c : Cache_t) : Prop :=
  forall i row j t d,
    contents c !! i = Some row -> row !! j = Some (true, t, d) -> P t d.

(** [d] is the handle that [clCreateBuffer] returned in a
    [clCreateCacheBuffer] call of [ops] for the address [t], on a cache whose
    [dataSize] is [size']. *)
Definition returned_by (ops : list (Environment * operation)) (size' t : Z)
    (d : option Z) : Prop :=
  exists env flags size,
    In (env, Resolve flags size t) ops /\
    d = Some (fst (clCreateBuffer env (create_flags flags t) size' t)).


(** The line at the way that [GetWay] returns for [hostAddress] holds it:
    way 0 in a direct-mapped cache (lines 121-124), a way that the scan of
    lines 127-128 finds otherwise. *)
Definition cached (hostAddress : Z) (c : Cache_t) : bool :=
  match at_index (cacheLine c)
          (GetIndex (indexBitMask c) (addressBitShift c) hostAddress) with
  | Some s =>
      match config c with
      | direct_mapped =>
          match s !! 0%nat with
          | Some l => holds hostAddress l
          | None => false
          end
      | _ => existsb (holds hostAddress) (take (Z.to_nat (numberOfLinesPerSet c)) s)
      end
  | None => false
  end.


(** * Reasoning about the monad *)

Lemma bind_Ok {A B} (m : M A) (k : A -> M B) c b c2 :
  bind m k c = Ok (b, c2) <->
  exists a c1, m c = Ok (a, c1) /\ k a c1 = Ok (b, c2).
Proof.
  unfold bind. split.
  - destruct (m c) as [[a c1]|f]; [eauto | discriminate].
  - intros (a & c1 & -> & H). exact H.
Qed.

Lemma bind_eq {A B} (m : M A) (k : A -> M B) c a c1 :
  m c = Ok (a, c1) -> bind m k c = k a c1.
Proof. unfold bind. now intros ->. Qed.

Lemma bind_undefined {A B} (m : M A) (k : A -> M B) c f :
  m c = Undefined f -> bind m k c = Undefined f.
Proof. unfold bind. now intros ->. Qed.

Ltac inv_ok H :=
  lazymatch type of H with
  | bind _ _ _ = Ok _ =>
      let a := fresh "a" in let c := fresh "c" in
      let H1 := fresh H in let H2 := fresh H in
      apply bind_Ok in H; destruct H as (a & c & H1 & H2);
      inv_ok H1; inv_ok H2
  | ret _ _ = Ok _ =>
      unfold ret in H; first [injection H as <- <- | injection H as <-]
  | gets _ _ = Ok _ => unfold gets in H; injection H as <- <-
  | modify _ _ = Ok _ =>
      unfold modify in H; first [injection H as <- <- | injection H as <-]
  | undefined _ _ = Ok _ => discriminate H
  | _ => idtac
  end.

Lemma load_set_Ok setIndex c s c' :
  load_set setIndex c = Ok (s, c') <->
  at_index (cacheLine c) setIndex = Some s /\ c' = c.
Proof.
  unfold load_set. destruct (at_index (cacheLine c) setIndex); split.
  - intros [= <- <-]. easy.
  - intros [[= <-] ->]. easy.
  - discriminate.
  - intros [[=] _].
Qed.

Lemma load_line_Ok setIndex way c l c' :
  load_line setIndex way c = Ok (l, c') <->
  exists s, at_index (cacheLine c) setIndex = Some s /\
            at_index s way = Some l /\ c' = c.
Proof.
  unfold load_line, load_set, bind, ret, undefined.
  destruct (at_index (cacheLine c) setIndex) as [s|]; split.
  - destruct (at_index s way) eqn:E; [intros [= <- <-]; eauto | discriminate].
  - intros (s' & [= <-] & -> & ->). reflexivity.
  - discriminate.
  - intros (s' & [=] & _).
Qed.

Lemma load_cursor_Ok setIndex c v c' :
  load_cursor setIndex c = Ok (v, c') <->
  at_index (replacementLine c) setIndex = Some v /\ c' = c.
Proof.
  unfold load_cursor. destruct (at_index (replacementLine c) setIndex); split.
  - intros [= <- <-]. easy.
  - intros [[= <-] ->]. easy.
  - discriminate.
  - intros [[=] _].
Qed.

Lemma store_line_Ok setIndex way g c u c' :
  store_line setIndex way g c = Ok (u, c') <->
  exists s l, at_index (cacheLine c) setIndex = Some s /\
              at_index s way = Some l /\
              c' = with_cacheLine
                     (<[Z.to_nat setIndex := <[Z.to_nat way := g l]> s]> (cacheLine c)) c.
Proof.
  unfold store_line, load_line, load_set, bind, ret, undefined, modify.
  destruct u. split.
  - destruct (at_index (cacheLine c) setIndex) as [s|] eqn:Es; cbn; [|discriminate].
    destruct (at_index s way) eqn:E; cbn; [|discriminate].
    rewrite Es. intros [= <-]. eauto.
  - intros (s & l & Es & El & ->). rewrite Es. cbn. rewrite El. cbn.
    rewrite Es. reflexivity.
Qed.

Lemma store_cursor_Ok setIndex v c u c' :
  store_cursor setIndex v c = Ok (u, c') <->
  (exists old, at_index (replacementLine c) setIndex = Some old) /\
  c' = with_replacementLine (<[Z.to_nat setIndex := v]> (replacementLine c)) c.
Proof.
  unfold store_cursor, load_cursor, bind, modify.
  destruct u.
  destruct (at_index (replacementLine c) setIndex) as [old|]; split.
  - intros [= <-]. eauto.
  - intros [_ ->]. reflexivity.
  - discriminate.
  - intros [[old [=]] _].
Qed.

Lemma int_add_Ok a b c v c' :
  int_add a b c = Ok (v, c') <->
  v = a + b /\ INT_MIN <= a + b <= INT_MAX /\ c' = c.
Proof.
  unfold int_add, ret, undefined. split.
  - destruct (in_int (a + b)) eqn:E; [|discriminate].
    intros [= <- <-]. unfold in_int in E.
    apply andb_true_iff in E as [E1 E2].
    apply Z.leb_le in E1, E2. auto.
  - intros (-> & Hr & ->).
    replace (in_int (a + b)) with true; [reflexivity|].
    symmetry. unfold in_int. apply andb_true_iff. split; apply Z.leb_le; lia.
Qed.

#[export] Instance unchanged_preorder {B} (f : Cache_t -> B) : PreOrder (unchanged f).
Proof. split; unfold unchanged; [now intros x | intros x y z H1 H2; congruence]. Qed.

Section Preserves.
Context (R : Cache_t -> Cache_t -> Prop) `{!PreOrder R}.

Lemma preserves_ret {A} (a : A) : preserves R (ret a).
Proof. intros c a' c' H. inv_ok H. reflexivity. Qed.

Lemma preserves_gets {A} (f : Cache_t -> A) : preserves R (gets f).
Proof. intros c a' c' H. inv_ok H. reflexivity. Qed.

Lemma preserves_undefined {A} f : preserves R (@undefined A f).
Proof. intros c a' c' H. discriminate. Qed.

Lemma preserves_bind {A B} (m : M A) (k : A -> M B) :
  preserves R m -> (forall a, preserves R (k a)) -> preserves R (bind m k).
Proof.
  intros Hm Hk c b c2 H. apply bind_Ok in H as (a & c1 & H1 & H2).
  transitivity c1; [eapply Hm | eapply Hk]; eassumption.
Qed.

Lemma preserves_modify (f : Cache_t -> Cache_t) :
  (forall c, R c (f c)) -> preserves R (modify f).
Proof. intros Hf c a c' H. inv_ok H. apply Hf. Qed.

Lemma preserves_int_add a b : preserves R (int_add a b).
Proof.
  unfold int_add. destruct (in_int (a + b));
    [apply preserves_ret | apply preserves_undefined].
Qed.

Lemma preserves_int_rem a b : preserves R (int_rem a b).
Proof.
  unfold int_rem. destruct (b =? 0);
    [apply preserves_undefined | apply preserves_ret].
Qed.

Lemma preserves_load_set setIndex : preserves R (load_set setIndex).
Proof.
  intros c a c' H. unfold load_set in H.
  destruct (at_index (cacheLine c) setIndex); [|discriminate].
  injection H as <- <-. reflexivity.
Qed.

Lemma preserves_load_cursor setIndex : preserves R (load_cursor setIndex).
Proof.
  intros c a c' H. unfold load_cursor in H.
  destruct (at_index (replacementLine c) setIndex); [|discriminate].
  injection H as <- <-. reflexivity.
Qed.

Lemma preserves_load_line setIndex way : preserves R (load_line setIndex way).
Proof.
  unfold load_line. apply preserves_bind; [apply preserves_load_set|].
  intros s. destruct (at_index s way);
    [apply preserves_ret | apply preserves_undefined].
Qed.

Lemma preserves_store_cursor setIndex v :
  cursor_closed R -> preserves R (store_cursor setIndex v).
Proof.
  intros HR. unfold store_cursor.
  apply preserves_bind; [apply preserves_load_cursor|].
  intros _. apply preserves_modify. intros c. apply HR.
Qed.

Lemma preserves_store_metadata setIndex way v :
  metadata_closed R ->
  preserves R (store_line setIndex way (set_accessedOrder v)).
Proof.
  intros HR c a c' H.
  apply store_line_Ok in H as (s & l & Hs & Hl & ->).
  eapply HR; eassumption.
Qed.

End Preserves.

Ltac pbind :=
  (apply preserves_bind; [typeclasses eauto | | intros ?])
  || (apply preserves_bind; [| intros ?]).
Ltac pres_step :=
  first
    [ match goal with |- PreOrder _ => typeclasses eauto end
    | apply preserves_ret | apply preserves_gets | apply preserves_undefined
    | apply preserves_int_add | apply preserves_int_rem
    | apply preserves_load_set | apply preserves_load_line
    | apply preserves_load_cursor
    | apply preserves_store_cursor; [(typeclasses eauto || assumption) ..]
    | apply preserves_store_metadata; [(typeclasses eauto || assumption) ..]
    | pbind
    | match goal with
      | |- preserves _ (if ?b then _ else _) => destruct b
      | |- preserves _ (match ?x with _ => _ end) => destruct x
      end ].
Ltac pres := repeat pres_step.

(** [GetWay] and [SetWay] write nothing but usage metadata and cursors. *)
Section PreservesWays.
Context (R : Cache_t -> Cache_t -> Prop) `{!PreOrder R}.
Hypothesis Hmeta : metadata_closed R.
Hypothesis Hcursor : cursor_closed R.

Lemma preserves_GetWay_hit setIndex way : preserves R (GetWay_hit setIndex way).
Proof. unfold GetWay_hit. pres. Qed.

Lemma preserves_GetWay_scan hostAddress setIndex n way :
  preserves R (GetWay_scan hostAddress setIndex n way).
Proof.
  revert way. induction n as [|n IH]; intros way; simpl.
  - pres.
  - pbind; [pres|].
    destruct (valid a && (tag a =? hostAddress)); [|apply IH].
    pbind; [apply preserves_GetWay_hit | pres].
Qed.

Lemma preserves_GetWay hostAddress setIndex : preserves R (GetWay hostAddress setIndex).
Proof.
  unfold GetWay. do 3 (pbind; [pres |]).
  destruct a1; try apply preserves_GetWay_scan. pres.
Qed.

Lemma preserves_SetWay_empty setIndex n way :
  preserves R (SetWay_empty setIndex n way).
Proof.
  revert way. induction n as [|n IH]; intros way; simpl; [pres|].
  pbind; [pres|].
  destruct (negb (valid a)); [pres | apply IH].
Qed.

Lemma preserves_SetWay_lowest setIndex n way r :
  preserves R (SetWay_lowest setIndex n way r).
Proof.
  revert way r. induction n as [|n IH]; intros way r; simpl; [pres|].
  do 2 (pbind; [pres |]). apply IH.
Qed.

Lemma preserves_SetWay_highest setIndex n way r :
  preserves R (SetWay_highest setIndex n way r).
Proof.
  revert way r. induction n as [|n IH]; intros way r; simpl; [pres|].
  pbind; [pres|].
  destruct (negb (valid a)); [pres|].
  pbind; [pres |]. apply IH.
Qed.

Lemma preserves_stamp setIndex way : preserves R (stamp setIndex way).
Proof. unfold stamp. pres. Qed.

Lemma preserves_SetWay env setIndex : preserves R (SetWay env setIndex).
Proof.
  unfold SetWay. do 3 (pbind; [pres |]).
  destruct a1.
  - pbind; [apply preserves_SetWay_empty | pres].
  - pres.
  - pbind; [apply preserves_SetWay_lowest |].
    pbind; [apply preserves_stamp | pres].
  - pbind; [apply preserves_SetWay_highest |].
    pbind; [apply preserves_stamp | pres].
  - pbind; [apply preserves_SetWay_lowest | pres].
  - pbind; [apply preserves_SetWay_highest | pres].
Qed.
End PreservesWays.

(** Views of the cache that the metadata and the cursors do not touch. *)
Lemma at_index_Some {A} (l : list A) i x :
  at_index l i = Some x <-> 0 <= i /\ l !! Z.to_nat i = Some x.
Proof.
  unfold at_index. destruct (Z.ltb_spec i 0); split.
  - discriminate.
  - lia.
  - auto.
  - now intros [_ H'].
Qed.

Lemma contents_metadata_closed : metadata_closed (unchanged contents).
Proof.
  intros c setIndex way v s l Hs Hl. unfold unchanged, contents. simpl.
  apply at_index_Some in Hs as [_ Hs]. apply at_index_Some in Hl as [_ Hl].
  change (map (map content)) with (fmap (M:=list) (fmap (M:=list) content)).
  rewrite list_fmap_insert. apply list_insert_id.
  rewrite list_lookup_fmap, Hs. simpl. f_equal.
  rewrite list_fmap_insert. symmetry. apply list_insert_id.
  rewrite list_lookup_fmap, Hl. reflexivity.
Qed.

Lemma contents_cursor_closed : cursor_closed (unchanged contents).
Proof. intros c setIndex v. reflexivity. Qed.

Lemma field_metadata_closed {B} (f : Cache_t -> B) :
  (forall c t, f (with_cacheLine t c) = f c) -> metadata_closed (unchanged f).
Proof. intros Hf c setIndex way v s l _ _. apply Hf. Qed.

Lemma field_cursor_closed {B} (f : Cache_t -> B) :
  (forall c r, f (with_replacementLine r c) = f c) -> cursor_closed (unchanged f).
Proof. intros Hf c setIndex v. apply Hf. Qed.

(** * The lookup *)

Lemma at_index_of_nat {A} (l : list A) (k : nat) : at_index l (Z.of_nat k) = l !! k.
Proof.
  unfold at_index. destruct (Z.ltb_spec (Z.of_nat k) 0); [lia|].
  now rewrite Nat2Z.id.
Qed.

Lemma at_index_negative {A} (l : list A) i : i < 0 -> at_index l i = None.
Proof. unfold at_index. destruct (Z.ltb_spec i 0); [reflexivity | lia]. Qed.

Lemma load_line_eq setIndex c s (k : nat) l :
  at_index (cacheLine c) setIndex = Some s -> s !! k = Some l ->
  load_line setIndex (Z.of_nat k) c = Ok (l, c).
Proof.
  intros Hs Hl. apply load_line_Ok. exists s.
  rewrite at_index_of_nat. auto.
Qed.

Section Scan.
Variables (hostAddress setIndex : Z) (c : Cache_t) (s : list CacheLine_t).
Hypothesis Hset : at_index (cacheLine c) setIndex = Some s.

Lemma GetWay_scan_miss n k :
  none_between hostAddress s k (k + n) ->
  GetWay_scan hostAddress setIndex n (Z.of_nat k) c = Ok (-1, c).
Proof.
  revert k. induction n as [|n IH]; intros k Hnone; simpl; [reflexivity|].
  destruct (Hnone k) as (l & Hl & Hh); [lia|].
  rewrite (bind_eq _ _ _ _ _ (load_line_eq _ _ _ _ _ Hset Hl)).
  unfold holds in Hh. rewrite Hh.
  replace (Z.of_nat k + 1) with (Z.of_nat (S k)) by lia.
  apply IH. intros j Hj. apply Hnone. lia.
Qed.

Lemma GetWay_scan_hit n k w l :
  (k <= w < k + n)%nat -> s !! w = Some l -> holds hostAddress l = true ->
  none_between hostAddress s k w ->
  GetWay_scan hostAddress setIndex n (Z.of_nat k) c =
  (GetWay_hit setIndex (Z.of_nat w) ;;; ret (Z.of_nat w)) c.
Proof.
  revert k. induction n as [|n IH]; intros k Hw Hl Hh Hnone; simpl; [lia|].
  destruct (decide (k = w)) as [->|Hne].
  - rewrite (bind_eq _ _ _ _ _ (load_line_eq _ _ _ _ _ Hset Hl)).
    unfold holds in Hh. now rewrite Hh.
  - destruct (Hnone k) as (l' & Hl' & Hh'); [lia|].
    rewrite (bind_eq _ _ _ _ _ (load_line_eq _ _ _ _ _ Hset Hl')).
    unfold holds in Hh'. rewrite Hh'.
    replace (Z.of_nat k + 1) with (Z.of_nat (S k)) by lia.
    apply IH; auto; [lia|]. intros j Hj. apply Hnone. lia.
Qed.

Lemma GetWay_scan_inv n k w c' :
  GetWay_scan hostAddress setIndex n (Z.of_nat k) c = Ok (w, c') ->
  (w = -1 /\ c' = c /\ none_between hostAddress s k (k + n)) \/
  (exists w' l, w = Z.of_nat w' /\ (k <= w' < k + n)%nat /\
                s !! w' = Some l /\ holds hostAddress l = true /\
                none_between hostAddress s k w').
Proof.
  revert k. induction n as [|n IH]; intros k H; simpl in H.
  - inv_ok H. left. repeat split. intros j Hj. lia.
  - apply bind_Ok in H as (l & c1 & Hl & H).
    apply load_line_Ok in Hl as (s' & Hs' & Hl & ->).
    rewrite Hset in Hs'. injection Hs' as <-.
    rewrite at_index_of_nat in Hl.
    destruct (valid l && (tag l =? hostAddress)) eqn:Hh.
    + apply bind_Ok in H as (u & c2 & _ & H). inv_ok H.
      right. exists k, l. repeat split; auto; try lia.
      intros j Hj. lia.
    + replace (Z.of_nat k + 1) with (Z.of_nat (S k)) in H by lia.
      apply IH in H as [(-> & -> & Hnone) | (w' & l' & -> & Hw & Hl' & Hh' & Hnone)].
      * left. repeat split. intros j Hj.
        destruct (decide (j = k)) as [->|]; [eauto | apply Hnone; lia].
      * right. exists w', l'. repeat split; auto; try lia.
        intros j Hj.
        destruct (decide (j = k)) as [->|]; [eauto | apply Hnone; lia].
Qed.
End Scan.

Lemma GetWay_direct_mapped hostAddress setIndex c s :
  config c = direct_mapped -> at_index (cacheLine c) setIndex = Some s ->
  GetWay hostAddress setIndex c = Ok (0, c).
Proof.
  intros Hc Hs. unfold GetWay, gets, bind, load_set. now rewrite Hs, Hc.
Qed.

Lemma GetWay_associative hostAddress setIndex c s :
  config c <> direct_mapped -> at_index (cacheLine c) setIndex = Some s ->
  GetWay hostAddress setIndex c =
  GetWay_scan hostAddress setIndex (Z.to_nat (numberOfLinesPerSet c)) 0 c.
Proof.
  intros Hc Hs. unfold GetWay, gets, bind, load_set. rewrite Hs.
  destruct (config c); [contradiction | reflexivity ..].
Qed.

Lemma GetWay_Ok_set hostAddress setIndex c w c' :
  GetWay hostAddress setIndex c = Ok (w, c') ->
  exists s, at_index (cacheLine c) setIndex = Some s.
Proof.
  unfold GetWay, gets, bind, load_set.
  destruct (at_index (cacheLine c) setIndex); [eauto | discriminate].
Qed.

(** What a hit writes, policy by policy. *)
Lemma GetWay_hit_stamp setIndex way c s l cur :
  (policy c = lru_RP \/ policy c = mru_RP) ->
  at_index (cacheLine c) setIndex = Some s -> at_index s way = Some l ->
  at_index (replacementLine c) setIndex = Some cur ->
  INT_MIN <= cur + 1 <= INT_MAX ->
  GetWay_hit setIndex way c =
  Ok (tt, with_cacheLine
            (<[Z.to_nat setIndex := <[Z.to_nat way := set_accessedOrder (cur + 1) l]> s]>
               (cacheLine c))
            (with_replacementLine (<[Z.to_nat setIndex := cur + 1]> (replacementLine c)) c)).
Proof.
  intros Hp Hs Hl Hcur Hrange.
  set (c1 := with_replacementLine (<[Z.to_nat setIndex := cur + 1]> (replacementLine c)) c).
  assert (H1 : load_cursor setIndex c = Ok (cur, c)) by now apply load_cursor_Ok.
  assert (H2 : int_add cur 1 c = Ok (cur + 1, c)) by now apply int_add_Ok.
  assert (H3 : store_cursor setIndex (cur + 1) c = Ok (tt, c1))
    by (apply store_cursor_Ok; eauto).
  assert (H4 : load_cursor setIndex c1 = Ok (cur + 1, c1)).
  { apply load_cursor_Ok. split; [|reflexivity]. simpl.
    apply at_index_Some in Hcur as [Hnn Hcur]. apply at_index_Some. split; [easy|].
    apply list_lookup_insert_eq. eapply lookup_lt_Some, Hcur. }
  assert (H5 : store_line setIndex way (set_accessedOrder (cur + 1)) c1 =
               Ok (tt, with_cacheLine
                         (<[Z.to_nat setIndex := <[Z.to_nat way := set_accessedOrder (cur + 1) l]> s]>
                            (cacheLine c1)) c1))
    by (apply store_line_Ok; exists s, l; auto).
  unfold GetWay_hit.
  rewrite (bind_eq _ _ c (policy c) c) by reflexivity.
  destruct Hp as [-> | ->];
    rewrite (bind_eq _ _ _ _ _ H1), (bind_eq _ _ _ _ _ H2),
            (bind_eq _ _ _ _ _ H3), (bind_eq _ _ _ _ _ H4); exact H5.
Qed.

Lemma GetWay_hit_count setIndex way c s l :
  (policy c = lfu_RP \/ policy c = mfu_RP) ->
  at_index (cacheLine c) setIndex = Some s -> at_index s way = Some l ->
  INT_MIN <= accessedOrder (metaData l) + 1 <= INT_MAX ->
  GetWay_hit setIndex way c =
  Ok (tt, with_cacheLine
            (<[Z.to_nat setIndex :=
                 <[Z.to_nat way := set_accessedOrder (accessedOrder (metaData l) + 1) l]> s]>
               (cacheLine c)) c).
Proof.
  intros Hp Hs Hl Hrange.
  assert (H1 : load_line setIndex way c = Ok (l, c)) by (apply load_line_Ok; eauto).
  assert (H2 : int_add (accessedOrder (metaData l)) 1 c =
               Ok (accessedOrder (metaData l) + 1, c)) by now apply int_add_Ok.
  unfold GetWay_hit.
  rewrite (bind_eq _ _ c (policy c) c) by reflexivity.
  destruct Hp as [-> | ->];
    rewrite (bind_eq _ _ _ _ _ H1), (bind_eq _ _ _ _ _ H2);
    apply store_line_Ok; exists s, l; auto.
Qed.

Lemma GetWay_hit_none setIndex way c :
  (policy c = random_RP \/ policy c = fifo_RP) ->
  GetWay_hit setIndex way c = Ok (tt, c).
Proof.
  intros Hp. unfold GetWay_hit.
  rewrite (bind_eq _ _ c (policy c) c) by reflexivity.
  now destruct Hp as [-> | ->].
Qed.

(** * The two protocols, step by step *)

Lemma at_index_insert_eq {A} (l : list A) i x y :
  at_index l i = Some x -> at_index (<[Z.to_nat i := y]> l) i = Some y.
Proof.
  intros [Hi Hl]%at_index_Some. apply at_index_Some. split; [easy|].
  apply list_lookup_insert_eq. eapply lookup_lt_Some, Hl.
Qed.

Lemma increment_Ok field update c u c' :
  increment field update c = Ok (u, c') <->
  INT_MIN <= field c + 1 <= INT_MAX /\ c' = update (field c + 1) c.
Proof.
  unfold increment. destruct u. split.
  - intros H. apply bind_Ok in H as (v & c1 & H1 & H).
    apply bind_Ok in H as (v' & c2 & H2 & H).
    inv_ok H1. apply int_add_Ok in H2 as [-> [Hr ->]]. inv_ok H. auto.
  - intros [Hr ->].
    rewrite (bind_eq _ _ c (field c) c) by reflexivity.
    rewrite (bind_eq _ _ c (field c + 1) c) by now apply int_add_Ok.
    reflexivity.
Qed.

Lemma populate_Ok flags hostAddress setIndex way mem err fl sz c (res : Created) c' :
  (store_line setIndex way (set_deviceData mem) ;;;
   increment memCopies with_memCopies ;;;
   (if has_flag flags CL_MEM_COPY_HOST_PTR
    then increment WriteTransfers with_WriteTransfers else ret tt) ;;;
   store_line setIndex way (set_tag hostAddress) ;;;
   store_line setIndex way (set_valid true) ;;;
   l <- load_line setIndex way ;;
   ret (mkCreated (deviceData l) (Some err) [CreateBuffer fl sz hostAddress])) c
  = Ok (res, c') ->
  exists s l,
    at_index (cacheLine c) setIndex = Some s /\ at_index s way = Some l /\
    res = mkCreated (Some mem) (Some err) [CreateBuffer fl sz hostAddress] /\
    c' = with_cacheLine
           (<[Z.to_nat setIndex := <[Z.to_nat way := populated hostAddress mem l]> s]>
              (cacheLine c))
           (count_create flags c).
Proof.
  intros H.
  apply bind_Ok in H as (u1 & c1 & H1 & H).
  apply bind_Ok in H as (u2 & c2 & H2 & H).
  apply bind_Ok in H as (u3 & c3 & H3 & H).
  apply bind_Ok in H as (u4 & c4 & H4 & H).
  apply bind_Ok in H as (u5 & c5 & H5 & H).
  apply bind_Ok in H as (l6 & c6 & H6 & H).
  inv_ok H.
  apply store_line_Ok in H1 as (s & l & Hs & Hl & ->).
  apply increment_Ok in H2 as [_ ->].
  assert (Hc3 : c3 = count_create flags
                       (with_cacheLine
                          (<[Z.to_nat setIndex :=
                               <[Z.to_nat way := set_deviceData mem l]> s]> (cacheLine c)) c)).
  { unfold count_create. destruct (has_flag flags CL_MEM_COPY_HOST_PTR).
    - apply increment_Ok in H3 as [_ ->]. reflexivity.
    - inv_ok H3. reflexivity. }
  clear H3. subst c3.
  apply store_line_Ok in H4 as (s4 & l4 & Hs4 & Hl4 & ->).
  assert (cacheLine_count : forall x, cacheLine (count_create flags x) = cacheLine x).
  { intros x. unfold count_create. now destruct (has_flag flags CL_MEM_COPY_HOST_PTR). }
  rewrite cacheLine_count in Hs4. simpl in Hs4.
  rewrite (at_index_insert_eq _ _ _ _ Hs) in Hs4. injection Hs4 as <-.
  rewrite (at_index_insert_eq _ _ _ _ Hl) in Hl4. injection Hl4 as <-.
  apply store_line_Ok in H5 as (s5 & l5 & Hs5 & Hl5 & ->).
  simpl in Hs5. rewrite cacheLine_count in Hs5. simpl in Hs5.
  rewrite !list_insert_insert_eq in Hs5.
  rewrite (at_index_insert_eq _ _ _ _ Hs) in Hs5. injection Hs5 as <-.
  rewrite (at_index_insert_eq _ _ _ _ Hl) in Hl5. injection Hl5 as <-.
  apply load_line_Ok in H6 as (s6 & Hs6 & Hl6 & ->).
  simpl in Hs6. rewrite cacheLine_count in Hs6. simpl in Hs6.
  rewrite !list_insert_insert_eq in Hs6.
  rewrite (at_index_insert_eq _ _ _ _ Hs) in Hs6. injection Hs6 as <-.
  rewrite (at_index_insert_eq _ _ _ _ Hl) in Hl6. injection Hl6 as <-.
  exists s, l. repeat split; auto.
  simpl. rewrite !cacheLine_count. simpl.
  rewrite !list_insert_insert_eq.
  unfold count_create. now destruct (has_flag flags CL_MEM_COPY_HOST_PTR).
Qed.

Lemma clCreateCacheBuffer_inv env flags size hostAddress c res c' :
  clCreateCacheBuffer env flags size hostAddress c = Ok (res, c') ->
  let setIndex := GetIndex (indexBitMask c) (addressBitShift c) hostAddress in
  exists w c1,
    GetWay hostAddress setIndex c = Ok (w, c1) /\
    ((has_flag flags CL_MEM_COPY_HOST_PTR = true /\
      exists s l, at_index (cacheLine c1) setIndex = Some s /\ at_index s w = Some l /\
                  holds hostAddress l = true /\
                  res = mkCreated (deviceData l) None [] /\ c' = c1)
     \/
     (exists w' c2 s l,
        (if w =? -1 then SetWay env setIndex c1 else ret w c1) = Ok (w', c2) /\
        at_index (cacheLine c2) setIndex = Some s /\ at_index s w' = Some l /\
        let fl := create_flags flags hostAddress in
        let created := clCreateBuffer env fl (dataSize c2) hostAddress in
        res = mkCreated (Some (fst created)) (Some (snd created))
                [CreateBuffer fl (dataSize c2) hostAddress] /\
        c' = with_cacheLine
               (<[Z.to_nat setIndex :=
                    <[Z.to_nat w' := populated hostAddress (fst created) l]> s]>
                  (cacheLine c2))
               (count_create flags c2))).
Proof.
  intros H setIndex. unfold clCreateCacheBuffer in H.
  apply bind_Ok in H as (mask & c0 & Hmask & H). inv_ok Hmask.
  apply bind_Ok in H as (shift & c0 & Hshift & H). inv_ok Hshift.
  apply bind_Ok in H as (w & c1 & Hway & H).
  exists w, c1. split; [exact Hway|].
  apply bind_Ok in H as (present & c1' & Hpresent & H).
  assert (Hp : c1' = c1 /\
               (present = true ->
                has_flag flags CL_MEM_COPY_HOST_PTR = true /\
                exists s l, at_index (cacheLine c1) setIndex = Some s /\
                            at_index s w = Some l /\ holds hostAddress l = true)).
  { destruct (has_flag flags CL_MEM_COPY_HOST_PTR).
    - apply bind_Ok in Hpresent as (l & c1'' & Hl & Hr). inv_ok Hr.
      apply load_line_Ok in Hl as (s & Hs & Hl & ->).
      split; [reflexivity|]. intros Hh. split; [reflexivity|]. eauto.
    - inv_ok Hpresent. split; [reflexivity | discriminate]. }
  destruct Hp as [-> Hp]. clear Hpresent.
  destruct present.
  - left. destruct Hp as (Hf & s & l & Hs & Hl & Hh); [reflexivity|].
    split; [exact Hf|]. exists s, l.
    apply bind_Ok in H as (l' & c1' & Hl' & H). inv_ok H.
    apply load_line_Ok in Hl' as (s' & Hs' & Hl' & ->).
    fold setIndex in Hs'. rewrite Hs in Hs'. injection Hs' as <-.
    rewrite Hl in Hl'. injection Hl' as <-. auto.
  - right. clear Hp.
    apply bind_Ok in H as (w' & c2 & Hw' & H).
    apply bind_Ok in H as (sz & c2' & Hsz & H). inv_ok Hsz.
    fold setIndex in H, Hw'. fold (create_flags flags hostAddress) in H.
    destruct (clCreateBuffer env (create_flags flags hostAddress) (dataSize c2) hostAddress)
      as [mem err] eqn:Ecreate.
    apply populate_Ok in H as (s & l & Hs & Hl & -> & ->).
    exists w', c2, s, l. simpl. rewrite Ecreate. simpl.
    repeat split; auto. destruct (w =? -1); exact Hw'.
Qed.

Lemma clEnqueueReadCacheBuffer_inv env blocking_read offset size hostAddress c res c' :
  clEnqueueReadCacheBuffer env blocking_read offset size hostAddress c = Ok (res, c') ->
  let setIndex := GetIndex (indexBitMask c) (addressBitShift c) hostAddress in
  exists w c1 s l,
    GetWay hostAddress setIndex c = Ok (w, c1) /\
    at_index (cacheLine c1) setIndex = Some s /\ at_index s w = Some l /\
    ((holds hostAddress l = true /\
      res = mkReadBack 0
              [ReadBuffer (deviceData l) blocking_read offset (dataSize c1) hostAddress] /\
      c' = with_ReadTransfers (ReadTransfers c1 + 1)
             (with_memCopies (memCopies c1 + 1) c1))
     \/ (holds hostAddress l = false /\ res = mkReadBack 1 [] /\ c' = c1)).
Proof.
  intros H setIndex. unfold clEnqueueReadCacheBuffer in H.
  apply bind_Ok in H as (mask & c0 & Hmask & H). inv_ok Hmask.
  apply bind_Ok in H as (shift & c0 & Hshift & H). inv_ok Hshift.
  apply bind_Ok in H as (w & c1 & Hway & H).
  apply bind_Ok in H as (l & c1' & Hl & H).
  apply load_line_Ok in Hl as (s & Hs & Hl & ->).
  exists w, c1, s, l. repeat split; auto.
  fold (holds hostAddress l) in H. destruct (holds hostAddress l).
  - left.
    apply bind_Ok in H as (sz & c2 & Hsz & H). inv_ok Hsz.
    apply bind_Ok in H as (u1 & c2 & H1 & H).
    apply bind_Ok in H as (u2 & c3 & H2 & H). inv_ok H.
    apply increment_Ok in H1 as [_ ->]. apply increment_Ok in H2 as [_ ->].
    auto.
  - right. inv_ok H. auto.
Qed.

(** ** The counters *)

Lemma GetWay_counters hostAddress setIndex :
  preserves (unchanged counters) (GetWay hostAddress setIndex).
Proof.
  apply preserves_GetWay; [typeclasses eauto | |].
  - now apply field_metadata_closed.
  - now apply field_cursor_closed.
Qed.

Lemma SetWay_counters env setIndex :
  preserves (unchanged counters) (SetWay env setIndex).
Proof.
  apply preserves_SetWay; [typeclasses eauto | |].
  - now apply field_metadata_closed.
  - now apply field_cursor_closed.
Qed.

Lemma counters_eq c c' :
  unchanged counters c c' ->
  memCopies c' = memCopies c /\ ReadTransfers c' = ReadTransfers c /\
  WriteTransfers c' = WriteTransfers c.
Proof. unfold unchanged, counters. intros [= -> -> ->]. auto. Qed.

(** What one [clCreateCacheBuffer] does to the counters: nothing when it
    hands back the line it found, and otherwise one transfer, counted as a
    write transfer when [CL_MEM_COPY_HOST_PTR] is set. *)
Lemma clCreateCacheBuffer_counters env flags size hostAddress c res c' :
  clCreateCacheBuffer env flags size hostAddress c = Ok (res, c') ->
  ReadTransfers c' = ReadTransfers c /\
  ((create_calls res = [] /\ memCopies c' = memCopies c /\
    WriteTransfers c' = WriteTransfers c)
   \/ (create_calls res <> [] /\ memCopies c' = memCopies c + 1 /\
       WriteTransfers c' =
       WriteTransfers c + (if has_flag flags CL_MEM_COPY_HOST_PTR then 1 else 0))).
Proof.
  intros H. apply clCreateCacheBuffer_inv in H as (w & c1 & Hway & H).
  apply GetWay_counters, counters_eq in Hway as (Hm & Hr & Hw).
  destruct H as [(_ & s & l & _ & _ & _ & -> & ->) |
                 (w' & c2 & s & l & Hset & _ & _ & -> & ->)].
  - split; [exact Hr|]. left. auto.
  - assert (Hc2 : unchanged counters c1 c2).
    { destruct (w =? -1).
      - eapply SetWay_counters, Hset.
      - inv_ok Hset. reflexivity. }
    apply counters_eq in Hc2 as (Hm2 & Hr2 & Hw2).
    unfold count_create. destruct (has_flag flags CL_MEM_COPY_HOST_PTR); simpl;
      (split; [congruence|]); right; (split; [discriminate|]); split; lia.
Qed.

Lemma clEnqueueReadCacheBuffer_counters env blocking_read offset size hostAddress c res c' :
  clEnqueueReadCacheBuffer env blocking_read offset size hostAddress c = Ok (res, c') ->
  WriteTransfers c' = WriteTransfers c /\
  ((status res = 1 /\ read_calls res = [] /\ memCopies c' = memCopies c /\
    ReadTransfers c' = ReadTransfers c)
   \/ (status res = 0 /\ read_calls res <> [] /\ memCopies c' = memCopies c + 1 /\
       ReadTransfers c' = ReadTransfers c + 1)).
Proof.
  intros H. apply clEnqueueReadCacheBuffer_inv in H as (w & c1 & s & l & Hway & _ & _ & H).
  apply GetWay_counters, counters_eq in Hway as (Hm & Hr & Hw).
  destruct H as [(_ & -> & ->) | (_ & -> & ->)]; simpl.
  - split; [exact Hw|]. right. repeat split; [discriminate | lia | lia].
  - split; [exact Hw|]. left. auto.
Qed.

(** ** Construction *)

Lemma result_bind_Ok {A B} (r : result A) (k : A -> result B) b :
  result_bind r k = Ok b <-> exists a, r = Ok a /\ k a = Ok b.
Proof.
  unfold result_bind. destruct r as [a|f]; split.
  - eauto.
  - now intros (a' & [= <-] & H).
  - discriminate.
  - now intros (a' & [=] & _).
Qed.

Lemma CreateCache_fields numberOfCacheLines dataSize' tagSize' config' policy' c :
  CreateCache numberOfCacheLines dataSize' tagSize' config' policy' = Ok c ->
  counters c = (0, 0, 0) /\ config c = config' /\ policy c = policy' /\
  dataSize c = dataSize' /\ tagSize c = tagSize' /\
  bitshift_loop dataSize' (Z.to_nat dataSize') 0 = Ok (addressBitShift c).
Proof.
  unfold CreateCache. intros H.
  apply result_bind_Ok in H as ([[sets lines] width] & _ & H).
  apply result_bind_Ok in H as (cacheSize & _ & H).
  apply result_bind_Ok in H as (shift & Hshift & H).
  apply result_bind_Ok in H as (mask & _ & H).
  injection H as <-. simpl. repeat split; auto.
Qed.

Lemma bitshift_loop_sound d n k r :
  0 < d -> 0 <= k -> (2 ^ k | d) ->
  bitshift_loop d n k = Ok r ->
  (k <= r /\ (2 ^ r | d)) /\ (r < k + Z.of_nat n -> ~ (2 ^ (r + 1) | d)).
Proof.
  intros Hd. revert k. induction n as [|n IH]; intros k Hk Hdiv H; simpl in H.
  - injection H as <-. split; [split; [lia | exact Hdiv] | lia].
  - apply result_bind_Ok in H as (p & Hp & H).
    unfold pow2_int in Hp. destruct (2 ^ (k + 1) <=? INT_MAX); [|discriminate].
    injection Hp as <-.
    assert (Hnz : 2 ^ (k + 1) <> 0) by (apply Z.pow_nonzero; lia).
    destruct (Z.eqb_spec (Z.rem d (2 ^ (k + 1))) 0) as [E|E]; simpl in H.
    + apply Z.rem_divide in E; [|exact Hnz].
      apply IH in H as [[Hle Hr] Hmax]; [|lia|exact E].
      split; [split; [lia | exact Hr] |]. intros Hlt. apply Hmax. lia.
    + injection H as <-. split; [split; [lia | exact Hdiv] |].
      intros _ Hdiv'. apply E. now apply Z.rem_divide.
Qed.

Lemma pow2_divides_bound d k : 0 < d -> 0 <= k -> (2 ^ k | d) -> k < d.
Proof.
  intros Hd Hk Hdiv. apply Z.divide_pos_le in Hdiv; [|exact Hd].
  pose proof (Z.pow_gt_lin_r 2 k). lia.
Qed.

Lemma bitshift_loop_returns d n k :
  0 < d < 2 ^ 30 -> 0 <= k -> (2 ^ k | d) ->
  exists r, bitshift_loop d n k = Ok r.
Proof.
  intros Hd. revert k. induction n as [|n IH]; intros k Hk Hdiv; simpl; [eauto|].
  assert (Hk30 : k < 30).
  { apply Z.divide_pos_le in Hdiv; [|lia].
    apply (Z.pow_lt_mono_r_iff 2); lia. }
  unfold pow2_int.
  assert (Hp : 2 ^ (k + 1) <= INT_MAX).
  { transitivity (2 ^ 30); [apply Z.pow_le_mono_r; lia | unfold INT_MAX; lia]. }
  apply Z.leb_le in Hp. rewrite Hp. simpl.
  destruct (Z.eqb_spec (Z.rem d (2 ^ (k + 1))) 0) as [E|E]; simpl; [|eauto].
  apply IH; [lia|]. apply Z.rem_divide in E; [exact E|].
  apply Z.pow_nonzero; lia.
Qed.

Lemma index_mask_returns w : w <= 31 -> exists m, index_mask w = Ok m.
Proof.
  intros Hw. unfold index_mask. destruct (w <? 0) eqn:E; [eauto|].
  apply Z.ltb_ge in E.
  assert (H : 2 ^ w - 1 <= INT_MAX).
  { assert (2 ^ w <= 2 ^ 31) by (apply Z.pow_le_mono_r; lia).
    unfold INT_MAX. lia. }
  apply Z.leb_le in H. rewrite H. eauto.
Qed.

Lemma CreateCache_returns numberOfCacheLines dataSize' tagSize' config' policy' :
  1 <= numberOfCacheLines <= INT_MAX -> 0 <= dataSize' < 2 ^ 30 ->
  numberOfCacheLines * dataSize' <= INT_MAX ->
  exists c, CreateCache numberOfCacheLines dataSize' tagSize' config' policy' = Ok c.
Proof.
  intros Hn Hd Hsize. unfold CreateCache.
  assert (Hlog : ceil_log2 numberOfCacheLines = Ok (Z.log2_up numberOfCacheLines)).
  { unfold ceil_log2. destruct (Z.leb_spec 1 numberOfCacheLines); [reflexivity | lia]. }
  assert (Hw : 0 <= Z.log2_up numberOfCacheLines <= 31).
  { split; [apply Z.log2_up_nonneg|].
    apply Z.log2_up_le_pow2; [lia | unfold INT_MAX in Hn; lia]. }
  assert (Hint : in_int (numberOfCacheLines * dataSize') = true).
  { unfold in_int, INT_MIN. apply andb_true_iff. split; apply Z.leb_le; nia. }
  assert (Hshift : exists r, bitshift_loop dataSize' (Z.to_nat dataSize') 0 = Ok r).
  { destruct (Z.eq_dec dataSize' 0) as [->|Hne]; [simpl; eauto|].
    apply bitshift_loop_returns; [lia | lia | apply Z.divide_1_l]. }
  destruct Hshift as [r Hr].
  destruct config'; rewrite ?Hlog; simpl; rewrite Hint; simpl; rewrite Hr; simpl.
  - destruct (index_mask_returns (Z.log2_up numberOfCacheLines)) as [m ->]; [lia|].
    simpl. eauto.
  - destruct (index_mask_returns (Z.log2_up numberOfCacheLines - 1)) as [m ->]; [lia|].
    simpl. eauto.
  - destruct (index_mask_returns (Z.log2_up numberOfCacheLines - 2)) as [m ->]; [lia|].
    simpl. eauto.
  - eauto.
Qed.

Lemma CreateCache_direct_4x64 p :
  CreateCache 4 64 32 direct_mapped p = Ok (direct_4x64 p).
Proof. now destruct p. Qed.

Lemma CreateCache_two_way_4x64 p :
  CreateCache 4 64 32 two_way p = Ok (two_way_4x64 p).
Proof. now destruct p. Qed.

(** * Construction: the address shift and the missing validation *)

(** C3, as the specification words it, fails: for a line size of 64 the
    constructed shift is 6, and 64 is not divisible by [2^(6+1)]; the largest
    [k] with [2^(k+1)] dividing 64 is 5. *)
Lemma addressBitShift_64_not_spec :
  exists c, CreateCache 4 64 32 direct_mapped random_RP = Ok c /\
            addressBitShift c = 6 /\
            ~ spec_addressBitShift 64 (addressBitShift c) /\
            spec_addressBitShift 64 5.
Proof.
  exists (direct_4x64 random_RP). split; [reflexivity|]. split; [reflexivity|].
  split.
  - intros (_ & [q Hq] & _). simpl in Hq. lia.
  - split; [lia|]. split; [exists 1; reflexivity|].
    intros k' Hk' Hdiv.
    apply Z.divide_pos_le in Hdiv; [|lia].
    assert (k' + 1 < 7); [|lia].
    apply (Z.pow_lt_mono_r_iff 2); lia.
Qed.

(** C3 (amended): for a line size [d] with [0 < d < 2^30], construction
    returns a cache whose [addressBitShift] is the largest [k] such that [d]
    is divisible by [2^k] (the number of trailing zero bits of [d]); for a
    line size of 64 it is 6. *)
Theorem addressBitShift_largest_power_of_two numberOfCacheLines d tagSize' config' policy' :
  1 <= numberOfCacheLines <= INT_MAX -> 0 < d < 2 ^ 30 ->
  numberOfCacheLines * d <= INT_MAX ->
  exists c,
    CreateCache numberOfCacheLines d tagSize' config' policy' = Ok c /\
    0 <= addressBitShift c /\ (2 ^ addressBitShift c | d) /\
    (forall k, 0 <= k -> (2 ^ k | d) -> k <= addressBitShift c) /\
    (d = 64 -> addressBitShift c = 6).
Proof.
  intros Hn Hd Hsize.
  destruct (CreateCache_returns numberOfCacheLines d tagSize' config' policy')
    as [c Hc]; [lia | lia | lia |].
  exists c. split; [exact Hc|].
  apply CreateCache_fields in Hc as (_ & _ & _ & _ & _ & Hloop).
  pose proof (bitshift_loop_sound d _ 0 _ ltac:(lia) ltac:(lia) (Z.divide_1_l d) Hloop)
    as [[Hle Hdiv] Hmax].
  assert (Hnot : ~ (2 ^ (addressBitShift c + 1) | d)).
  { apply Hmax. rewrite Z2Nat.id by lia.
    pose proof (pow2_divides_bound d _ ltac:(lia) Hle Hdiv). lia. }
  assert (Hlargest : forall k, 0 <= k -> (2 ^ k | d) -> k <= addressBitShift c).
  { intros k Hk Hk'. destruct (Z.le_gt_cases k (addressBitShift c)) as [|Hgt]; [easy|].
    exfalso. apply Hnot. transitivity (2 ^ k); [|exact Hk'].
    exists (2 ^ (k - (addressBitShift c + 1))).
    rewrite <- Z.pow_add_r by lia. f_equal. lia. }
  repeat split; auto.
  intros ->. rewrite Z2Nat.id in Hmax by lia.
  assert (6 <= addressBitShift c) by (apply Hlargest; [lia | exists 1; reflexivity]).
  assert (addressBitShift c < 7); [|lia].
  apply Z.divide_pos_le in Hdiv; [|lia].
  apply (Z.pow_lt_mono_r_iff 2); lia.
Qed.

Lemma addressBitShift_largest_power_of_two_witness :
  (1 <= 4 <= INT_MAX /\ 0 < 64 < 2 ^ 30 /\ 4 * 64 <= INT_MAX) /\
  exists c,
    CreateCache 4 64 32 direct_mapped random_RP = Ok c /\
    0 <= addressBitShift c /\ (2 ^ addressBitShift c | 64) /\
    (forall k, 0 <= k -> (2 ^ k | 64) -> k <= addressBitShift c) /\
    (64 = 64 -> addressBitShift c = 6).
Proof.
  split; [unfold INT_MAX; lia|].
  apply (addressBitShift_largest_power_of_two 4 64 32 direct_mapped random_RP);
    unfold INT_MAX; lia.
Defined.

(** C5, as stated, fails: requests that the specification wants refused (a
    line count of 3, a line size of 0, two ways for a single line) are
    answered with a cache. *)
Lemma CreateCache_accepts_rejected_requests :
  (spec_rejects 3 64 direct_mapped = true /\
   exists c, CreateCache 3 64 32 direct_mapped random_RP = Ok c) /\
  (spec_rejects 4 0 direct_mapped = true /\
   exists c, CreateCache 4 0 32 direct_mapped random_RP = Ok c) /\
  (spec_rejects 1 64 two_way = true /\
   exists c, CreateCache 1 64 32 two_way random_RP = Ok c).
Proof.
  repeat split; try reflexivity; eexists; vm_compute; reflexivity.
Qed.

(** C5 (amended): construction validates nothing and has no configuration
    error: every request with at least one line, a line size from 0 up to
    (not including) [2^30] and a total size that fits an [int] is answered
    with a cache of the requested configuration and policy, its counters at
    0, whether or not the line count is a power of two, the line size is 0
    or the set is larger than the cache. *)
Theorem CreateCache_never_refuses numberOfCacheLines d tagSize' config' policy' :
  1 <= numberOfCacheLines <= INT_MAX -> 0 <= d < 2 ^ 30 ->
  numberOfCacheLines * d <= INT_MAX ->
  exists c,
    CreateCache numberOfCacheLines d tagSize' config' policy' = Ok c /\
    config c = config' /\ policy c = policy' /\ dataSize c = d /\
    counters c = (0, 0, 0).
Proof.
  intros Hn Hd Hsize.
  destruct (CreateCache_returns numberOfCacheLines d tagSize' config' policy')
    as [c Hc]; [lia | lia | lia |].
  exists c. split; [exact Hc|].
  apply CreateCache_fields in Hc as (? & ? & ? & ? & _). auto.
Qed.

Lemma CreateCache_never_refuses_witness :
  (1 <= 3 <= INT_MAX /\ 0 <= 0 < 2 ^ 30 /\ 3 * 0 <= INT_MAX) /\
  exists c,
    CreateCache 3 0 32 two_way lru_RP = Ok c /\
    config c = two_way /\ policy c = lru_RP /\ dataSize c = 0 /\
    counters c = (0, 0, 0).
Proof.
  split; [unfold INT_MAX; lia|].
  apply (CreateCache_never_refuses 3 0 32 two_way lru_RP); unfold INT_MAX; lia.
Defined.

(** * The counters over sequences of calls *)

#[export] Instance counters_grow_preorder : PreOrder counters_grow.
Proof.
  split; unfold counters_grow.
  - intros c. lia.
  - intros c1 c2 c3 H12 H23. lia.
Qed.

Lemma step_counters_grow env op : preserves counters_grow (step env op).
Proof.
  intros c u c' H. destruct op; simpl in H;
    apply bind_Ok in H as (res & c1 & H & Hret); inv_ok Hret.
  - apply clCreateCacheBuffer_counters in H as [Hr [(_ & Hm & Hw) | (_ & Hm & Hw)]];
      unfold counters_grow; [lia|].
    destruct (has_flag flags CL_MEM_COPY_HOST_PTR); lia.
  - apply clEnqueueReadCacheBuffer_counters in H
      as [Hw [(_ & _ & Hm & Hr) | (_ & _ & Hm & Hr)]];
      unfold counters_grow; lia.
Qed.

Lemma run_counters_grow ops : preserves counters_grow (run ops).
Proof.
  induction ops as [|[env op] ops IH]; simpl.
  - apply preserves_ret. typeclasses eauto.
  - apply preserves_bind; [typeclasses eauto | apply step_counters_grow | intros _; exact IH].
Qed.

(** * The replacement cursor under FIFO *)

Lemma GetWay_scan_no_bookkeeping hostAddress setIndex c :
  (policy c = random_RP \/ policy c = fifo_RP) ->
  forall n way w c',
    GetWay_scan hostAddress setIndex n way c = Ok (w, c') -> c' = c.
Proof.
  intros Hp. induction n as [|n IH]; intros way w c' H; simpl in H.
  - now inv_ok H.
  - apply bind_Ok in H as (l & c1 & Hl & H).
    apply load_line_Ok in Hl as (s & _ & _ & ->).
    destruct (valid l && (tag l =? hostAddress)); [|eapply IH, H].
    rewrite (bind_eq _ _ _ _ _ (GetWay_hit_none setIndex way c Hp)) in H.
    now inv_ok H.
Qed.

Lemma GetWay_no_bookkeeping hostAddress setIndex c w c' :
  (policy c = random_RP \/ policy c = fifo_RP) ->
  GetWay hostAddress setIndex c = Ok (w, c') -> c' = c.
Proof.
  intros Hp H. destruct (GetWay_Ok_set _ _ _ _ _ H) as [s Hs].
  destruct (decide (config c = direct_mapped)) as [Hc|Hc].
  - rewrite (GetWay_direct_mapped _ _ _ _ Hc Hs) in H. now injection H.
  - rewrite (GetWay_associative _ _ _ _ Hc Hs) in H.
    eapply GetWay_scan_no_bookkeeping; eassumption.
Qed.

(** C6: under [fifo_RP], [SetWay] sets the cursor of the set to
    [(cursor + 1) mod numberOfLinesPerSet] and returns the new cursor,
    whatever the lines of the set hold (empty ways included), and no
    [GetWay], hit or miss, changes the cache, hence the cursor. *)
Theorem fifo_cursor_advances env c setIndex s cur :
  policy c = fifo_RP ->
  at_index (cacheLine c) setIndex = Some s ->
  at_index (replacementLine c) setIndex = Some cur ->
  0 <= cur < INT_MAX -> 0 < numberOfLinesPerSet c ->
  SetWay env setIndex c =
    Ok ((cur + 1) mod numberOfLinesPerSet c,
        with_replacementLine
          (<[Z.to_nat setIndex := (cur + 1) mod numberOfLinesPerSet c]> (replacementLine c)) c)
  /\ (forall hostAddress setIndex' w c',
        GetWay hostAddress setIndex' c = Ok (w, c') ->
        c' = c /\ replacementLine c' = replacementLine c).
Proof.
  intros Hp Hs Hcur Hrange Hn. split.
  - set (next := (cur + 1) mod numberOfLinesPerSet c).
    set (c1 := with_replacementLine (<[Z.to_nat setIndex := next]> (replacementLine c)) c).
    assert (H1 : load_cursor setIndex c = Ok (cur, c)) by now apply load_cursor_Ok.
    assert (H2 : int_add cur 1 c = Ok (cur + 1, c))
      by (apply int_add_Ok; unfold INT_MIN, INT_MAX in *; repeat split; lia).
    assert (H3 : int_rem (cur + 1) (numberOfLinesPerSet c) c = Ok (next, c)).
    { unfold int_rem. destruct (Z.eqb_spec (numberOfLinesPerSet c) 0); [lia|].
      unfold ret, next. now rewrite Z.rem_mod_nonneg by lia. }
    assert (H4 : store_cursor setIndex next c = Ok (tt, c1))
      by (apply store_cursor_Ok; eauto).
    assert (H5 : load_cursor setIndex c1 = Ok (next, c1)).
    { apply load_cursor_Ok. split; [|reflexivity].
      simpl. eapply at_index_insert_eq, Hcur. }
    unfold SetWay.
    rewrite (bind_eq _ _ c (numberOfLinesPerSet c) c) by reflexivity.
    rewrite (bind_eq _ _ c s c) by now apply load_set_Ok.
    rewrite (bind_eq _ _ c (policy c) c) by reflexivity.
    rewrite Hp.
    rewrite (bind_eq _ _ _ _ _ H1), (bind_eq _ _ _ _ _ H2),
            (bind_eq _ _ _ _ _ H3), (bind_eq _ _ _ _ _ H4).
    exact H5.
  - intros hostAddress setIndex' w c' H.
    apply GetWay_no_bookkeeping in H; [|now right]. now subst.
Qed.

(** A fresh two-way FIFO cache: both ways of set 0 are empty, and the
    victim is way 1. *)
Lemma fifo_cursor_advances_witness :
  (policy (two_way_4x64 fifo_RP) = fifo_RP /\
   at_index (cacheLine (two_way_4x64 fifo_RP)) 0 = Some [fresh_line; fresh_line] /\
   at_index (replacementLine (two_way_4x64 fifo_RP)) 0 = Some 0 /\
   0 <= 0 < INT_MAX /\ 0 < numberOfLinesPerSet (two_way_4x64 fifo_RP)) /\
  SetWay runtime_ok 0 (two_way_4x64 fifo_RP) =
    Ok (1, with_replacementLine [1; 0] (two_way_4x64 fifo_RP)).
Proof.
  split; [repeat split; unfold INT_MAX; simpl; lia|].
  apply (fifo_cursor_advances runtime_ok (two_way_4x64 fifo_RP) 0
           [fresh_line; fresh_line] 0);
    try reflexivity; unfold INT_MAX; simpl; lia.
Defined.

(** * The lookup: hit, miss and bookkeeping *)

(** C7, as stated, fails: in a direct-mapped cache a hit applies no
    bookkeeping.  Way 0 of set 1 holds the address 64 and the policy is
    [lru_RP], yet [GetWay] returns the cache as it was: the cursor of the set
    stays 0 and so does the accessed order of the line. *)
Lemma direct_mapped_hit_skips_bookkeeping :
  clCreateCacheBuffer runtime_ok 33 64 64 (direct_4x64 lru_RP) =
    Ok (mkCreated (Some 4160) (Some CL_SUCCESS) [CreateBuffer 33 64 64],
        direct_lru_holding_64) /\
  policy direct_lru_holding_64 = lru_RP /\
  (exists l, load_line 1 0 direct_lru_holding_64 = Ok (l, direct_lru_holding_64) /\
             holds 64 l = true /\ accessedOrder (metaData l) = 0) /\
  at_index (replacementLine direct_lru_holding_64) 1 = Some 0 /\
  GetWay 64 (GetIndex 3 6 64) direct_lru_holding_64 = Ok (0, direct_lru_holding_64).
Proof.
  split; [reflexivity|]. split; [reflexivity|]. split.
  - eexists. split; [reflexivity|]. split; reflexivity.
  - split; reflexivity.
Qed.

(** C7 (amended): in every configuration other than direct-mapped, a hit on
    way [w] (the first way of the set that is valid with the address as its
    tag) is booked on that line: under [lru_RP] or [mru_RP] the cursor of the
    set goes up by 1 and the new value becomes the line's [accessedOrder];
    under [lfu_RP] or [mfu_RP] the line's [accessedOrder] goes up by 1;
    under [random_RP] or [fifo_RP] nothing changes.  The counter that is
    increased is below [INT_MAX]. *)
Theorem hit_bookkeeping hostAddress setIndex c s (w : nat) l :
  config c <> direct_mapped ->
  at_index (cacheLine c) setIndex = Some s ->
  (w < Z.to_nat (numberOfLinesPerSet c))%nat ->
  s !! w = Some l -> holds hostAddress l = true ->
  none_between hostAddress s 0 w ->
  (policy c = lru_RP \/ policy c = mru_RP ->
   forall cur,
     at_index (replacementLine c) setIndex = Some cur ->
     INT_MIN <= cur + 1 <= INT_MAX ->
     GetWay hostAddress setIndex c =
       Ok (Z.of_nat w,
           with_cacheLine
             (<[Z.to_nat setIndex := <[w := set_accessedOrder (cur + 1) l]> s]> (cacheLine c))
             (with_replacementLine
                (<[Z.to_nat setIndex := cur + 1]> (replacementLine c)) c))) /\
  (policy c = lfu_RP \/ policy c = mfu_RP ->
   INT_MIN <= accessedOrder (metaData l) + 1 <= INT_MAX ->
   GetWay hostAddress setIndex c =
     Ok (Z.of_nat w,
         with_cacheLine
           (<[Z.to_nat setIndex :=
                <[w := set_accessedOrder (accessedOrder (metaData l) + 1) l]> s]>
              (cacheLine c)) c)) /\
  (policy c = random_RP \/ policy c = fifo_RP ->
   GetWay hostAddress setIndex c = Ok (Z.of_nat w, c)).
Proof.
  intros Hc Hs Hw Hl Hh Hnone.
  assert (Hscan : GetWay hostAddress setIndex c =
                  (GetWay_hit setIndex (Z.of_nat w) ;;; ret (Z.of_nat w)) c).
  { rewrite (GetWay_associative _ _ _ _ Hc Hs).
    apply (GetWay_scan_hit hostAddress setIndex c s Hs _ 0%nat w l); auto. lia. }
  assert (Hl' : at_index s (Z.of_nat w) = Some l) by now rewrite at_index_of_nat.
  rewrite Hscan. split; [|split].
  - intros Hp cur Hcur Hrange.
    rewrite (bind_eq _ _ _ _ _ (GetWay_hit_stamp _ _ _ _ _ _ Hp Hs Hl' Hcur Hrange)).
    now rewrite Nat2Z.id.
  - intros Hp Hrange.
    rewrite (bind_eq _ _ _ _ _ (GetWay_hit_count _ _ _ _ _ Hp Hs Hl' Hrange)).
    now rewrite Nat2Z.id.
  - intros Hp. now rewrite (bind_eq _ _ _ _ _ (GetWay_hit_none _ _ _ Hp)).
Qed.

(** C4, as stated, fails for a direct-mapped cache: no way of set 1 of the
    fresh cache holds the address 64, and the lookup returns way 0, not -1. *)
Lemma direct_mapped_lookup_never_misses :
  at_index (cacheLine (direct_4x64 random_RP)) (GetIndex 3 6 64) = Some [fresh_line] /\
  holds 64 fresh_line = false /\
  GetWay 64 (GetIndex 3 6 64) (direct_4x64 random_RP) = Ok (0, direct_4x64 random_RP).
Proof. repeat split. Qed.

Lemma first_holding hostAddress (s : list CacheLine_t) :
  (exists j l, s !! j = Some l /\ holds hostAddress l = true) ->
  exists w l, s !! w = Some l /\ holds hostAddress l = true /\
              none_between hostAddress s 0 w.
Proof.
  induction s as [|x s IH]; intros (j & l & Hl & Hh).
  - discriminate.
  - destruct (holds hostAddress x) eqn:Hx.
    + exists 0%nat, x. repeat split; auto. intros i Hi. lia.
    + destruct j as [|j]; [simpl in Hl; congruence|].
      destruct IH as (w & l' & Hl' & Hh' & Hnone); [eauto|].
      exists (S w), l'. repeat split; auto.
      intros [|i] Hi; [exists x; auto|].
      destruct (Hnone i) as (y & Hy & Hhy); [lia|]. exists y. auto.
Qed.

(** C4 (amended): in every configuration other than direct-mapped, the
    lookup in a set of [numberOfLinesPerSet] lines returns -1 exactly when no
    way of the set is valid with the address as its tag; otherwise it returns
    the first such way, and it does return whenever the bookkeeping of the
    hit stays within [int].  (A direct-mapped lookup returns way 0 whatever
    the line holds.) *)
Theorem lookup_miss_iff_no_match hostAddress setIndex c s :
  config c <> direct_mapped ->
  at_index (cacheLine c) setIndex = Some s ->
  length s = Z.to_nat (numberOfLinesPerSet c) ->
  ((forall j l, s !! j = Some l -> holds hostAddress l = false) ->
   GetWay hostAddress setIndex c = Ok (-1, c)) /\
  (forall w c',
     GetWay hostAddress setIndex c = Ok (w, c') ->
     (w = -1 <-> forall j l, s !! j = Some l -> holds hostAddress l = false) /\
     (w <> -1 ->
      exists l, at_index s w = Some l /\ holds hostAddress l = true /\
                none_between hostAddress s 0 (Z.to_nat w))) /\
  ((exists j l, s !! j = Some l /\ holds hostAddress l = true) ->
   bookkeeping_in_range c setIndex s ->
   exists w c', GetWay hostAddress setIndex c = Ok (w, c') /\ w <> -1).
Proof.
  intros Hc Hs Hlen. rewrite (GetWay_associative _ _ _ _ Hc Hs), <- Hlen.
  assert (Hall : none_between hostAddress s 0 (0 + length s) <->
                 forall j l, s !! j = Some l -> holds hostAddress l = false).
  { split.
    - intros Hnone j l Hl. destruct (Hnone j) as (l' & Hl' & Hh).
      + apply lookup_lt_Some in Hl. lia.
      + congruence.
    - intros Hno j Hj. destruct (lookup_lt_is_Some_2 s j) as [l Hl]; [lia|].
      exists l. split; [exact Hl | eapply Hno, Hl]. }
  split; [|split].
  - intros Hno. apply (GetWay_scan_miss hostAddress setIndex c s Hs _ 0%nat).
    now apply Hall.
  - intros w c' H.
    apply (GetWay_scan_inv hostAddress setIndex c s Hs _ 0%nat) in H
      as [(-> & -> & Hnone) | (w' & l & -> & Hw' & Hl & Hh & Hnone)].
    + split; [split; [intros _; now apply Hall | reflexivity] | congruence].
    + split.
      * split; [lia|]. intros Hno. rewrite (Hno _ _ Hl) in Hh. discriminate.
      * intros _. exists l. rewrite at_index_of_nat, Nat2Z.id. auto.
  - intros Hex Hrange.
    destruct (first_holding _ _ Hex) as (w & l & Hl & Hh & Hnone).
    assert (Hw : (0 <= w < 0 + length s)%nat)
      by (apply lookup_lt_Some in Hl; lia).
    pose proof (GetWay_scan_hit hostAddress setIndex c s Hs (length s) 0%nat w l
                  Hw Hl Hh Hnone) as Hscan.
    change (Z.of_nat 0) with 0 in Hscan. rewrite Hscan.
    assert (Hl' : at_index s (Z.of_nat w) = Some l) by now rewrite at_index_of_nat.
    assert (Hhit : exists c', GetWay_hit setIndex (Z.of_nat w) c = Ok (tt, c')).
    { unfold bookkeeping_in_range in Hrange.
      destruct (policy c) eqn:Hp.
      - eexists. apply GetWay_hit_none. auto.
      - eexists. apply GetWay_hit_none. auto.
      - destruct Hrange as (cur & Hcur & Hr). eexists.
        eapply GetWay_hit_stamp; eauto.
      - destruct Hrange as (cur & Hcur & Hr). eexists.
        eapply GetWay_hit_stamp; eauto.
      - eexists. eapply GetWay_hit_count; eauto.
      - eexists. eapply GetWay_hit_count; eauto. }
    destruct Hhit as [c' Hhit]. exists (Z.of_nat w), c'.
    rewrite (bind_eq _ _ _ _ _ Hhit). split; [reflexivity | lia].
Qed.

Lemma hit_bookkeeping_witness :
  (config two_way_lru_holding_64 <> direct_mapped /\
   at_index (cacheLine two_way_lru_holding_64) 1 =
     Some [mkCacheLine true 64 (mkMetaData (-1) 1) (Some 4160); fresh_line] /\
   (0 < Z.to_nat (numberOfLinesPerSet two_way_lru_holding_64))%nat /\
   holds 64 (mkCacheLine true 64 (mkMetaData (-1) 1) (Some 4160)) = true /\
   at_index (replacementLine two_way_lru_holding_64) 1 = Some 1 /\
   INT_MIN <= 1 + 1 <= INT_MAX) /\
  GetWay 64 1 two_way_lru_holding_64 =
    Ok (0, with_cacheLine
             [[fresh_line; fresh_line];
              [mkCacheLine true 64 (mkMetaData (-1) 2) (Some 4160); fresh_line]]
             (with_replacementLine [0; 2] two_way_lru_holding_64)).
Proof.
  split.
  - repeat split; try discriminate; try reflexivity; simpl; lia.
  - apply (proj1 (hit_bookkeeping 64 1 two_way_lru_holding_64
                    [mkCacheLine true 64 (mkMetaData (-1) 1) (Some 4160); fresh_line]
                    0%nat (mkCacheLine true 64 (mkMetaData (-1) 1) (Some 4160))
                    ltac:(discriminate) eq_refl ltac:(simpl; lia) eq_refl eq_refl
                    ltac:(intros j Hj; lia))
                 (or_introl eq_refl) 1 eq_refl).
    unfold INT_MIN, INT_MAX. lia.
Defined.

Lemma lookup_miss_iff_no_match_witness :
  (config (two_way_4x64 lru_RP) <> direct_mapped /\
   at_index (cacheLine (two_way_4x64 lru_RP)) 1 = Some [fresh_line; fresh_line] /\
   length [fresh_line; fresh_line] = Z.to_nat (numberOfLinesPerSet (two_way_4x64 lru_RP))) /\
  GetWay 64 1 (two_way_4x64 lru_RP) = Ok (-1, two_way_4x64 lru_RP).
Proof.
  split.
  - repeat split; try discriminate; reflexivity.
  - apply (proj1 (lookup_miss_iff_no_match 64 1 (two_way_4x64 lru_RP)
                    [fresh_line; fresh_line] ltac:(discriminate) eq_refl eq_refl)).
    intros [|[|j]] l Hl; simpl in Hl; try discriminate; now injection Hl as <-.
Defined.

(** * The miss of an associative lookup and line -1 *)

Lemma load_line_minus_one setIndex c s :
  at_index (cacheLine c) setIndex = Some s ->
  load_line setIndex (-1) c = Undefined (LineOutOfBounds setIndex (-1)).
Proof.
  intros Hs. unfold load_line.
  rewrite (bind_eq _ _ c s c) by now apply load_set_Ok.
  now rewrite at_index_negative by lia.
Qed.

(** C9: in every configuration other than direct-mapped, for an address
    that no way of its set holds, [GetWay] returns -1, and then
    [clEnqueueReadCacheBuffer], and [clCreateCacheBuffer] when
    [CL_MEM_COPY_HOST_PTR] is set, read [cacheLine[set][-1]] before any test
    of the way against -1: the access is outside the lines of the set and
    the call is undefined. *)
Theorem miss_reads_line_minus_one env hostAddress c s :
  config c <> direct_mapped ->
  at_index (cacheLine c) (GetIndex (indexBitMask c) (addressBitShift c) hostAddress) = Some s ->
  length s = Z.to_nat (numberOfLinesPerSet c) ->
  (forall j l, s !! j = Some l -> holds hostAddress l = false) ->
  GetWay hostAddress (GetIndex (indexBitMask c) (addressBitShift c) hostAddress) c
    = Ok (-1, c) /\
  at_index s (-1) = None /\
  (forall blocking_read offset size,
     clEnqueueReadCacheBuffer env blocking_read offset size hostAddress c =
     Undefined (LineOutOfBounds
                  (GetIndex (indexBitMask c) (addressBitShift c) hostAddress) (-1))) /\
  (forall flags size,
     has_flag flags CL_MEM_COPY_HOST_PTR = true ->
     clCreateCacheBuffer env flags size hostAddress c =
     Undefined (LineOutOfBounds
                  (GetIndex (indexBitMask c) (addressBitShift c) hostAddress) (-1))).
Proof.
  intros Hc Hs Hlen Hno.
  set (setIndex := GetIndex (indexBitMask c) (addressBitShift c) hostAddress) in *.
  assert (Hmiss : GetWay hostAddress setIndex c = Ok (-1, c)).
  { rewrite (GetWay_associative _ _ _ _ Hc Hs), <- Hlen.
    apply (GetWay_scan_miss hostAddress setIndex c s Hs _ 0%nat).
    intros j Hj. destruct (lookup_lt_is_Some_2 s j) as [l Hl]; [lia|].
    exists l. split; [exact Hl | eapply Hno, Hl]. }
  pose proof (load_line_minus_one _ _ _ Hs) as Hload.
  split; [exact Hmiss|]. split; [apply at_index_negative; lia|]. split.
  - intros blocking_read offset size. unfold clEnqueueReadCacheBuffer.
    rewrite (bind_eq _ _ c (indexBitMask c) c) by reflexivity.
    rewrite (bind_eq _ _ c (addressBitShift c) c) by reflexivity.
    fold setIndex. rewrite (bind_eq _ _ _ _ _ Hmiss).
    now apply bind_undefined.
  - intros flags size Hflag. unfold clCreateCacheBuffer.
    rewrite (bind_eq _ _ c (indexBitMask c) c) by reflexivity.
    rewrite (bind_eq _ _ c (addressBitShift c) c) by reflexivity.
    fold setIndex. rewrite (bind_eq _ _ _ _ _ Hmiss). rewrite Hflag.
    apply bind_undefined. now apply bind_undefined.
Qed.

Lemma miss_reads_line_minus_one_witness :
  (config (two_way_4x64 lru_RP) <> direct_mapped /\
   at_index (cacheLine (two_way_4x64 lru_RP)) (GetIndex 1 6 64) =
     Some [fresh_line; fresh_line] /\
   length [fresh_line; fresh_line] = Z.to_nat (numberOfLinesPerSet (two_way_4x64 lru_RP))) /\
  clEnqueueReadCacheBuffer runtime_ok 1 0 64 64 (two_way_4x64 lru_RP) =
    Undefined (LineOutOfBounds 1 (-1)) /\
  clCreateCacheBuffer runtime_ok 33 64 64 (two_way_4x64 lru_RP) =
    Undefined (LineOutOfBounds 1 (-1)).
Proof.
  split.
  - repeat split; try discriminate; reflexivity.
  - pose proof (miss_reads_line_minus_one runtime_ok 64 (two_way_4x64 lru_RP)
                  [fresh_line; fresh_line] ltac:(discriminate) eq_refl eq_refl) as H.
    destruct H as (_ & _ & Hread & Hcreate).
    + intros [|[|j]] l Hl; simpl in Hl; try discriminate; now injection Hl as <-.
    + split; [apply (Hread 1 0 64) | apply (Hcreate 33 64 eq_refl)].
Defined.

(** * Direct-mapped caches *)

Lemma policy_blind_ret {A} (a : A) : policy_blind (ret a).
Proof. now intros p r c. Qed.

Lemma policy_blind_undefined {A} f : policy_blind (@undefined A f).
Proof. now intros p r c. Qed.

Lemma policy_blind_bind {A B} (m : M A) (k : A -> M B) :
  policy_blind m -> (forall a, policy_blind (k a)) -> policy_blind (bind m k).
Proof.
  intros Hm Hk p r c. unfold bind. rewrite Hm.
  destruct (m c) as [[a c1]|f]; simpl; [apply Hk | reflexivity].
Qed.

Lemma policy_blind_gets {A} (field : Cache_t -> A) :
  (forall p r c, field (with_policy p (with_replacementLine r c)) = field c) ->
  policy_blind (gets field).
Proof. intros Hf p r c. unfold gets. simpl. now rewrite Hf. Qed.

Lemma policy_blind_modify (f : Cache_t -> Cache_t) :
  (forall p r c, f (with_policy p (with_replacementLine r c)) =
                 with_policy p (with_replacementLine r (f c))) ->
  policy_blind (modify f).
Proof. intros Hf p r c. unfold modify. simpl. now rewrite Hf. Qed.

Lemma policy_blind_int_add a b : policy_blind (int_add a b).
Proof.
  unfold int_add. destruct (in_int (a + b));
    [apply policy_blind_ret | apply policy_blind_undefined].
Qed.

Lemma policy_blind_load_set setIndex : policy_blind (load_set setIndex).
Proof.
  intros p r c. unfold load_set. simpl.
  now destruct (at_index (cacheLine c) setIndex).
Qed.

Lemma policy_blind_load_line setIndex way : policy_blind (load_line setIndex way).
Proof.
  unfold load_line. apply policy_blind_bind; [apply policy_blind_load_set|].
  intros s. destruct (at_index s way);
    [apply policy_blind_ret | apply policy_blind_undefined].
Qed.

Lemma policy_blind_store_line setIndex way g : policy_blind (store_line setIndex way g).
Proof.
  unfold store_line.
  apply policy_blind_bind; [apply policy_blind_load_line | intros l].
  apply policy_blind_bind; [apply policy_blind_load_set | intros s].
  now apply policy_blind_modify.
Qed.

Lemma policy_blind_increment field update :
  (forall p r c, field (with_policy p (with_replacementLine r c)) = field c) ->
  (forall v p r c, update v (with_policy p (with_replacementLine r c)) =
                   with_policy p (with_replacementLine r (update v c))) ->
  policy_blind (increment field update).
Proof.
  intros Hf Hu. unfold increment.
  apply policy_blind_bind; [now apply policy_blind_gets | intros v].
  apply policy_blind_bind; [apply policy_blind_int_add | intros v'].
  apply policy_blind_modify. intros p r c. apply Hu.
Qed.

Ltac blind_step :=
  first
    [ apply policy_blind_ret | apply policy_blind_undefined
    | apply policy_blind_load_line | apply policy_blind_load_set
    | apply policy_blind_store_line
    | apply policy_blind_increment; [reflexivity | reflexivity]
    | apply policy_blind_gets; reflexivity
    | apply policy_blind_bind; [| intros ?]
    | match goal with
      | |- policy_blind (if ?b then _ else _) => destruct b
      | |- policy_blind (let '(_, _) := ?x in _) => destruct x
      | |- policy_blind (let _ := _ in _) => cbv zeta
      end ].

(** Lines 212-234 of [clCreateCacheBuffer] once the way is known to be 0. *)
Lemma clCreateCacheBuffer_rest_blind env flags hostAddress setIndex :
  policy_blind
    (present <-
       (if has_flag flags CL_MEM_COPY_HOST_PTR then
          l <- load_line setIndex 0 ;;
          ret (valid l && (tag l =? hostAddress))
        else ret false) ;;
     if present then
       l <- load_line setIndex 0 ;;
       ret (mkCreated (deviceData l) None [])
     else
       way <- ret 0 ;;
       size' <- gets dataSize ;;
       let flags' :=
         if hostAddress =? NULL then flags else Z.lor flags CL_MEM_COPY_HOST_PTR in
       let '(mem, err) := clCreateBuffer env flags' size' hostAddress in
       store_line setIndex way (set_deviceData mem) ;;;
       increment memCopies with_memCopies ;;;
       (if has_flag flags CL_MEM_COPY_HOST_PTR
        then increment WriteTransfers with_WriteTransfers else ret tt) ;;;
       store_line setIndex way (set_tag hostAddress) ;;;
       store_line setIndex way (set_valid true) ;;;
       l <- load_line setIndex way ;;
       ret (mkCreated (deviceData l) (Some err) [CreateBuffer flags' size' hostAddress])).
Proof. repeat blind_step. Qed.

Lemma clCreateCacheBuffer_repolicy env env' flags size hostAddress c p r :
  config c = direct_mapped ->
  clCreateBuffer env' = clCreateBuffer env ->
  clCreateCacheBuffer env' flags size hostAddress (with_policy p (with_replacementLine r c)) =
  repolicy p r (clCreateCacheBuffer env flags size hostAddress c).
Proof.
  intros Hc Henv. unfold clCreateCacheBuffer. rewrite Henv.
  rewrite (bind_eq _ _ (with_policy p (with_replacementLine r c)) (indexBitMask c)
             (with_policy p (with_replacementLine r c))) by reflexivity.
  rewrite (bind_eq _ _ (with_policy p (with_replacementLine r c)) (addressBitShift c)
             (with_policy p (with_replacementLine r c))) by reflexivity.
  rewrite (bind_eq _ _ c (indexBitMask c) c) by reflexivity.
  rewrite (bind_eq _ _ c (addressBitShift c) c) by reflexivity.
  set (setIndex := GetIndex (indexBitMask c) (addressBitShift c) hostAddress).
  destruct (at_index (cacheLine c) setIndex) as [s|] eqn:Hs.
  - assert (H0 : GetWay hostAddress setIndex c = Ok (0, c))
      by exact (GetWay_direct_mapped _ _ _ _ Hc Hs).
    assert (H1 : GetWay hostAddress setIndex (with_policy p (with_replacementLine r c)) =
                 Ok (0, with_policy p (with_replacementLine r c)))
      by exact (GetWay_direct_mapped _ _ (with_policy p (with_replacementLine r c)) s Hc Hs).
    rewrite (bind_eq _ _ _ _ _ H1), (bind_eq _ _ _ _ _ H0).
    exact (clCreateCacheBuffer_rest_blind env flags hostAddress setIndex p r c).
  - assert (H0 : forall c', cacheLine c' = cacheLine c ->
                 GetWay hostAddress setIndex c' = Undefined (SetOutOfBounds setIndex)).
    { intros c' Hc'. unfold GetWay, bind, gets, load_set. now rewrite Hc', Hs. }
    rewrite (bind_undefined _ _ _ _ (H0 (with_policy p (with_replacementLine r c)) eq_refl)).
    now rewrite (bind_undefined _ _ _ _ (H0 c eq_refl)).
Qed.

Lemma count_create_fields flags c :
  cacheLine (count_create flags c) = cacheLine c /\
  replacementLine (count_create flags c) = replacementLine c /\
  policy (count_create flags c) = policy c /\
  ReadTransfers (count_create flags c) = ReadTransfers c /\
  memCopies (count_create flags c) = memCopies c + 1 /\
  WriteTransfers (count_create flags c) =
    WriteTransfers c + (if has_flag flags CL_MEM_COPY_HOST_PTR then 1 else 0).
Proof.
  unfold count_create. destruct (has_flag flags CL_MEM_COPY_HOST_PTR); simpl;
    repeat split; lia.
Qed.

(** C10: in a direct-mapped cache, [GetWay] returns way 0 for every address
    and never -1, and leaves the cache as it is; so [clCreateCacheBuffer]
    never reaches [SetWay]: it writes neither the policy nor a cursor, a
    transfer overwrites way 0 of the indexed set, and its outcome is the same
    whatever the policy and the cursors (and the value of [rand()]) are. *)
Theorem direct_mapped_bypasses_replacement env flags size hostAddress c :
  config c = direct_mapped ->
  (forall setIndex s,
     at_index (cacheLine c) setIndex = Some s ->
     GetWay hostAddress setIndex c = Ok (0, c)) /\
  (forall setIndex w c',
     GetWay hostAddress setIndex c = Ok (w, c') -> w = 0 /\ c' = c) /\
  (forall res c',
     clCreateCacheBuffer env flags size hostAddress c = Ok (res, c') ->
     replacementLine c' = replacementLine c /\ policy c' = policy c /\
     (create_calls res <> [] ->
      exists s l mem,
        at_index (cacheLine c)
          (GetIndex (indexBitMask c) (addressBitShift c) hostAddress) = Some s /\
        at_index s 0 = Some l /\ buffer res = Some mem /\
        cacheLine c' =
          <[Z.to_nat (GetIndex (indexBitMask c) (addressBitShift c) hostAddress) :=
              <[0%nat := populated hostAddress mem l]> s]> (cacheLine c))) /\
  (forall p r env',
     clCreateBuffer env' = clCreateBuffer env ->
     clCreateCacheBuffer env' flags size hostAddress
       (with_policy p (with_replacementLine r c)) =
     repolicy p r (clCreateCacheBuffer env flags size hostAddress c)).
Proof.
  intros Hc.
  assert (Hway : forall setIndex w c',
            GetWay hostAddress setIndex c = Ok (w, c') -> w = 0 /\ c' = c).
  { intros setIndex w c' H. destruct (GetWay_Ok_set _ _ _ _ _ H) as [s Hs].
    rewrite (GetWay_direct_mapped _ _ _ _ Hc Hs) in H. now injection H as <- <-. }
  split; [|split; [exact Hway | split]].
  - intros setIndex s Hs. exact (GetWay_direct_mapped _ _ _ _ Hc Hs).
  - intros res c' H.
    apply clCreateCacheBuffer_inv in H as (w & c1 & Hw & H).
    apply Hway in Hw as [-> ->].
    destruct H as [(_ & s & l & _ & _ & _ & -> & ->) |
                   (w' & c2 & s & l & Hset & Hs & Hl & -> & ->)].
    + repeat split. intros Hcalls. now contradiction Hcalls.
    + simpl in Hset. inv_ok Hset.
      destruct (count_create_fields flags c) as (_ & Hr & Hp & _).
      simpl. split; [exact Hr|]. split; [exact Hp|]. intros _.
      exists s, l. eexists. repeat split; eauto.
  - intros p r env' Henv. now apply clCreateCacheBuffer_repolicy.
Qed.

Lemma direct_mapped_bypasses_replacement_witness :
  config (direct_4x64 lru_RP) = direct_mapped /\
  GetWay 64 1 (direct_4x64 lru_RP) = Ok (0, direct_4x64 lru_RP) /\
  clCreateCacheBuffer runtime_failing 33 64 64
    (with_policy fifo_RP (with_replacementLine [3; 2; 1; 0] (direct_4x64 lru_RP))) =
  repolicy fifo_RP [3; 2; 1; 0]
    (clCreateCacheBuffer runtime_failing 33 64 64 (direct_4x64 lru_RP)).
Proof.
  split; [reflexivity|].
  destruct (direct_mapped_bypasses_replacement runtime_failing 33 64 64
              (direct_4x64 lru_RP) eq_refl) as (Hway & _ & _ & Hblind).
  split; [apply (Hway 1 [fresh_line] eq_refl) | apply (Hblind fifo_RP [3; 2; 1; 0]); reflexivity].
Defined.

(** * The resolution of a hit *)

Lemma GetWay_contents hostAddress setIndex :
  preserves (unchanged contents) (GetWay hostAddress setIndex).
Proof.
  apply preserves_GetWay; [typeclasses eauto | |].
  - apply contents_metadata_closed.
  - apply contents_cursor_closed.
Qed.

(** C1, as stated, fails.  (1) With a hit and no [CL_MEM_COPY_HOST_PTR] in
    the flags, [clCreateCacheBuffer] calls [clCreateBuffer] again and counts
    a transfer.  (2) With a hit and [CL_MEM_COPY_HOST_PTR] set, under
    [lru_RP] in a two-way cache and with [NULL] as the host address, no call
    is made but the lookup stamps the line: its [accessedOrder] goes from 1
    to 2. *)
Lemma resolve_hit_transfers_or_stamps :
  ((exists l, load_line 1 0 direct_lru_holding_64 = Ok (l, direct_lru_holding_64) /\
              holds 64 l = true) /\
   has_flag CL_MEM_READ_WRITE CL_MEM_COPY_HOST_PTR = false /\
   exists res c',
     clCreateCacheBuffer runtime_ok CL_MEM_READ_WRITE 64 64 direct_lru_holding_64 =
       Ok (res, c') /\
     create_calls res = [CreateBuffer 33 64 64] /\
     memCopies direct_lru_holding_64 = 1 /\ memCopies c' = 2) /\
  ((exists l, load_line 0 0 two_way_lru_holding_null = Ok (l, two_way_lru_holding_null) /\
              holds NULL l = true /\ accessedOrder (metaData l) = 1) /\
   has_flag 33 CL_MEM_COPY_HOST_PTR = true /\
   exists res c',
     clCreateCacheBuffer runtime_ok 33 64 NULL two_way_lru_holding_null = Ok (res, c') /\
     create_calls res = [] /\
     exists l', load_line 0 0 c' = Ok (l', c') /\ accessedOrder (metaData l') = 2).
Proof.
  split.
  - split; [eexists; split; reflexivity|]. split; [reflexivity|].
    eexists _, _. split; [vm_compute; reflexivity|]. repeat split.
  - split; [eexists; repeat split; reflexivity|]. split; [reflexivity|].
    eexists _, _. split; [vm_compute; reflexivity|]. split; [reflexivity|].
    eexists. split; reflexivity.
Qed.

(** C1 (amended): when the lookup reports a hit and [CL_MEM_COPY_HOST_PTR]
    is set in the flags (the caller does not force an overwrite),
    [clCreateCacheBuffer] returns the buffer of the line it found: it makes
    no call to the runtime and does not write [*errorcode_ret], no counter
    changes, and no line changes its valid flag, tag or buffer.  What may
    change is the bookkeeping of the lookup; nothing at all changes under
    [random_RP] or [fifo_RP], or in a direct-mapped cache. *)
Theorem resolve_hit_returns_line env flags size hostAddress c w c1 s l :
  GetWay hostAddress (GetIndex (indexBitMask c) (addressBitShift c) hostAddress) c
    = Ok (w, c1) ->
  at_index (cacheLine c1) (GetIndex (indexBitMask c) (addressBitShift c) hostAddress)
    = Some s ->
  at_index s w = Some l -> holds hostAddress l = true ->
  has_flag flags CL_MEM_COPY_HOST_PTR = true ->
  clCreateCacheBuffer env flags size hostAddress c =
    Ok (mkCreated (deviceData l) None [], c1) /\
  counters c1 = counters c /\ contents c1 = contents c /\
  (policy c = random_RP \/ policy c = fifo_RP \/ config c = direct_mapped -> c1 = c).
Proof.
  intros Hway Hs Hl Hh Hflag.
  set (setIndex := GetIndex (indexBitMask c) (addressBitShift c) hostAddress) in *.
  assert (Hload : load_line setIndex w c1 = Ok (l, c1))
    by (apply load_line_Ok; eauto).
  split; [|split; [|split]].
  - unfold clCreateCacheBuffer.
    rewrite (bind_eq _ _ c (indexBitMask c) c) by reflexivity.
    rewrite (bind_eq _ _ c (addressBitShift c) c) by reflexivity.
    fold setIndex. rewrite (bind_eq _ _ _ _ _ Hway). rewrite Hflag.
    rewrite (bind_eq _ _ c1 (holds hostAddress l) c1)
      by (rewrite (bind_eq _ _ _ _ _ Hload); reflexivity).
    rewrite Hh. now rewrite (bind_eq _ _ _ _ _ Hload).
  - exact (GetWay_counters _ _ _ _ _ Hway).
  - exact (GetWay_contents _ _ _ _ _ Hway).
  - intros [Hp | [Hp | Hc]].
    + eapply GetWay_no_bookkeeping; [left; exact Hp | exact Hway].
    + eapply GetWay_no_bookkeeping; [right; exact Hp | exact Hway].
    + destruct (GetWay_Ok_set _ _ _ _ _ Hway) as [s' Hs'].
      rewrite (GetWay_direct_mapped _ _ _ _ Hc Hs') in Hway. now injection Hway.
Qed.

Lemma resolve_hit_returns_line_witness :
  (GetWay 64 (GetIndex 3 6 64) direct_lru_holding_64 = Ok (0, direct_lru_holding_64) /\
   at_index (cacheLine direct_lru_holding_64) (GetIndex 3 6 64) =
     Some [mkCacheLine true 64 (mkMetaData (-1) 0) (Some 4160)] /\
   holds 64 (mkCacheLine true 64 (mkMetaData (-1) 0) (Some 4160)) = true /\
   has_flag 33 CL_MEM_COPY_HOST_PTR = true) /\
  clCreateCacheBuffer runtime_ok 33 64 64 direct_lru_holding_64 =
    Ok (mkCreated (Some 4160) None [], direct_lru_holding_64).
Proof.
  split; [repeat split|].
  apply (resolve_hit_returns_line runtime_ok 33 64 64 direct_lru_holding_64 0
           direct_lru_holding_64
           [mkCacheLine true 64 (mkMetaData (-1) 0) (Some 4160)]
           (mkCacheLine true 64 (mkMetaData (-1) 0) (Some 4160))
           eq_refl eq_refl eq_refl eq_refl eq_refl).
Defined.

(** * A failing runtime call *)

Lemma GetWay_dataSize hostAddress setIndex :
  preserves (unchanged dataSize) (GetWay hostAddress setIndex).
Proof.
  apply preserves_GetWay; [typeclasses eauto | |].
  - now apply field_metadata_closed.
  - now apply field_cursor_closed.
Qed.

Lemma SetWay_dataSize env setIndex :
  preserves (unchanged dataSize) (SetWay env setIndex).
Proof.
  apply preserves_SetWay; [typeclasses eauto | |].
  - now apply field_metadata_closed.
  - now apply field_cursor_closed.
Qed.

(** C2, as stated, fails.  (1) [clCreateBuffer] fails with
    [CL_OUT_OF_RESOURCES] in a [clCreateCacheBuffer] on the fresh
    direct-mapped cache: the code reaches the caller, and yet the line is
    made valid with the new tag and the [NULL] buffer, and [memCopies] and
    [WriteTransfers] go from 0 to 1.  (2) [clEnqueueReadBuffer] fails in a
    [clEnqueueReadCacheBuffer] on a cached address: [memCopies] and
    [ReadTransfers] go up by 1 (and the function returns 0). *)
Lemma failed_call_changes_the_cache :
  (snd (clCreateBuffer runtime_failing 33 64 64) <> CL_SUCCESS /\
   exists res c',
     clCreateCacheBuffer runtime_failing 33 64 64 (direct_4x64 random_RP) = Ok (res, c') /\
     errorcode_ret res = Some CL_OUT_OF_RESOURCES /\
     load_line 1 0 (direct_4x64 random_RP) = Ok (fresh_line, direct_4x64 random_RP) /\
     load_line 1 0 c' = Ok (mkCacheLine true 64 (mkMetaData (-1) 0) (Some NULL), c') /\
     counters (direct_4x64 random_RP) = (0, 0, 0) /\ counters c' = (1, 0, 1)) /\
  (clEnqueueReadBuffer runtime_failing (Some 4160) 1 0 64 64 <> CL_SUCCESS /\
   exists res c',
     clEnqueueReadCacheBuffer runtime_failing 1 0 64 64 direct_lru_holding_64 =
       Ok (res, c') /\
     read_calls res = [ReadBuffer (Some 4160) 1 0 64 64] /\ status res = 0 /\
     counters direct_lru_holding_64 = (1, 0, 1) /\ counters c' = (2, 1, 1)).
Proof.
  split.
  - split; [discriminate|]. eexists _, _. split; [vm_compute; reflexivity|].
    repeat split.
  - split; [discriminate|]. eexists _, _. split; [vm_compute; reflexivity|].
    repeat split.
Qed.

(** C2 (amended): whatever the runtime call returns, in particular when it
    fails, the calls count and record it as they do a success.  A
    [clCreateCacheBuffer] that calls [clCreateBuffer] hands its result and
    its error code to the caller, adds 1 to [memCopies] (and to
    [WriteTransfers] when [CL_MEM_COPY_HOST_PTR] is set) and leaves a line of
    the indexed set valid, with the address as its tag and the result as its
    buffer.  A [clEnqueueReadCacheBuffer] that calls [clEnqueueReadBuffer]
    adds 1 to [memCopies] and to [ReadTransfers] and changes no line's valid
    flag, tag or buffer. *)
Theorem runtime_failure_is_counted env hostAddress c :
  (forall flags size res c',
     clCreateCacheBuffer env flags size hostAddress c = Ok (res, c') ->
     create_calls res <> [] ->
     res = mkCreated
             (Some (fst (clCreateBuffer env (create_flags flags hostAddress)
                           (dataSize c) hostAddress)))
             (Some (snd (clCreateBuffer env (create_flags flags hostAddress)
                           (dataSize c) hostAddress)))
             [CreateBuffer (create_flags flags hostAddress) (dataSize c) hostAddress] /\
     memCopies c' = memCopies c + 1 /\
     WriteTransfers c' =
       WriteTransfers c + (if has_flag flags CL_MEM_COPY_HOST_PTR then 1 else 0) /\
     ReadTransfers c' = ReadTransfers c /\
     exists way l,
       load_line (GetIndex (indexBitMask c) (addressBitShift c) hostAddress) way c'
         = Ok (l, c') /\
       valid l = true /\ tag l = hostAddress /\ deviceData l = buffer res) /\
  (forall blocking_read offset size res c',
     clEnqueueReadCacheBuffer env blocking_read offset size hostAddress c = Ok (res, c') ->
     read_calls res <> [] ->
     memCopies c' = memCopies c + 1 /\ ReadTransfers c' = ReadTransfers c + 1 /\
     WriteTransfers c' = WriteTransfers c /\ contents c' = contents c).
Proof.
  split.
  - intros flags size res c' H Hcalls.
    pose proof (clCreateCacheBuffer_counters _ _ _ _ _ _ _ H)
      as [Hr [(Hnil & _) | (_ & Hm & Hw)]]; [contradiction|].
    apply clCreateCacheBuffer_inv in H as (w & c1 & Hway & H).
    destruct H as [(_ & s & l & _ & _ & _ & -> & ->) |
                   (w' & c2 & s & l & Hset & Hs & Hl & -> & ->)];
      [now contradiction Hcalls|].
    assert (Hd : dataSize c2 = dataSize c).
    { apply GetWay_dataSize in Hway. unfold unchanged in Hway. rewrite <- Hway.
      destruct (w =? -1).
      - now apply SetWay_dataSize in Hset.
      - now inv_ok Hset. }
    rewrite Hd. simpl. repeat split; auto.
    exists w'. eexists. split.
    + apply load_line_Ok. eexists. simpl. split; [|split; [|reflexivity]].
      * eapply at_index_insert_eq, Hs.
      * eapply at_index_insert_eq, Hl.
    + repeat split.
  - intros blocking_read offset size res c' H Hcalls.
    pose proof (clEnqueueReadCacheBuffer_counters _ _ _ _ _ _ _ _ H)
      as [Hw [(_ & Hnil & _) | (_ & _ & Hm & Hr)]]; [contradiction|].
    repeat split; auto.
    apply clEnqueueReadCacheBuffer_inv in H as (w & c1 & s & l & Hway & _ & _ & H).
    apply GetWay_contents in Hway.
    destruct H as [(_ & _ & ->) | (_ & _ & ->)]; exact Hway.
Qed.

(** * Reachable caches

    The caches that [CreateCache] returns and the calls reach keep their
    geometry: the hypotheses of the theorems above on the length of a set
    and, under FIFO, on the range of a cursor hold in all of them. *)

Lemma shape_metadata_closed : metadata_closed (unchanged shape).
Proof.
  intros c setIndex way v s l Hs Hl. unfold unchanged, shape. simpl.
  apply at_index_Some in Hs as [_ Hs].
  f_equal. f_equal. f_equal.
  change (map length) with (fmap (M:=list) (length (A:=CacheLine_t))).
  rewrite list_fmap_insert, length_insert. apply list_insert_id.
  now rewrite list_lookup_fmap, Hs.
Qed.

Lemma shape_cursor_closed : cursor_closed (unchanged shape).
Proof.
  intros c setIndex v. unfold unchanged, shape. simpl. now rewrite length_insert.
Qed.

Lemma GetWay_shape hostAddress setIndex :
  preserves (unchanged shape) (GetWay hostAddress setIndex).
Proof.
  apply preserves_GetWay;
    [typeclasses eauto | apply shape_metadata_closed | apply shape_cursor_closed].
Qed.

Lemma SetWay_shape env setIndex : preserves (unchanged shape) (SetWay env setIndex).
Proof.
  apply preserves_SetWay;
    [typeclasses eauto | apply shape_metadata_closed | apply shape_cursor_closed].
Qed.

Lemma clCreateCacheBuffer_shape env flags size hostAddress :
  preserves (unchanged shape) (clCreateCacheBuffer env flags size hostAddress).
Proof.
  intros c res c' H.
  apply clCreateCacheBuffer_inv in H as (w & c1 & Hway & H).
  apply GetWay_shape in Hway.
  destruct H as [(_ & s & l & _ & _ & _ & _ & ->) |
                 (w' & c2 & s & l & Hset & Hs & Hl & _ & ->)]; [exact Hway|].
  assert (H12 : unchanged shape c1 c2).
  { destruct (w =? -1); [eapply SetWay_shape, Hset | inv_ok Hset; reflexivity]. }
  transitivity c2; [transitivity c1; assumption|].
  unfold unchanged, shape, count_create. apply at_index_Some in Hs as [_ Hs].
  destruct (has_flag flags CL_MEM_COPY_HOST_PTR); simpl;
    (f_equal; f_equal; f_equal;
     change (map length) with (fmap (M:=list) (length (A:=CacheLine_t)));
     rewrite list_fmap_insert, length_insert; apply list_insert_id;
     now rewrite list_lookup_fmap, Hs).
Qed.

Lemma clEnqueueReadCacheBuffer_shape env blocking_read offset size hostAddress :
  preserves (unchanged shape)
    (clEnqueueReadCacheBuffer env blocking_read offset size hostAddress).
Proof.
  intros c res c' H.
  apply clEnqueueReadCacheBuffer_inv in H as (w & c1 & s & l & Hway & _ & _ & H).
  apply GetWay_shape in Hway.
  destruct H as [(_ & _ & ->) | (_ & _ & ->)]; exact Hway.
Qed.

Lemma run_shape ops : preserves (unchanged shape) (run ops).
Proof.
  induction ops as [|[env op] ops IH]; simpl.
  - apply preserves_ret. typeclasses eauto.
  - apply preserves_bind; [typeclasses eauto | | intros _; exact IH].
    destruct op; simpl;
      (apply preserves_bind;
       [typeclasses eauto | | intros _; apply preserves_ret; typeclasses eauto]).
    + apply clCreateCacheBuffer_shape.
    + apply clEnqueueReadCacheBuffer_shape.
Qed.

Lemma well_formed_shape c c' : unchanged shape c c' -> well_formed c -> well_formed c'.
Proof.
  unfold unchanged, shape, well_formed. intros [= Hl Hr Hn _ _ _ _ _ _ _] [H1 H2].
  rewrite Hn, Hl, Hr.
  split; [|exact H2].
  rewrite H1. rewrite <- (length_map length (cacheLine c')), Hl.
  symmetry. apply length_map.
Qed.

Lemma CreateCache_well_formed numberOfCacheLines d tagSize' config' policy' c :
  CreateCache numberOfCacheLines d tagSize' config' policy' = Ok c ->
  well_formed c /\
  replacementLine c = replicate (length (cacheLine c)) 0.
Proof.
  unfold CreateCache. intros H.
  apply result_bind_Ok in H as ([[sets lines] width] & _ & H).
  apply result_bind_Ok in H as (cacheSize & _ & H).
  apply result_bind_Ok in H as (shift & _ & H).
  apply result_bind_Ok in H as (mask & _ & H).
  injection H as <-. unfold well_formed. simpl.
  rewrite !length_replicate. repeat split.
  induction (Z.to_nat sets) as [|k IH]; simpl; constructor; [|exact IH].
  apply length_replicate.
Qed.

(** In every cache reached from [CreateCache], a set that exists has
    [numberOfLinesPerSet] lines and a cursor. *)
Lemma reachable_well_formed numberOfCacheLines d tagSize' config' policy' c0 ops u c :
  CreateCache numberOfCacheLines d tagSize' config' policy' = Ok c0 ->
  run ops c0 = Ok (u, c) ->
  forall setIndex s,
    at_index (cacheLine c) setIndex = Some s ->
    length s = Z.to_nat (numberOfLinesPerSet c) /\
    exists cur, at_index (replacementLine c) setIndex = Some cur.
Proof.
  intros Hcreate Hrun setIndex s Hs.
  apply CreateCache_well_formed in Hcreate as [Hwf _].
  apply run_shape in Hrun. apply (well_formed_shape _ _ Hrun) in Hwf as [Hlen Hall].
  apply at_index_Some in Hs as [Hnn Hs]. split.
  - eapply (Forall_lookup_1 _ _ (Z.to_nat setIndex)) in Hall; [exact Hall|].
    change (map length) with (fmap (M:=list) (length (A:=CacheLine_t))).
    now rewrite list_lookup_fmap, Hs.
  - destruct (lookup_lt_is_Some_2 (replacementLine c) (Z.to_nat setIndex)) as [cur Hcur].
    + rewrite Hlen. eapply lookup_lt_Some, Hs.
    + exists cur. now apply at_index_Some.
Qed.

Lemma int_rem_Ok a b c v c' :
  int_rem a b c = Ok (v, c') <-> b <> 0 /\ v = Z.rem a b /\ c' = c.
Proof.
  unfold int_rem, ret, undefined. destruct (Z.eqb_spec b 0); split.
  - discriminate.
  - intros [Hb _]. contradiction.
  - intros [= <- <-]. auto.
  - intros (_ & -> & ->). reflexivity.
Qed.

Lemma SetWay_fifo_inv env setIndex c w c' :
  policy c = fifo_RP -> SetWay env setIndex c = Ok (w, c') ->
  exists cur,
    at_index (replacementLine c) setIndex = Some cur /\
    numberOfLinesPerSet c <> 0 /\
    w = Z.rem (cur + 1) (numberOfLinesPerSet c) /\
    c' = with_replacementLine
           (<[Z.to_nat setIndex := Z.rem (cur + 1) (numberOfLinesPerSet c)]>
              (replacementLine c)) c.
Proof.
  intros Hp H. unfold SetWay in H.
  apply bind_Ok in H as (n & c0 & Hn & H). inv_ok Hn.
  apply bind_Ok in H as (s & c0 & Hs & H). apply load_set_Ok in Hs as [_ ->].
  apply bind_Ok in H as (p & c0 & Hp' & H). inv_ok Hp'. rewrite Hp in H.
  apply bind_Ok in H as (cur & c0 & Hcur & H). apply load_cursor_Ok in Hcur as [Hcur ->].
  apply bind_Ok in H as (next & c0 & Hnext & H).
  apply int_add_Ok in Hnext as [-> [_ ->]].
  apply bind_Ok in H as (next' & c0 & Hrem & H).
  apply int_rem_Ok in Hrem as (Hnz & -> & ->).
  apply bind_Ok in H as (u & c1 & Hstore & H).
  apply store_cursor_Ok in Hstore as [_ ->].
  apply load_cursor_Ok in H as [H ->].
  simpl in H. rewrite (at_index_insert_eq _ _ _ _ Hcur) in H. injection H as <-.
  exists cur. auto.
Qed.

Lemma step_shape env op : preserves (unchanged shape) (step env op).
Proof.
  destruct op; simpl;
    (apply preserves_bind;
     [typeclasses eauto | | intros _; apply preserves_ret; typeclasses eauto]).
  - apply clCreateCacheBuffer_shape.
  - apply clEnqueueReadCacheBuffer_shape.
Qed.

Lemma shape_policy c c' :
  unchanged shape c c' ->
  policy c' = policy c /\ numberOfLinesPerSet c' = numberOfLinesPerSet c.
Proof. unfold unchanged, shape. intros [= _ _ Hn _ _ Hp _ _ _ _]. auto. Qed.

Lemma step_cursors_in_range env op c u c' :
  policy c = fifo_RP -> cursors_in_range c ->
  step env op c = Ok (u, c') -> cursors_in_range c'.
Proof.
  intros Hp Hin H. destruct op; simpl in H;
    apply bind_Ok in H as (res & c3 & H & Hret); inv_ok Hret.
  - apply clCreateCacheBuffer_inv in H as (w & c1 & Hway & H).
    apply GetWay_no_bookkeeping in Hway; [subst c1 | now right].
    destruct H as [(_ & s & l & _ & _ & _ & _ & ->) |
                   (w' & c2 & s & l & Hset & _ & _ & _ & ->)]; [exact Hin|].
    assert (Hin2 : cursors_in_range c2).
    { destruct (w =? -1); [|now inv_ok Hset].
      apply SetWay_fifo_inv in Hset as (cur & Hcur & Hnz & _ & ->); [|exact Hp].
      unfold cursors_in_range in *. simpl. apply Forall_insert; [exact Hin|].
      apply at_index_Some in Hcur as [_ Hcur].
      apply (Forall_lookup_1 _ _ _ _ Hin) in Hcur.
      apply Z.rem_bound_pos; lia. }
    unfold cursors_in_range, count_create in *.
    now destruct (has_flag flags CL_MEM_COPY_HOST_PTR).
  - apply clEnqueueReadCacheBuffer_inv in H as (w & c1 & s & l & Hway & _ & _ & H).
    apply GetWay_no_bookkeeping in Hway; [subst c1 | now right].
    destruct H as [(_ & _ & ->) | (_ & _ & ->)]; exact Hin.
Qed.

Lemma run_cursors_in_range ops c u c' :
  policy c = fifo_RP -> cursors_in_range c ->
  run ops c = Ok (u, c') -> cursors_in_range c'.
Proof.
  revert c. induction ops as [|[env op] ops IH]; intros c Hp Hin H; simpl in H.
  - now inv_ok H.
  - apply bind_Ok in H as (u1 & c1 & Hstep & H).
    eapply IH; [| |exact H].
    + apply step_shape, shape_policy in Hstep as [-> _]. exact Hp.
    + eapply step_cursors_in_range; eassumption.
Qed.

Lemma CreateCache_linesPerSet numberOfCacheLines d tagSize' config' policy' c :
  CreateCache numberOfCacheLines d tagSize' config' policy' = Ok c ->
  numberOfLinesPerSet c = linesPerSet config' numberOfCacheLines.
Proof.
  unfold CreateCache. intros H.
  apply result_bind_Ok in H as ([[sets lines] width] & Hgeometry & H).
  apply result_bind_Ok in H as (cacheSize & _ & H).
  apply result_bind_Ok in H as (shift & _ & H).
  apply result_bind_Ok in H as (mask & _ & H).
  injection H as <-. simpl.
  destruct config'; simpl in *;
    try (apply result_bind_Ok in Hgeometry as (w & _ & Hgeometry));
    now injection Hgeometry as _ <- _.
Qed.

(** In every FIFO cache reached from [CreateCache] with at least one line,
    every cursor lies in [0, numberOfLinesPerSet), below [INT_MAX]. *)
Lemma reachable_fifo_cursor numberOfCacheLines d tagSize' config' c0 ops u c :
  1 <= numberOfCacheLines <= INT_MAX ->
  CreateCache numberOfCacheLines d tagSize' config' fifo_RP = Ok c0 ->
  run ops c0 = Ok (u, c) ->
  policy c = fifo_RP /\ 0 < numberOfLinesPerSet c /\
  forall setIndex cur,
    at_index (replacementLine c) setIndex = Some cur -> 0 <= cur < INT_MAX.
Proof.
  intros Hn Hcreate Hrun.
  pose proof (CreateCache_linesPerSet _ _ _ _ _ _ Hcreate) as Hlines.
  pose proof (CreateCache_fields _ _ _ _ _ _ Hcreate) as (_ & _ & Hp & _).
  pose proof (CreateCache_well_formed _ _ _ _ _ _ Hcreate) as [_ Hcursors].
  assert (Hpos : 0 < numberOfLinesPerSet c0 <= INT_MAX).
  { rewrite Hlines. unfold INT_MAX in *. destruct config'; simpl; lia. }
  assert (Hin : cursors_in_range c0).
  { unfold cursors_in_range. rewrite Hcursors.
    apply Forall_replicate. lia. }
  pose proof (run_cursors_in_range _ _ _ _ Hp Hin Hrun) as Hin'.
  apply run_shape, shape_policy in Hrun as [Hp' Hn'].
  split; [congruence|]. split; [lia|].
  intros setIndex cur Hcur. apply at_index_Some in Hcur as [_ Hcur].
  apply (Forall_lookup_1 _ _ _ _ Hin') in Hcur. lia.
Qed.

(** * Worked examples *)

(** A direct-mapped cache of four lines of 64 bytes: the addresses 0, 64,
    128 and 192 fill the four sets, 256 then takes the place of 0 in set 0;
    a read-back of 0 finds nothing and a read-back of 256 succeeds. *)
Example direct_mapped_collision :
  [GetIndex 3 6 0; GetIndex 3 6 64; GetIndex 3 6 128; GetIndex 3 6 192; GetIndex 3 6 256]
    = [0; 1; 2; 3; 0] /\
  exists c c',
    run [(runtime_ok, Resolve 33 64 0); (runtime_ok, Resolve 33 64 64);
         (runtime_ok, Resolve 33 64 128); (runtime_ok, Resolve 33 64 192);
         (runtime_ok, Resolve 33 64 256)] (direct_4x64 random_RP) = Ok (tt, c) /\
    counters c = (5, 0, 5) /\
    contents c = [[(true, 256, Some 4352)]; [(true, 64, Some 4160)];
                  [(true, 128, Some 4224)]; [(true, 192, Some 4288)]] /\
    clEnqueueReadCacheBuffer runtime_ok 1 0 64 0 c = Ok (mkReadBack 1 [], c) /\
    clEnqueueReadCacheBuffer runtime_ok 1 0 64 256 c =
      Ok (mkReadBack 0 [ReadBuffer (Some 4352) 1 0 64 256], c') /\
    counters c' = (6, 1, 5).
Proof.
  split; [reflexivity|]. eexists _, _.
  split; [vm_compute; reflexivity|]. split; [reflexivity|]. split; [reflexivity|].
  split; [reflexivity|]. split; [vm_compute; reflexivity | reflexivity].
Qed.

(** A two-way LRU cache: forced insertions (no [CL_MEM_COPY_HOST_PTR]) of
    64 and 192 fill set 1, a hit on 64 stamps it, and the insertion of 320
    then replaces 192, the way touched least recently. *)
Example lru_replaces_least_recent :
  exists c,
    run [(runtime_ok, Resolve 1 64 64); (runtime_ok, Resolve 1 64 192);
         (runtime_ok, Resolve 33 64 64); (runtime_ok, Resolve 1 64 320)]
      (two_way_4x64 lru_RP) = Ok (tt, c) /\
    at_index (contents c) 1 = Some [(true, 64, Some 4160); (true, 320, Some 4416)] /\
    replacementLine c = [0; 4].
Proof. eexists. split; [vm_compute; reflexivity|]. split; reflexivity. Qed.

(** * The index of an address *)

Lemma to_int_small v : INT_MIN <= v <= INT_MAX -> to_int v = v.
Proof.
  unfold to_int, INT_MIN, INT_MAX. intros H.
  rewrite Z.mod_small by lia. lia.
Qed.

Lemma GetIndex_eq w shift hostAddress :
  0 <= w <= 31 -> 0 <= shift ->
  GetIndex (2 ^ w - 1) shift hostAddress = (hostAddress / 2 ^ shift) mod 2 ^ w.
Proof.
  intros Hw Hs. unfold GetIndex.
  rewrite Z.shiftr_div_pow2 by lia.
  replace (2 ^ w - 1) with (Z.ones w) by (rewrite Z.ones_equiv; lia).
  rewrite Z.land_ones by lia.
  apply to_int_small.
  assert (0 < 2 ^ w) by (apply Z.pow_pos_nonneg; lia).
  assert (2 ^ w <= 2 ^ 31) by (apply Z.pow_le_mono_r; lia).
  pose proof (Z.mod_pos_bound (hostAddress / 2 ^ shift) (2 ^ w)).
  unfold INT_MIN, INT_MAX. lia.
Qed.

(** X1: with the mask [2^w - 1] that [CreateCache] computes, the index of an
    address is the number formed by the [w] bits above the lowest [shift]
    bits: it lies in [0, 2^w), the lowest [shift] bits of the address do not
    matter, and addresses [2^(shift+w)] apart share their index. *)
Theorem GetIndex_selects_bits w shift hostAddress :
  0 <= w <= 31 -> 0 <= shift ->
  GetIndex (2 ^ w - 1) shift hostAddress = (hostAddress / 2 ^ shift) mod 2 ^ w /\
  0 <= GetIndex (2 ^ w - 1) shift hostAddress < 2 ^ w /\
  (forall block offset,
     0 <= offset < 2 ^ shift ->
     GetIndex (2 ^ w - 1) shift (block * 2 ^ shift + offset) = block mod 2 ^ w) /\
  GetIndex (2 ^ w - 1) shift (hostAddress + 2 ^ (shift + w)) =
    GetIndex (2 ^ w - 1) shift hostAddress.
Proof.
  intros Hw Hs.
  assert (Hps : 0 < 2 ^ shift) by (apply Z.pow_pos_nonneg; lia).
  assert (Hpw : 0 < 2 ^ w) by (apply Z.pow_pos_nonneg; lia).
  rewrite !GetIndex_eq by lia.
  split; [reflexivity|]. split; [apply Z.mod_pos_bound; lia|]. split.
  - intros block offset Ho. rewrite GetIndex_eq by lia. f_equal.
    rewrite Z.add_comm, Z.div_add by lia.
    rewrite Z.div_small by lia. reflexivity.
  - rewrite Z.pow_add_r by lia.
    rewrite (Z.mul_comm (2 ^ shift)), Z.div_add by lia.
    rewrite <- (Z.mul_1_l (2 ^ w)) at 1.
    now rewrite Z.mod_add by lia.
Qed.

Lemma GetIndex_selects_bits_witness :
  (0 <= 2 <= 31 /\ 0 <= 6) /\
  GetIndex (2 ^ 2 - 1) 6 (256 + 2 ^ (6 + 2)) = GetIndex (2 ^ 2 - 1) 6 256.
Proof.
  split; [lia|].
  apply (GetIndex_selects_bits 2 6 256); lia.
Defined.

(** * The table that [CreateCache] builds *)

Lemma CreateCache_geometry numberOfCacheLines d tagSize' config' policy' c :
  CreateCache numberOfCacheLines d tagSize' config' policy' = Ok c ->
  numberOfLinesPerSet c = linesPerSet config' numberOfCacheLines /\
  numberOfSets c = setsOf config' numberOfCacheLines /\
  cacheLine c =
    replicate (Z.to_nat (numberOfSets c))
      (replicate (Z.to_nat (numberOfLinesPerSet c)) fresh_line) /\
  replacementLine c = replicate (Z.to_nat (numberOfSets c)) 0 /\
  match widthOf config' numberOfCacheLines with
  | Some w => 1 <= numberOfCacheLines /\ index_mask w = Ok (indexBitMask c)
  | None => indexBitMask c = 0
  end.
Proof.
  unfold CreateCache. intros H.
  apply result_bind_Ok in H as ([[sets lines] width] & Hgeometry & H).
  apply result_bind_Ok in H as (cacheSize & _ & H).
  apply result_bind_Ok in H as (shift & _ & H).
  apply result_bind_Ok in H as (mask & Hmask & H).
  injection H as <-. simpl.
  assert (Hlog : forall w, ceil_log2 numberOfCacheLines = Ok w ->
                 1 <= numberOfCacheLines /\ w = Z.log2_up numberOfCacheLines).
  { unfold ceil_log2. intros w. destruct (Z.leb_spec 1 numberOfCacheLines);
      [intros [= <-]; auto | discriminate]. }
  destruct config'; simpl in *;
    try (apply result_bind_Ok in Hgeometry as (w & Hw & Hgeometry);
         apply Hlog in Hw as [Hn ->]);
    injection Hgeometry as <- <- <-; repeat split; auto.
  now injection Hmask as <-.
Qed.

Lemma index_mask_eq w : 0 <= w <= 31 -> index_mask w = Ok (2 ^ w - 1).
Proof.
  intros Hw. unfold index_mask.
  destruct (Z.ltb_spec w 0); [lia|].
  assert (H31 : 2 ^ w <= 2 ^ 31) by (apply Z.pow_le_mono_r; lia).
  destruct (Z.leb_spec (2 ^ w - 1) INT_MAX); [reflexivity|].
  unfold INT_MAX in *. lia.
Qed.

Lemma addressBitShift_nonneg numberOfCacheLines d tagSize' config' policy' c :
  CreateCache numberOfCacheLines d tagSize' config' policy' = Ok c ->
  0 <= addressBitShift c.
Proof.
  intros H. apply CreateCache_fields in H as (_ & _ & _ & _ & _ & Hloop).
  destruct (Z.to_nat d) as [|n] eqn:Hd.
  - simpl in Hloop. injection Hloop as <-. lia.
  - apply bitshift_loop_sound in Hloop as [[Hle _] _];
      [exact Hle | lia | lia | apply Z.divide_1_l].
Qed.

(** X2: for a line count [2^k] that is at least the number of lines per
    set, [CreateCache] returns a table of [numberOfSets] sets of
    [numberOfLinesPerSet] empty lines with
    [numberOfSets * numberOfLinesPerSet = 2^k] and
    [indexBitMask = numberOfSets - 1], so that the index of every address is
    the index of a set of the table. *)
Theorem power_of_two_table k d tagSize' config' policy' :
  0 <= k <= 30 -> 0 <= d < 2 ^ 30 -> 2 ^ k * d <= INT_MAX ->
  linesPerSet config' (2 ^ k) <= 2 ^ k ->
  exists c,
    CreateCache (2 ^ k) d tagSize' config' policy' = Ok c /\
    numberOfSets c * numberOfLinesPerSet c = 2 ^ k /\
    indexBitMask c = numberOfSets c - 1 /\
    forall hostAddress,
      0 <= GetIndex (indexBitMask c) (addressBitShift c) hostAddress < numberOfSets c /\
      at_index (cacheLine c) (GetIndex (indexBitMask c) (addressBitShift c) hostAddress) =
        Some (replicate (Z.to_nat (numberOfLinesPerSet c)) fresh_line).
Proof.
  intros Hk Hd Hsize Hlines.
  assert (Hpos : 0 < 2 ^ k) by (apply Z.pow_pos_nonneg; lia).
  assert (Hmax : 2 ^ k <= 2 ^ 30) by (apply Z.pow_le_mono_r; lia).
  destruct (CreateCache_returns (2 ^ k) d tagSize' config' policy') as [c Hc];
    [unfold INT_MAX; lia | lia | lia |].
  exists c. split; [exact Hc|].
  pose proof (addressBitShift_nonneg _ _ _ _ _ _ Hc) as Hshift.
  apply CreateCache_geometry in Hc as (Hl & Hs & Htable & _ & Hmask).
  assert (Hgeo : exists w, 0 <= w <= 31 /\ numberOfSets c = 2 ^ w /\
                           indexBitMask c = 2 ^ w - 1 /\
                           numberOfSets c * numberOfLinesPerSet c = 2 ^ k).
  { rewrite Hl, Hs.
    destruct config'; cbn [widthOf linesPerSet setsOf] in *;
      rewrite ?Z.log2_up_pow2 in Hmask by lia.
    - exists k. destruct Hmask as [_ Hmask]. rewrite index_mask_eq in Hmask by lia.
      injection Hmask as <-. repeat split; lia.
    - assert (1 <= k) by (destruct (Z.eq_dec k 0) as [->|]; [simpl in Hlines; lia | lia]).
      exists (k - 1). destruct Hmask as [_ Hmask].
      rewrite index_mask_eq in Hmask by lia. injection Hmask as <-.
      assert (E : 2 ^ k = 2 ^ (k - 1) * 2).
      { replace k with (Z.succ (k - 1)) at 1 by lia.
        rewrite Z.pow_succ_r by lia. lia. }
      rewrite E, Z.quot_mul by lia. repeat split; lia.
    - assert (2 <= k).
      { destruct (Z.eq_dec k 0) as [->|]; [simpl in Hlines; lia|].
        destruct (Z.eq_dec k 1) as [->|]; [simpl in Hlines; lia | lia]. }
      exists (k - 2). destruct Hmask as [_ Hmask].
      rewrite index_mask_eq in Hmask by lia. injection Hmask as <-.
      assert (E : 2 ^ k = 2 ^ (k - 2) * 4).
      { replace k with (k - 2 + 2) at 1 by lia.
        rewrite Z.pow_add_r by lia. reflexivity. }
      rewrite E, Z.quot_mul by lia. repeat split; lia.
    - exists 0. rewrite Hmask. simpl. repeat split; lia. }
  destruct Hgeo as (w & Hw & Hsets & Hm & Hprod).
  split; [exact Hprod|]. split; [lia|].
  intros hostAddress. rewrite Hm, Hsets.
  pose proof (GetIndex_eq w (addressBitShift c) hostAddress Hw Hshift) as Hi.
  assert (Hrange : 0 <= GetIndex (2 ^ w - 1) (addressBitShift c) hostAddress < 2 ^ w).
  { rewrite Hi. apply Z.mod_pos_bound. apply Z.pow_pos_nonneg; lia. }
  split; [exact Hrange|].
  rewrite Htable, Hsets. apply at_index_Some. split; [lia|].
  apply lookup_replicate_2. lia.
Qed.

Lemma power_of_two_table_witness :
  (0 <= 3 <= 30 /\ 0 <= 40 < 2 ^ 30 /\ 2 ^ 3 * 40 <= INT_MAX /\
   linesPerSet four_way (2 ^ 3) <= 2 ^ 3) /\
  exists c,
    CreateCache (2 ^ 3) 40 32 four_way lfu_RP = Ok c /\
    numberOfSets c * numberOfLinesPerSet c = 2 ^ 3 /\
    indexBitMask c = numberOfSets c - 1 /\
    forall hostAddress,
      0 <= GetIndex (indexBitMask c) (addressBitShift c) hostAddress < numberOfSets c /\
      at_index (cacheLine c) (GetIndex (indexBitMask c) (addressBitShift c) hostAddress) =
        Some (replicate (Z.to_nat (numberOfLinesPerSet c)) fresh_line).
Proof.
  split; [unfold INT_MAX; simpl; lia|].
  apply (power_of_two_table 3 40 32 four_way lfu_RP); unfold INT_MAX; simpl; lia.
Defined.

Lemma GetWay_no_set hostAddress setIndex c :
  at_index (cacheLine c) setIndex = None ->
  GetWay hostAddress setIndex c = Undefined (SetOutOfBounds setIndex).
Proof. intros H. unfold GetWay, bind, gets, load_set. now rewrite H. Qed.

Lemma calls_without_set env hostAddress c :
  at_index (cacheLine c) (GetIndex (indexBitMask c) (addressBitShift c) hostAddress) = None ->
  (forall flags size,
     clCreateCacheBuffer env flags size hostAddress c =
     Undefined (SetOutOfBounds (GetIndex (indexBitMask c) (addressBitShift c) hostAddress))) /\
  (forall blocking_read offset size,
     clEnqueueReadCacheBuffer env blocking_read offset size hostAddress c =
     Undefined (SetOutOfBounds (GetIndex (indexBitMask c) (addressBitShift c) hostAddress))).
Proof.
  intros H. apply (GetWay_no_set hostAddress) in H. split; intros.
  - unfold clCreateCacheBuffer.
    rewrite (bind_eq _ _ c (indexBitMask c) c) by reflexivity.
    rewrite (bind_eq _ _ c (addressBitShift c) c) by reflexivity.
    now apply bind_undefined.
  - unfold clEnqueueReadCacheBuffer.
    rewrite (bind_eq _ _ c (indexBitMask c) c) by reflexivity.
    rewrite (bind_eq _ _ c (addressBitShift c) c) by reflexivity.
    now apply bind_undefined.
Qed.

(** X3: for a direct-mapped cache whose line count is not a power of two,
    [CreateCache] returns a table with fewer sets than [indexBitMask + 1]:
    some address has an index past the last set, and both calls on that
    address read [cacheLine[index]] outside the table. *)
Theorem line_count_not_power_of_two numberOfCacheLines d tagSize' policy' :
  1 <= numberOfCacheLines <= INT_MAX ->
  (forall k, numberOfCacheLines <> 2 ^ k) ->
  0 <= d < 2 ^ 30 -> numberOfCacheLines * d <= INT_MAX ->
  exists c hostAddress,
    CreateCache numberOfCacheLines d tagSize' direct_mapped policy' = Ok c /\
    0 <= hostAddress /\
    numberOfSets c <= GetIndex (indexBitMask c) (addressBitShift c) hostAddress /\
    (forall env flags size,
       clCreateCacheBuffer env flags size hostAddress c =
       Undefined (SetOutOfBounds
                    (GetIndex (indexBitMask c) (addressBitShift c) hostAddress))) /\
    (forall env blocking_read offset size,
       clEnqueueReadCacheBuffer env blocking_read offset size hostAddress c =
       Undefined (SetOutOfBounds
                    (GetIndex (indexBitMask c) (addressBitShift c) hostAddress))).
Proof.
  intros Hn Hnot Hd Hsize.
  destruct (CreateCache_returns numberOfCacheLines d tagSize' direct_mapped policy')
    as [c Hc]; [lia | lia | lia |].
  pose proof (addressBitShift_nonneg _ _ _ _ _ _ Hc) as Hshift.
  pose proof (CreateCache_geometry _ _ _ _ _ _ Hc) as (_ & Hs & Htable & _ & _ & Hmask).
  cbn [setsOf] in Hs.
  set (w := Z.log2_up numberOfCacheLines) in *.
  assert (H1 : 1 < numberOfCacheLines).
  { destruct (Z.eq_dec numberOfCacheLines 1) as [E|]; [|lia].
    exfalso. apply (Hnot 0). exact E. }
  assert (Hw : 0 <= w <= 31).
  { split; [apply Z.log2_up_nonneg|].
    apply Z.log2_up_le_pow2; [lia | unfold INT_MAX in Hn; lia]. }
  assert (Hlt : numberOfCacheLines < 2 ^ w).
  { pose proof (Z.log2_up_spec numberOfCacheLines H1) as [_ Hle]. fold w in Hle.
    specialize (Hnot w). lia. }
  rewrite index_mask_eq in Hmask by lia. injection Hmask as Hmask.
  assert (Hps : 0 < 2 ^ addressBitShift c) by (apply Z.pow_pos_nonneg; lia).
  exists c, ((2 ^ w - 1) * 2 ^ addressBitShift c).
  assert (Hi : GetIndex (indexBitMask c) (addressBitShift c)
                 ((2 ^ w - 1) * 2 ^ addressBitShift c) = 2 ^ w - 1).
  { rewrite <- Hmask, GetIndex_eq by lia.
    rewrite Z.div_mul by lia. apply Z.mod_small. lia. }
  split; [exact Hc|]. split; [nia|]. split; [lia|].
  assert (Hnone : at_index (cacheLine c)
                    (GetIndex (indexBitMask c) (addressBitShift c)
                       ((2 ^ w - 1) * 2 ^ addressBitShift c)) = None).
  { rewrite Hi, Htable, Hs. unfold at_index.
    destruct (Z.ltb_spec (2 ^ w - 1) 0); [reflexivity|].
    apply lookup_ge_None_2. rewrite length_replicate. lia. }
  split; intros env; apply (calls_without_set env _ _ Hnone).
Qed.

Lemma line_count_not_power_of_two_witness :
  (1 <= 3 <= INT_MAX /\ (forall k, 3 <> 2 ^ k) /\ 0 <= 64 < 2 ^ 30 /\ 3 * 64 <= INT_MAX) /\
  exists c hostAddress,
    CreateCache 3 64 32 direct_mapped random_RP = Ok c /\
    0 <= hostAddress /\
    numberOfSets c <= GetIndex (indexBitMask c) (addressBitShift c) hostAddress /\
    (forall env flags size,
       clCreateCacheBuffer env flags size hostAddress c =
       Undefined (SetOutOfBounds
                    (GetIndex (indexBitMask c) (addressBitShift c) hostAddress))) /\
    (forall env blocking_read offset size,
       clEnqueueReadCacheBuffer env blocking_read offset size hostAddress c =
       Undefined (SetOutOfBounds
                    (GetIndex (indexBitMask c) (addressBitShift c) hostAddress))).
Proof.
  assert (Hnot : forall k, 3 <> 2 ^ k).
  { intros k Hk. destruct (Z.le_gt_cases k 1) as [Hle|Hgt].
    - destruct (Z.le_gt_cases 0 k) as [H0|H0].
      + assert (k = 0 \/ k = 1) as [-> | ->] by lia; simpl in Hk; lia.
      + rewrite Z.pow_neg_r in Hk by lia. lia.
    - assert (2 ^ 2 <= 2 ^ k) by (apply Z.pow_le_mono_r; lia). simpl in *. lia. }
  split; [repeat split; try exact Hnot; unfold INT_MAX; lia|].
  apply (line_count_not_power_of_two 3 64 32 random_RP);
    try exact Hnot; unfold INT_MAX; lia.
Defined.

(** * The victim that [SetWay] selects *)

Lemma first_empty_unique s i i' : first_empty s i -> first_empty s i' -> i = i'.
Proof.
  intros (l & Hl & Hv & Hb) (l' & Hl' & Hv' & Hb').
  destruct (Nat.lt_trichotomy i i') as [H | [H | H]]; [|exact H|].
  - specialize (Hb' _ _ H Hl). congruence.
  - specialize (Hb _ _ H Hl'). congruence.
Qed.

Lemma first_empty_not_all_valid s i : first_empty s i -> all_valid s -> False.
Proof. intros (l & Hl & Hv & _) Hall. specialize (Hall _ _ Hl). congruence. Qed.

Lemma first_lowest_unique s r r' : first_lowest s r -> first_lowest s r' -> r = r'.
Proof.
  intros (l & Hl & Hmin & Hb) (l' & Hl' & Hmin' & Hb').
  destruct (Nat.lt_trichotomy r r') as [H | [H | H]]; [|exact H|].
  - specialize (Hb' _ _ H Hl). specialize (Hmin _ _ Hl'). lia.
  - specialize (Hb _ _ H Hl'). specialize (Hmin' _ _ Hl). lia.
Qed.

Lemma first_highest_unique s r r' : first_highest s r -> first_highest s r' -> r = r'.
Proof.
  intros (l & Hl & Hmax & Hb) (l' & Hl' & Hmax' & Hb').
  destruct (Nat.lt_trichotomy r r') as [H | [H | H]]; [|exact H|].
  - specialize (Hb' _ _ H Hl). specialize (Hmax _ _ Hl'). lia.
  - specialize (Hb _ _ H Hl'). specialize (Hmax' _ _ Hl). lia.
Qed.

Section Victims.
Variables (setIndex : Z) (c : Cache_t) (s : list CacheLine_t).
Hypothesis Hset : at_index (cacheLine c) setIndex = Some s.

Lemma SetWay_empty_spec m (way : nat) :
  (way + m = length s)%nat ->
  (forall j lj, (j < way)%nat -> s !! j = Some lj -> valid lj = true) ->
  (exists i, SetWay_empty setIndex m (Z.of_nat way) c = Ok (Some (Z.of_nat i), c) /\
             first_empty s i) \/
  (SetWay_empty setIndex m (Z.of_nat way) c = Ok (None, c) /\ all_valid s).
Proof.
  revert way. induction m as [|m IH]; intros way Hlen Hbefore; simpl.
  - right. split; [reflexivity|]. intros j l Hl.
    apply (Hbefore j l); [|exact Hl]. apply lookup_lt_Some in Hl. lia.
  - destruct (lookup_lt_is_Some_2 s way) as [l Hl]; [lia|].
    rewrite (bind_eq _ _ _ _ _ (load_line_eq _ _ _ _ _ Hset Hl)).
    destruct (valid l) eqn:Hv; simpl.
    + replace (Z.of_nat way + 1) with (Z.of_nat (S way)) by lia.
      apply IH; [lia|]. intros j lj Hj Hlj.
      destruct (decide (j = way)) as [->|]; [congruence|].
      apply (Hbefore j lj); [lia | exact Hlj].
    + left. exists way. split; [reflexivity|]. exists l. auto.
Qed.

Lemma SetWay_lowest_spec m (way rw : nat) :
  (way + m = length s)%nat -> (rw < length s)%nat -> (rw <= way)%nat ->
  (forall j lj lr, (j < way)%nat -> s !! j = Some lj -> s !! rw = Some lr ->
     accessedOrder (metaData lr) <= accessedOrder (metaData lj)) ->
  (forall j lj lr, (j < rw)%nat -> s !! j = Some lj -> s !! rw = Some lr ->
     accessedOrder (metaData lr) < accessedOrder (metaData lj)) ->
  exists r, SetWay_lowest setIndex m (Z.of_nat way) (Z.of_nat rw) c = Ok (Z.of_nat r, c) /\
            first_lowest s r.
Proof.
  revert way rw. induction m as [|m IH]; intros way rw Hlen Hrw Hle Hmin Hfirst; simpl.
  - exists rw. split; [reflexivity|].
    destruct (lookup_lt_is_Some_2 s rw Hrw) as [lr Hlr].
    exists lr. split; [exact Hlr|]. split.
    + intros j lj Hlj. apply (Hmin j lj lr); auto.
      apply lookup_lt_Some in Hlj. lia.
    + intros j lj Hj Hlj. apply (Hfirst j lj lr); auto.
  - destruct (lookup_lt_is_Some_2 s way) as [l Hl]; [lia|].
    destruct (lookup_lt_is_Some_2 s rw Hrw) as [lr Hlr].
    rewrite (bind_eq _ _ _ _ _ (load_line_eq _ _ _ _ _ Hset Hl)).
    rewrite (bind_eq _ _ _ _ _ (load_line_eq _ _ _ _ _ Hset Hlr)).
    replace (Z.of_nat way + 1) with (Z.of_nat (S way)) by lia.
    destruct (Z.ltb_spec (accessedOrder (metaData l)) (accessedOrder (metaData lr)))
      as [Hlt|Hge].
    + apply IH; [lia | apply lookup_lt_Some in Hl; lia | lia | |].
      * intros j lj lr' Hj Hlj Hlr'. rewrite Hl in Hlr'. injection Hlr' as <-.
        destruct (decide (j = way)) as [->|]; [rewrite Hl in Hlj; injection Hlj as <-; lia|].
        specialize (Hmin j lj lr ltac:(lia) Hlj Hlr). lia.
      * intros j lj lr' Hj Hlj Hlr'. rewrite Hl in Hlr'. injection Hlr' as <-.
        specialize (Hmin j lj lr ltac:(lia) Hlj Hlr). lia.
    + apply IH; [lia | exact Hrw | lia | | exact Hfirst].
      intros j lj lr' Hj Hlj Hlr'. rewrite Hlr in Hlr'. injection Hlr' as <-.
      destruct (decide (j = way)) as [->|]; [rewrite Hl in Hlj; injection Hlj as <-; lia|].
      apply (Hmin j lj lr); auto. lia.
Qed.

Lemma SetWay_highest_spec m (way rw : nat) :
  (way + m = length s)%nat -> (rw < length s)%nat -> (rw <= way)%nat ->
  (forall j lj, (j < way)%nat -> s !! j = Some lj -> valid lj = true) ->
  (forall j lj lr, (j < way)%nat -> s !! j = Some lj -> s !! rw = Some lr ->
     accessedOrder (metaData lj) <= accessedOrder (metaData lr)) ->
  (forall j lj lr, (j < rw)%nat -> s !! j = Some lj -> s !! rw = Some lr ->
     accessedOrder (metaData lj) < accessedOrder (metaData lr)) ->
  exists r, SetWay_highest setIndex m (Z.of_nat way) (Z.of_nat rw) c = Ok (Z.of_nat r, c) /\
            (first_empty s r \/ (all_valid s /\ first_highest s r)).
Proof.
  revert way rw. induction m as [|m IH];
    intros way rw Hlen Hrw Hle Hvalid Hmax Hfirst; simpl.
  - exists rw. split; [reflexivity|]. right.
    destruct (lookup_lt_is_Some_2 s rw Hrw) as [lr Hlr]. split.
    + intros j l Hl. apply (Hvalid j l); [|exact Hl]. apply lookup_lt_Some in Hl. lia.
    + exists lr. split; [exact Hlr|]. split.
      * intros j lj Hlj. apply (Hmax j lj lr); auto.
        apply lookup_lt_Some in Hlj. lia.
      * intros j lj Hj Hlj. apply (Hfirst j lj lr); auto.
  - destruct (lookup_lt_is_Some_2 s way) as [l Hl]; [lia|].
    destruct (lookup_lt_is_Some_2 s rw Hrw) as [lr Hlr].
    rewrite (bind_eq _ _ _ _ _ (load_line_eq _ _ _ _ _ Hset Hl)).
    destruct (valid l) eqn:Hv; simpl.
    2:{ exists way. split; [reflexivity|]. left. exists l. auto. }
    rewrite (bind_eq _ _ _ _ _ (load_line_eq _ _ _ _ _ Hset Hlr)).
    replace (Z.of_nat way + 1) with (Z.of_nat (S way)) by lia.
    assert (Hvalid' : forall j lj, (j < S way)%nat -> s !! j = Some lj -> valid lj = true).
    { intros j lj Hj Hlj. destruct (decide (j = way)) as [->|]; [congruence|].
      apply (Hvalid j lj); [lia | exact Hlj]. }
    destruct (Z.gtb_spec (accessedOrder (metaData l)) (accessedOrder (metaData lr)))
      as [Hgt|Hle'].
    + apply IH; [lia | apply lookup_lt_Some in Hl; lia | lia | exact Hvalid' | |].
      * intros j lj lr' Hj Hlj Hlr'. rewrite Hl in Hlr'. injection Hlr' as <-.
        destruct (decide (j = way)) as [->|]; [rewrite Hl in Hlj; injection Hlj as <-; lia|].
        specialize (Hmax j lj lr ltac:(lia) Hlj Hlr). lia.
      * intros j lj lr' Hj Hlj Hlr'. rewrite Hl in Hlr'. injection Hlr' as <-.
        specialize (Hmax j lj lr ltac:(lia) Hlj Hlr). lia.
    + apply IH; [lia | exact Hrw | lia | exact Hvalid' | | exact Hfirst].
      intros j lj lr' Hj Hlj Hlr'. rewrite Hlr in Hlr'. injection Hlr' as <-.
      destruct (decide (j = way)) as [->|]; [rewrite Hl in Hlj; injection Hlj as <-; lia|].
      apply (Hmax j lj lr); auto. lia.
Qed.
End Victims.

Lemma SetWay_unfold env setIndex c s :
  at_index (cacheLine c) setIndex = Some s ->
  SetWay env setIndex c =
  match policy c with
  | random_RP =>
      e <- SetWay_empty setIndex (Z.to_nat (numberOfLinesPerSet c)) 0 ;;
      match e with
      | Some way => ret way
      | None => int_rem (rand env) (numberOfLinesPerSet c)
      end
  | fifo_RP =>
      cur <- load_cursor setIndex ;;
      next <- int_add cur 1 ;;
      next' <- int_rem next (numberOfLinesPerSet c) ;;
      store_cursor setIndex next' ;;;
      load_cursor setIndex
  | lru_RP =>
      replacementWay <- SetWay_lowest setIndex (Z.to_nat (numberOfLinesPerSet c)) 0 0 ;;
      stamp setIndex replacementWay ;;;
      ret replacementWay
  | mru_RP =>
      replacementWay <- SetWay_highest setIndex (Z.to_nat (numberOfLinesPerSet c)) 0 0 ;;
      stamp setIndex replacementWay ;;;
      ret replacementWay
  | lfu_RP =>
      replacementWay <- SetWay_lowest setIndex (Z.to_nat (numberOfLinesPerSet c)) 0 0 ;;
      store_line setIndex replacementWay (set_accessedOrder 1) ;;;
      ret replacementWay
  | mfu_RP =>
      replacementWay <- SetWay_highest setIndex (Z.to_nat (numberOfLinesPerSet c)) 0 0 ;;
      store_line setIndex replacementWay (set_accessedOrder 1) ;;;
      ret replacementWay
  end c.
Proof.
  intros Hs. unfold SetWay.
  rewrite (bind_eq _ _ c (numberOfLinesPerSet c) c) by reflexivity.
  rewrite (bind_eq _ _ c s c) by now apply load_set_Ok.
  now rewrite (bind_eq _ _ c (policy c) c) by reflexivity.
Qed.

Lemma stamp_eq setIndex way c s l cur :
  at_index (cacheLine c) setIndex = Some s -> at_index s way = Some l ->
  at_index (replacementLine c) setIndex = Some cur ->
  INT_MIN <= cur + 1 <= INT_MAX ->
  stamp setIndex way c =
  Ok (tt, with_cacheLine
            (<[Z.to_nat setIndex := <[Z.to_nat way := set_accessedOrder (cur + 1) l]> s]>
               (cacheLine c))
            (with_replacementLine (<[Z.to_nat setIndex := cur + 1]> (replacementLine c)) c)).
Proof.
  intros Hs Hl Hcur Hrange.
  set (c1 := with_replacementLine (<[Z.to_nat setIndex := cur + 1]> (replacementLine c)) c).
  assert (H1 : load_cursor setIndex c = Ok (cur, c)) by now apply load_cursor_Ok.
  assert (H2 : int_add cur 1 c = Ok (cur + 1, c)) by now apply int_add_Ok.
  assert (H3 : store_cursor setIndex (cur + 1) c = Ok (tt, c1))
    by (apply store_cursor_Ok; eauto).
  assert (H4 : load_cursor setIndex c1 = Ok (cur + 1, c1)).
  { apply load_cursor_Ok. split; [|reflexivity]. simpl.
    eapply at_index_insert_eq, Hcur. }
  unfold stamp.
  rewrite (bind_eq _ _ _ _ _ H1), (bind_eq _ _ _ _ _ H2),
          (bind_eq _ _ _ _ _ H3), (bind_eq _ _ _ _ _ H4).
  apply store_line_Ok. exists s, l. auto.
Qed.

(** X4: under [random_RP], [SetWay] returns the first way of the set that is
    not valid, when there is one; when every way is valid it returns
    [rand() % numberOfLinesPerSet], a way of the set.  It changes nothing in
    the cache. *)
Theorem random_takes_first_empty_way env setIndex c s :
  policy c = random_RP ->
  at_index (cacheLine c) setIndex = Some s ->
  length s = Z.to_nat (numberOfLinesPerSet c) ->
  (forall i, first_empty s i -> SetWay env setIndex c = Ok (Z.of_nat i, c)) /\
  (all_valid s -> 0 < numberOfLinesPerSet c -> 0 <= rand env ->
   SetWay env setIndex c = Ok (rand env mod numberOfLinesPerSet c, c) /\
   0 <= rand env mod numberOfLinesPerSet c < numberOfLinesPerSet c).
Proof.
  intros Hp Hs Hlen. rewrite (SetWay_unfold _ _ _ _ Hs), Hp.
  pose proof (SetWay_empty_spec setIndex c s Hs (Z.to_nat (numberOfLinesPerSet c)) 0
                ltac:(lia) ltac:(intros j lj Hj; lia)) as Hscan.
  change (Z.of_nat 0) with 0 in Hscan. split.
  - intros i Hi. destruct Hscan as [(i' & Hscan & Hi') | (_ & Hall)].
    + rewrite (bind_eq _ _ _ _ _ Hscan).
      now rewrite (first_empty_unique _ _ _ Hi Hi').
    + destruct (first_empty_not_all_valid _ _ Hi Hall).
  - intros Hall Hn Hrand. destruct Hscan as [(i' & _ & Hi') | (Hscan & _)].
    + destruct (first_empty_not_all_valid _ _ Hi' Hall).
    + rewrite (bind_eq _ _ _ _ _ Hscan). unfold int_rem.
      destruct (Z.eqb_spec (numberOfLinesPerSet c) 0); [lia|].
      unfold ret. rewrite Z.rem_mod_nonneg by lia.
      split; [reflexivity | apply Z.mod_pos_bound; lia].
Qed.

(** A two-way set with way 0 valid and way 1 empty: the victim is way 1. *)
Lemma random_takes_first_empty_way_witness :
  (policy (with_policy random_RP two_way_lru_holding_64) = random_RP /\
   at_index (cacheLine (with_policy random_RP two_way_lru_holding_64)) 1 =
     Some [mkCacheLine true 64 (mkMetaData (-1) 1) (Some 4160); fresh_line] /\
   length [mkCacheLine true 64 (mkMetaData (-1) 1) (Some 4160); fresh_line] =
     Z.to_nat (numberOfLinesPerSet (with_policy random_RP two_way_lru_holding_64)) /\
   first_empty [mkCacheLine true 64 (mkMetaData (-1) 1) (Some 4160); fresh_line] 1) /\
  SetWay runtime_ok 1 (with_policy random_RP two_way_lru_holding_64) =
    Ok (1, with_policy random_RP two_way_lru_holding_64).
Proof.
  assert (He : first_empty
                 [mkCacheLine true 64 (mkMetaData (-1) 1) (Some 4160); fresh_line] 1).
  { exists fresh_line. repeat split.
    intros [|j] lj Hj Hlj; [now injection Hlj as <- | lia]. }
  split; [repeat split; exact He|].
  apply (proj1 (random_takes_first_empty_way runtime_ok 1
                  (with_policy random_RP two_way_lru_holding_64)
                  [mkCacheLine true 64 (mkMetaData (-1) 1) (Some 4160); fresh_line]
                  eq_refl eq_refl eq_refl) 1%nat He).
Defined.

Lemma SetWay_lowest_start setIndex c s :
  at_index (cacheLine c) setIndex = Some s ->
  length s = Z.to_nat (numberOfLinesPerSet c) -> 0 < numberOfLinesPerSet c ->
  exists r l,
    SetWay_lowest setIndex (Z.to_nat (numberOfLinesPerSet c)) 0 0 c = Ok (Z.of_nat r, c) /\
    first_lowest s r /\ s !! r = Some l.
Proof.
  intros Hs Hlen Hn.
  destruct (SetWay_lowest_spec setIndex c s Hs (Z.to_nat (numberOfLinesPerSet c))
              0%nat 0%nat) as (r & Hscan & Hr); try lia.
  destruct Hr as (l & Hl & Hr). exists r, l.
  split; [exact Hscan|]. split; [exists l; auto | exact Hl].
Qed.

Lemma SetWay_highest_start setIndex c s :
  at_index (cacheLine c) setIndex = Some s ->
  length s = Z.to_nat (numberOfLinesPerSet c) -> 0 < numberOfLinesPerSet c ->
  exists r l,
    SetWay_highest setIndex (Z.to_nat (numberOfLinesPerSet c)) 0 0 c = Ok (Z.of_nat r, c) /\
    (first_empty s r \/ (all_valid s /\ first_highest s r)) /\ s !! r = Some l.
Proof.
  intros Hs Hlen Hn.
  destruct (SetWay_highest_spec setIndex c s Hs (Z.to_nat (numberOfLinesPerSet c))
              0%nat 0%nat) as (r & Hscan & Hr); try lia.
  assert (Hl : exists l, s !! r = Some l).
  { destruct Hr as [(l & Hl & _) | (_ & l & Hl & _)]; eauto. }
  destruct Hl as [l Hl]. exists r, l. auto.
Qed.

(** X5: under [lru_RP] and [lfu_RP], [SetWay] on a set of
    [numberOfLinesPerSet] lines returns the first way with the lowest
    accessed order (a valid line is not preferred to an empty one otherwise).
    Under [lru_RP] it then advances the cursor of the set by 1 and stores the
    new value as the accessed order of that way; under [lfu_RP] it sets the
    accessed order of that way to 1.  Nothing else changes. *)
Theorem lowest_order_is_replaced env setIndex c s :
  at_index (cacheLine c) setIndex = Some s ->
  length s = Z.to_nat (numberOfLinesPerSet c) -> 0 < numberOfLinesPerSet c ->
  exists r l,
    first_lowest s r /\ s !! r = Some l /\
    (policy c = lru_RP ->
     forall cur,
       at_index (replacementLine c) setIndex = Some cur ->
       INT_MIN <= cur + 1 <= INT_MAX ->
       SetWay env setIndex c =
         Ok (Z.of_nat r,
             with_cacheLine
               (<[Z.to_nat setIndex := <[r := set_accessedOrder (cur + 1) l]> s]> (cacheLine c))
               (with_replacementLine
                  (<[Z.to_nat setIndex := cur + 1]> (replacementLine c)) c))) /\
    (policy c = lfu_RP ->
     SetWay env setIndex c =
       Ok (Z.of_nat r,
           with_cacheLine
             (<[Z.to_nat setIndex := <[r := set_accessedOrder 1 l]> s]> (cacheLine c)) c)).
Proof.
  intros Hs Hlen Hn.
  destruct (SetWay_lowest_start _ _ _ Hs Hlen Hn) as (r & l & Hscan & Hr & Hl).
  assert (Hl' : at_index s (Z.of_nat r) = Some l) by now rewrite at_index_of_nat.
  exists r, l. split; [exact Hr|]. split; [exact Hl|].
  rewrite (SetWay_unfold _ _ _ _ Hs). split.
  - intros Hp cur Hcur Hrange. rewrite Hp, (bind_eq _ _ _ _ _ Hscan).
    rewrite (bind_eq _ _ _ _ _ (stamp_eq _ _ _ _ _ _ Hs Hl' Hcur Hrange)).
    now rewrite Nat2Z.id.
  - intros Hp. rewrite Hp, (bind_eq _ _ _ _ _ Hscan).
    assert (Hstore : store_line setIndex (Z.of_nat r) (set_accessedOrder 1) c =
                     Ok (tt, with_cacheLine
                               (<[Z.to_nat setIndex :=
                                    <[Z.to_nat (Z.of_nat r) := set_accessedOrder 1 l]> s]>
                                  (cacheLine c)) c))
      by (apply store_line_Ok; exists s, l; auto).
    rewrite (bind_eq _ _ _ _ _ Hstore). now rewrite Nat2Z.id.
Qed.

(** X6: under [mru_RP] and [mfu_RP], [SetWay] on a set of
    [numberOfLinesPerSet] lines returns the first way that is not valid, when
    there is one, and otherwise the first way with the highest accessed
    order.  Under [mru_RP] it then advances the cursor of the set by 1 and
    stores the new value as the accessed order of that way; under [mfu_RP] it
    sets the accessed order of that way to 1.  Nothing else changes. *)
Theorem empty_or_highest_order_is_replaced env setIndex c s :
  at_index (cacheLine c) setIndex = Some s ->
  length s = Z.to_nat (numberOfLinesPerSet c) -> 0 < numberOfLinesPerSet c ->
  exists r l,
    (first_empty s r \/ (all_valid s /\ first_highest s r)) /\ s !! r = Some l /\
    (policy c = mru_RP ->
     forall cur,
       at_index (replacementLine c) setIndex = Some cur ->
       INT_MIN <= cur + 1 <= INT_MAX ->
       SetWay env setIndex c =
         Ok (Z.of_nat r,
             with_cacheLine
               (<[Z.to_nat setIndex := <[r := set_accessedOrder (cur + 1) l]> s]> (cacheLine c))
               (with_replacementLine
                  (<[Z.to_nat setIndex := cur + 1]> (replacementLine c)) c))) /\
    (policy c = mfu_RP ->
     SetWay env setIndex c =
       Ok (Z.of_nat r,
           with_cacheLine
             (<[Z.to_nat setIndex := <[r := set_accessedOrder 1 l]> s]> (cacheLine c)) c)).
Proof.
  intros Hs Hlen Hn.
  destruct (SetWay_highest_start _ _ _ Hs Hlen Hn) as (r & l & Hscan & Hr & Hl).
  assert (Hl' : at_index s (Z.of_nat r) = Some l) by now rewrite at_index_of_nat.
  exists r, l. split; [exact Hr|]. split; [exact Hl|].
  rewrite (SetWay_unfold _ _ _ _ Hs). split.
  - intros Hp cur Hcur Hrange. rewrite Hp, (bind_eq _ _ _ _ _ Hscan).
    rewrite (bind_eq _ _ _ _ _ (stamp_eq _ _ _ _ _ _ Hs Hl' Hcur Hrange)).
    now rewrite Nat2Z.id.
  - intros Hp. rewrite Hp, (bind_eq _ _ _ _ _ Hscan).
    assert (Hstore : store_line setIndex (Z.of_nat r) (set_accessedOrder 1) c =
                     Ok (tt, with_cacheLine
                               (<[Z.to_nat setIndex :=
                                    <[Z.to_nat (Z.of_nat r) := set_accessedOrder 1 l]> s]>
                                  (cacheLine c)) c))
      by (apply store_line_Ok; exists s, l; auto).
    rewrite (bind_eq _ _ _ _ _ Hstore). now rewrite Nat2Z.id.
Qed.

Lemma lowest_order_is_replaced_witness :
  (at_index (cacheLine two_way_lru_holding_64) 1 =
     Some [mkCacheLine true 64 (mkMetaData (-1) 1) (Some 4160); fresh_line] /\
   length [mkCacheLine true 64 (mkMetaData (-1) 1) (Some 4160); fresh_line] =
     Z.to_nat (numberOfLinesPerSet two_way_lru_holding_64) /\
   0 < numberOfLinesPerSet two_way_lru_holding_64) /\
  exists r l,
    first_lowest [mkCacheLine true 64 (mkMetaData (-1) 1) (Some 4160); fresh_line] r /\
    [mkCacheLine true 64 (mkMetaData (-1) 1) (Some 4160); fresh_line] !! r = Some l /\
    (policy two_way_lru_holding_64 = lru_RP ->
     forall cur,
       at_index (replacementLine two_way_lru_holding_64) 1 = Some cur ->
       INT_MIN <= cur + 1 <= INT_MAX ->
       SetWay runtime_ok 1 two_way_lru_holding_64 =
         Ok (Z.of_nat r,
             with_cacheLine
               (<[Z.to_nat 1 :=
                    <[r := set_accessedOrder (cur + 1) l]>
                      [mkCacheLine true 64 (mkMetaData (-1) 1) (Some 4160); fresh_line]]>
                  (cacheLine two_way_lru_holding_64))
               (with_replacementLine
                  (<[Z.to_nat 1 := cur + 1]> (replacementLine two_way_lru_holding_64))
                  two_way_lru_holding_64))) /\
    (policy two_way_lru_holding_64 = lfu_RP ->
     SetWay runtime_ok 1 two_way_lru_holding_64 =
       Ok (Z.of_nat r,
           with_cacheLine
             (<[Z.to_nat 1 :=
                  <[r := set_accessedOrder 1 l]>
                    [mkCacheLine true 64 (mkMetaData (-1) 1) (Some 4160); fresh_line]]>
                (cacheLine two_way_lru_holding_64)) two_way_lru_holding_64)).
Proof.
  split; [repeat split; simpl; lia|].
  apply (lowest_order_is_replaced runtime_ok 1 two_way_lru_holding_64
           [mkCacheLine true 64 (mkMetaData (-1) 1) (Some 4160); fresh_line]
           eq_refl eq_refl); simpl; lia.
Defined.

Lemma empty_or_highest_order_is_replaced_witness :
  (at_index (cacheLine (with_policy mru_RP two_way_lru_holding_64)) 1 =
     Some [mkCacheLine true 64 (mkMetaData (-1) 1) (Some 4160); fresh_line] /\
   length [mkCacheLine true 64 (mkMetaData (-1) 1) (Some 4160); fresh_line] =
     Z.to_nat (numberOfLinesPerSet (with_policy mru_RP two_way_lru_holding_64)) /\
   0 < numberOfLinesPerSet (with_policy mru_RP two_way_lru_holding_64)) /\
  exists r l,
    (first_empty [mkCacheLine true 64 (mkMetaData (-1) 1) (Some 4160); fresh_line] r \/
     (all_valid [mkCacheLine true 64 (mkMetaData (-1) 1) (Some 4160); fresh_line] /\
      first_highest [mkCacheLine true 64 (mkMetaData (-1) 1) (Some 4160); fresh_line] r)) /\
    [mkCacheLine true 64 (mkMetaData (-1) 1) (Some 4160); fresh_line] !! r = Some l /\
    (policy (with_policy mru_RP two_way_lru_holding_64) = mru_RP ->
     forall cur,
       at_index (replacementLine (with_policy mru_RP two_way_lru_holding_64)) 1 = Some cur ->
       INT_MIN <= cur + 1 <= INT_MAX ->
       SetWay runtime_ok 1 (with_policy mru_RP two_way_lru_holding_64) =
         Ok (Z.of_nat r,
             with_cacheLine
               (<[Z.to_nat 1 :=
                    <[r := set_accessedOrder (cur + 1) l]>
                      [mkCacheLine true 64 (mkMetaData (-1) 1) (Some 4160); fresh_line]]>
                  (cacheLine (with_policy mru_RP two_way_lru_holding_64)))
               (with_replacementLine
                  (<[Z.to_nat 1 := cur + 1]>
                     (replacementLine (with_policy mru_RP two_way_lru_holding_64)))
                  (with_policy mru_RP two_way_lru_holding_64)))) /\
    (policy (with_policy mru_RP two_way_lru_holding_64) = mfu_RP ->
     SetWay runtime_ok 1 (with_policy mru_RP two_way_lru_holding_64) =
       Ok (Z.of_nat r,
           with_cacheLine
             (<[Z.to_nat 1 :=
                  <[r := set_accessedOrder 1 l]>
                    [mkCacheLine true 64 (mkMetaData (-1) 1) (Some 4160); fresh_line]]>
                (cacheLine (with_policy mru_RP two_way_lru_holding_64)))
             (with_policy mru_RP two_way_lru_holding_64))).
Proof.
  split; [repeat split; simpl; lia|].
  apply (empty_or_highest_order_is_replaced runtime_ok 1
           (with_policy mru_RP two_way_lru_holding_64)
           [mkCacheLine true 64 (mkMetaData (-1) 1) (Some 4160); fresh_line]
           eq_refl eq_refl); simpl; lia.
Defined.

Lemma SetWay_way_in_range env setIndex c s w c' :
  at_index (cacheLine c) setIndex = Some s ->
  length s = Z.to_nat (numberOfLinesPerSet c) -> 0 < numberOfLinesPerSet c ->
  0 <= rand env -> (policy c = fifo_RP -> cursors_in_range c) ->
  SetWay env setIndex c = Ok (w, c') ->
  0 <= w < numberOfLinesPerSet c.
Proof.
  intros Hs Hlen Hn Hrand Hcur H.
  assert (Hnat : forall r l, s !! r = Some l ->
                 0 <= Z.of_nat r < numberOfLinesPerSet c).
  { intros r l Hl. apply lookup_lt_Some in Hl. lia. }
  destruct (policy c) eqn:Hp.
  - rewrite (SetWay_unfold _ _ _ _ Hs), Hp in H.
    apply bind_Ok in H as (e & c1 & He & H).
    destruct (SetWay_empty_spec setIndex c s Hs (Z.to_nat (numberOfLinesPerSet c)) 0
                ltac:(lia) ltac:(intros j lj Hj; lia))
      as [(i & Hscan & l & Hl & _) | (Hscan & _)];
      change (Z.of_nat 0) with 0 in Hscan; rewrite Hscan in He; injection He as <- <-.
    + inv_ok H. eapply Hnat, Hl.
    + apply int_rem_Ok in H as (_ & -> & _). apply Z.rem_bound_pos; lia.
  - apply SetWay_fifo_inv in H as (cur & Hc & _ & -> & _); [|exact Hp].
    apply at_index_Some in Hc as [_ Hc].
    apply (Forall_lookup_1 _ _ _ _ (Hcur eq_refl)) in Hc. apply Z.rem_bound_pos; lia.
  - rewrite (SetWay_unfold _ _ _ _ Hs), Hp in H.
    apply bind_Ok in H as (r' & c1 & Hr' & H).
    destruct (SetWay_lowest_start _ _ _ Hs Hlen Hn) as (r & l & Hscan & _ & Hl).
    rewrite Hscan in Hr'. injection Hr' as <- <-.
    apply bind_Ok in H as (u & c2 & _ & H). inv_ok H. eapply Hnat, Hl.
  - rewrite (SetWay_unfold _ _ _ _ Hs), Hp in H.
    apply bind_Ok in H as (r' & c1 & Hr' & H).
    destruct (SetWay_highest_start _ _ _ Hs Hlen Hn) as (r & l & Hscan & _ & Hl).
    rewrite Hscan in Hr'. injection Hr' as <- <-.
    apply bind_Ok in H as (u & c2 & _ & H). inv_ok H. eapply Hnat, Hl.
  - rewrite (SetWay_unfold _ _ _ _ Hs), Hp in H.
    apply bind_Ok in H as (r' & c1 & Hr' & H).
    destruct (SetWay_lowest_start _ _ _ Hs Hlen Hn) as (r & l & Hscan & _ & Hl).
    rewrite Hscan in Hr'. injection Hr' as <- <-.
    apply bind_Ok in H as (u & c2 & _ & H). inv_ok H. eapply Hnat, Hl.
  - rewrite (SetWay_unfold _ _ _ _ Hs), Hp in H.
    apply bind_Ok in H as (r' & c1 & Hr' & H).
    destruct (SetWay_highest_start _ _ _ Hs Hlen Hn) as (r & l & Hscan & _ & Hl).
    rewrite Hscan in Hr'. injection Hr' as <- <-.
    apply bind_Ok in H as (u & c2 & _ & H). inv_ok H. eapply Hnat, Hl.
Qed.

Lemma reachable_geometry numberOfCacheLines d tagSize' config' policy' c0 ops u c :
  1 <= numberOfCacheLines <= INT_MAX ->
  CreateCache numberOfCacheLines d tagSize' config' policy' = Ok c0 ->
  run ops c0 = Ok (u, c) ->
  0 < numberOfLinesPerSet c <= INT_MAX /\
  (policy c = fifo_RP -> cursors_in_range c) /\
  Z.of_nat (length (cacheLine c)) = numberOfSets c.
Proof.
  intros Hn Hcreate Hrun.
  pose proof (CreateCache_geometry _ _ _ _ _ _ Hcreate) as (Hlines & Hsets & Htable & Hcursors & Hmask).
  pose proof (CreateCache_fields _ _ _ _ _ _ Hcreate) as (_ & _ & Hp & _).
  assert (Hpos : 0 < numberOfLinesPerSet c0 <= INT_MAX).
  { rewrite Hlines. unfold INT_MAX in *. destruct config'; simpl; lia. }
  assert (Hlen0 : Z.of_nat (length (cacheLine c0)) = numberOfSets c0).
  { rewrite Htable, length_replicate, Hsets.
    destruct config'; simpl in *; try lia.
    - destruct Hmask as [H1 _]. apply Z2Nat.id, Z.quot_pos; lia.
    - destruct Hmask as [H1 _]. apply Z2Nat.id, Z.quot_pos; lia. }
  pose proof (run_shape _ _ _ _ Hrun) as Hshape.
  pose proof (shape_policy _ _ Hshape) as [Hp' Hn'].
  split; [lia|]. split.
  - intros Hfifo. eapply run_cursors_in_range; [| |exact Hrun]; [congruence|].
    unfold cursors_in_range. rewrite Hcursors. apply Forall_replicate. lia.
  - unfold unchanged, shape in Hshape. injection Hshape as Hl _ _ Hs' _ _ _ _ _ _.
    rewrite Hs', <- Hlen0. f_equal.
    rewrite <- (length_map length (cacheLine c)), Hl. apply length_map.
Qed.

(** X7: in every cache reached from [CreateCache] (at least one line) by a
    sequence of calls, the way that [SetWay] returns for an existing set is a
    way of that set, under every policy, as long as [rand()] is not
    negative. *)
Theorem victim_is_a_way numberOfCacheLines d tagSize' config' policy' c0 ops u c
    env setIndex s w c' :
  1 <= numberOfCacheLines <= INT_MAX ->
  CreateCache numberOfCacheLines d tagSize' config' policy' = Ok c0 ->
  run ops c0 = Ok (u, c) ->
  at_index (cacheLine c) setIndex = Some s ->
  0 <= rand env ->
  SetWay env setIndex c = Ok (w, c') ->
  0 <= w < numberOfLinesPerSet c /\ exists l, at_index s w = Some l.
Proof.
  intros Hn Hcreate Hrun Hs Hrand H.
  destruct (reachable_geometry _ _ _ _ _ _ _ _ _ Hn Hcreate Hrun) as (Hpos & Hfifo & _).
  destruct (reachable_well_formed _ _ _ _ _ _ _ _ _ Hcreate Hrun _ _ Hs) as [Hlen _].
  assert (Hw : 0 <= w < numberOfLinesPerSet c)
    by (eapply SetWay_way_in_range; eauto; lia).
  split; [exact Hw|].
  destruct (lookup_lt_is_Some_2 s (Z.to_nat w)) as [l Hl]; [lia|].
  exists l. apply at_index_Some. split; [lia | exact Hl].
Qed.

Lemma victim_is_a_way_witness :
  (1 <= 4 <= INT_MAX /\
   CreateCache 4 64 32 two_way mru_RP = Ok (two_way_4x64 mru_RP) /\
   run [(runtime_ok, Resolve 1 64 64)] (two_way_4x64 mru_RP) =
     Ok (tt, with_policy mru_RP two_way_lru_holding_64) /\
   at_index (cacheLine (with_policy mru_RP two_way_lru_holding_64)) 1 =
     Some [mkCacheLine true 64 (mkMetaData (-1) 1) (Some 4160); fresh_line] /\
   0 <= rand runtime_ok /\
   SetWay runtime_ok 1 (with_policy mru_RP two_way_lru_holding_64) =
     Ok (1, cache_after (SetWay runtime_ok 1) (with_policy mru_RP two_way_lru_holding_64))) /\
  0 <= 1 < numberOfLinesPerSet (with_policy mru_RP two_way_lru_holding_64) /\
  exists l, at_index [mkCacheLine true 64 (mkMetaData (-1) 1) (Some 4160); fresh_line] 1
            = Some l.
Proof.
  split.
  - split; [unfold INT_MAX; lia|]. repeat split; simpl; lia.
  - apply (victim_is_a_way 4 64 32 two_way mru_RP (two_way_4x64 mru_RP)
             [(runtime_ok, Resolve 1 64 64)] tt
             (with_policy mru_RP two_way_lru_holding_64) runtime_ok 1
             [mkCacheLine true 64 (mkMetaData (-1) 1) (Some 4160); fresh_line] 1
             (cache_after (SetWay runtime_ok 1) (with_policy mru_RP two_way_lru_holding_64)));
      try reflexivity; unfold INT_MAX; simpl; lia.
Defined.

(** * FIFO: the order of the victims *)

Lemma SetWay_fifo_eq env setIndex c s cur :
  policy c = fifo_RP ->
  at_index (cacheLine c) setIndex = Some s ->
  at_index (replacementLine c) setIndex = Some cur ->
  0 <= cur < INT_MAX -> 0 < numberOfLinesPerSet c ->
  SetWay env setIndex c =
    Ok ((cur + 1) mod numberOfLinesPerSet c,
        with_replacementLine
          (<[Z.to_nat setIndex := (cur + 1) mod numberOfLinesPerSet c]> (replacementLine c)) c).
Proof.
  intros Hp Hs Hcur Hrange Hn.
  rewrite (SetWay_unfold _ _ _ _ Hs), Hp.
  set (next := (cur + 1) mod numberOfLinesPerSet c).
  set (c1 := with_replacementLine (<[Z.to_nat setIndex := next]> (replacementLine c)) c).
  assert (H1 : load_cursor setIndex c = Ok (cur, c)) by now apply load_cursor_Ok.
  assert (H2 : int_add cur 1 c = Ok (cur + 1, c))
    by (apply int_add_Ok; unfold INT_MIN, INT_MAX in *; repeat split; lia).
  assert (H3 : int_rem (cur + 1) (numberOfLinesPerSet c) c = Ok (next, c)).
  { apply int_rem_Ok. unfold next. rewrite Z.rem_mod_nonneg by lia.
    repeat split; lia. }
  assert (H4 : store_cursor setIndex next c = Ok (tt, c1))
    by (apply store_cursor_Ok; eauto).
  rewrite (bind_eq _ _ _ _ _ H1), (bind_eq _ _ _ _ _ H2),
          (bind_eq _ _ _ _ _ H3), (bind_eq _ _ _ _ _ H4).
  apply load_cursor_Ok. split; [|reflexivity].
  simpl. eapply at_index_insert_eq, Hcur.
Qed.

(** X8: under [fifo_RP], successive calls of [SetWay] on one set walk
    through its ways in order, whatever the lines hold: started with the
    cursor at [cur], the [i]-th call (counted from 0) returns
    [(cur + i + 1) mod numberOfLinesPerSet], the cursor ends at
    [(cur + k) mod numberOfLinesPerSet] after [k] calls, and no line is
    touched. *)
Theorem fifo_round_robin env setIndex k c s cur :
  policy c = fifo_RP ->
  at_index (cacheLine c) setIndex = Some s ->
  at_index (replacementLine c) setIndex = Some cur ->
  0 <= cur < numberOfLinesPerSet c -> numberOfLinesPerSet c <= INT_MAX ->
  exists ways c',
    SetWay_times env setIndex k c = Ok (ways, c') /\
    length ways = k /\
    (forall i, (i < k)%nat ->
       ways !! i = Some ((cur + Z.of_nat i + 1) mod numberOfLinesPerSet c)) /\
    at_index (replacementLine c') setIndex =
      Some ((cur + Z.of_nat k) mod numberOfLinesPerSet c) /\
    cacheLine c' = cacheLine c.
Proof.
  revert c cur. induction k as [|k IH]; intros c cur Hp Hs Hcur Hrange Hmax.
  - exists [], c. simpl. repeat split; try lia.
    rewrite Z.add_0_r, Z.mod_small by lia. exact Hcur.
  - pose proof (SetWay_fifo_eq env _ _ _ _ Hp Hs Hcur ltac:(lia) ltac:(lia)) as Hstep.
    set (n := numberOfLinesPerSet c) in *.
    set (c1 := with_replacementLine (<[Z.to_nat setIndex := (cur + 1) mod n]>
                                       (replacementLine c)) c) in *.
    assert (Hnext : 0 <= (cur + 1) mod n < n) by (apply Z.mod_pos_bound; lia).
    destruct (IH c1 ((cur + 1) mod n)) as (ways & c' & Hrun & Hlen & Hways & Hend & Hlines);
      [exact Hp | exact Hs | simpl; eapply at_index_insert_eq, Hcur | exact Hnext
      | exact Hmax |].
    change (numberOfLinesPerSet c1) with n in *.
    exists ((cur + 1) mod n :: ways), c'. simpl SetWay_times.
    rewrite (bind_eq _ _ _ _ _ Hstep), (bind_eq _ _ _ _ _ Hrun).
    split; [reflexivity|]. split; [simpl; lia|]. split; [|split].
    + intros [|i] Hi; simpl.
      * do 2 f_equal. lia.
      * rewrite Hways by lia. f_equal.
        rewrite <- Z.add_assoc, Z.add_mod_idemp_l by lia. f_equal. lia.
    + rewrite Hend. f_equal. rewrite Z.add_mod_idemp_l by lia. f_equal. lia.
    + exact Hlines.
Qed.

Lemma fifo_round_robin_witness :
  (policy (two_way_4x64 fifo_RP) = fifo_RP /\
   at_index (cacheLine (two_way_4x64 fifo_RP)) 0 = Some [fresh_line; fresh_line] /\
   at_index (replacementLine (two_way_4x64 fifo_RP)) 0 = Some 0 /\
   0 <= 0 < numberOfLinesPerSet (two_way_4x64 fifo_RP) /\
   numberOfLinesPerSet (two_way_4x64 fifo_RP) <= INT_MAX) /\
  exists ways c',
    SetWay_times runtime_ok 0 3 (two_way_4x64 fifo_RP) = Ok (ways, c') /\
    length ways = 3%nat /\
    (forall i, (i < 3)%nat ->
       ways !! i = Some ((0 + Z.of_nat i + 1) mod numberOfLinesPerSet (two_way_4x64 fifo_RP))) /\
    at_index (replacementLine c') 0 =
      Some ((0 + Z.of_nat 3) mod numberOfLinesPerSet (two_way_4x64 fifo_RP)) /\
    cacheLine c' = cacheLine (two_way_4x64 fifo_RP).
Proof.
  split; [repeat split; unfold INT_MAX; simpl; lia|].
  apply (fifo_round_robin runtime_ok 0 3 (two_way_4x64 fifo_RP)
           [fresh_line; fresh_line] 0);
    try reflexivity; unfold INT_MAX; simpl; lia.
Defined.

(** * A line after its creation *)

Lemma same_content_lookup (s s1 : list CacheLine_t) j l :
  map content s1 = map content s -> s !! j = Some l ->
  exists l1, s1 !! j = Some l1 /\ content l1 = content l.
Proof.
  intros Hmap Hl.
  assert (H : map content s1 !! j = Some (content l)).
  { rewrite Hmap. change (map content s) with (content <$> s).
    now rewrite list_lookup_fmap, Hl. }
  change (map content s1) with (content <$> s1) in H.
  rewrite list_lookup_fmap in H.
  destruct (s1 !! j) as [l1|]; [|discriminate].
  cbn in H. exists l1. split; [reflexivity | congruence].
Qed.

Lemma holds_content hostAddress l l' :
  content l = content l' -> holds hostAddress l = holds hostAddress l'.
Proof. unfold content, holds. now intros [= -> -> _]. Qed.

Lemma none_between_content hostAddress (s s1 : list CacheLine_t) k k' :
  map content s1 = map content s ->
  none_between hostAddress s k k' -> none_between hostAddress s1 k k'.
Proof.
  intros Hmap Hnone j Hj. destruct (Hnone j Hj) as (l & Hl & Hh).
  destruct (same_content_lookup _ _ _ _ Hmap Hl) as (l1 & Hl1 & Hc).
  exists l1. split; [exact Hl1|]. now rewrite (holds_content _ _ _ Hc).
Qed.

Lemma same_contents_set c c1 setIndex s :
  contents c1 = contents c -> at_index (cacheLine c) setIndex = Some s ->
  exists s1, at_index (cacheLine c1) setIndex = Some s1 /\
             map content s1 = map content s.
Proof.
  unfold contents. intros Hc [Hi Hs]%at_index_Some.
  assert (H : map (map content) (cacheLine c1) !! Z.to_nat setIndex =
              Some (map content s)).
  { rewrite Hc. change (map (map content) (cacheLine c))
      with (map content <$> cacheLine c).
    now rewrite list_lookup_fmap, Hs. }
  change (map (map content) (cacheLine c1)) with (map content <$> cacheLine c1) in H.
  rewrite list_lookup_fmap in H.
  destruct (cacheLine c1 !! Z.to_nat setIndex) as [s1|] eqn:Hs1; [|discriminate].
  cbn in H. exists s1. split; [|congruence].
  apply at_index_Some. auto.
Qed.

Lemma SetWay_contents env setIndex : preserves (unchanged contents) (SetWay env setIndex).
Proof.
  apply preserves_SetWay; [typeclasses eauto | |].
  - apply contents_metadata_closed.
  - apply contents_cursor_closed.
Qed.

Lemma same_content_length (s s1 : list CacheLine_t) :
  map content s1 = map content s -> length s1 = length s.
Proof. intros H. now rewrite <- (length_map content s1), H, length_map. Qed.

(** The line that a completed [clCreateCacheBuffer] leaves for its address:
    the first way of the set that holds the address, with the returned
    buffer. *)
Lemma clCreateCacheBuffer_first_match env flags size hostAddress c res c' s0 :
  clCreateCacheBuffer env flags size hostAddress c = Ok (res, c') ->
  at_index (cacheLine c) (GetIndex (indexBitMask c) (addressBitShift c) hostAddress)
    = Some s0 ->
  length s0 = Z.to_nat (numberOfLinesPerSet c) ->
  exists (w : nat) s l,
    at_index (cacheLine c') (GetIndex (indexBitMask c) (addressBitShift c) hostAddress)
      = Some s /\
    s !! w = Some l /\ holds hostAddress l = true /\ deviceData l = buffer res /\
    length s = length s0 /\
    (config c = direct_mapped -> w = 0%nat) /\
    (config c <> direct_mapped -> none_between hostAddress s 0 w).
Proof.
  intros H Hs0 Hlen.
  set (setIndex := GetIndex (indexBitMask c) (addressBitShift c) hostAddress) in *.
  apply clCreateCacheBuffer_inv in H as (w & c1 & Hway & H). fold setIndex in Hway, H.
  pose proof (GetWay_contents _ _ _ _ _ Hway) as Hc1.
  destruct (same_contents_set _ _ _ _ Hc1 Hs0) as (s1 & Hs1 & Hmap1).
  (* what the lookup found *)
  assert (Hfound :
    (config c = direct_mapped /\ w = 0) \/
    (config c <> direct_mapped /\
     ((w = -1 /\ none_between hostAddress s0 0 (length s0)) \/
      (exists w' l0, w = Z.of_nat w' /\ s0 !! w' = Some l0 /\
                     holds hostAddress l0 = true /\ none_between hostAddress s0 0 w')))).
  { destruct (decide (config c = direct_mapped)) as [Hc|Hc].
    - left. split; [exact Hc|].
      rewrite (GetWay_direct_mapped _ _ _ _ Hc Hs0) in Hway. now injection Hway.
    - right. split; [exact Hc|].
      rewrite (GetWay_associative _ _ _ _ Hc Hs0), <- Hlen in Hway.
      apply (GetWay_scan_inv hostAddress setIndex c s0 Hs0 _ 0%nat) in Hway
        as [(-> & _ & Hnone) | (w' & l0 & -> & _ & Hl0 & Hh & Hnone)].
      + left. auto.
      + right. eauto 10. }
  destruct H as [(_ & s & l & Hs & Hl & Hh & -> & ->) |
                 (w' & c2 & s & l & Hset & Hs & Hl & -> & ->)].
  - (* the line that was found is returned *)
    rewrite Hs1 in Hs. injection Hs as <-.
    apply at_index_Some in Hl as [Hw Hl].
    exists (Z.to_nat w), s1, l. simpl.
    split; [exact Hs1|]. split; [exact Hl|]. split; [exact Hh|]. split; [reflexivity|].
    split; [now apply same_content_length|].
    destruct Hfound as [[Hc ->] | [Hc [[-> _] | (w' & l0 & -> & _ & _ & Hnone)]]].
    + split; [reflexivity | contradiction].
    + lia.
    + split; [contradiction|]. intros _. rewrite Nat2Z.id.
      eapply none_between_content; eassumption.
  - (* a line is populated *)
    assert (Hc2 : unchanged contents c1 c2).
    { destruct (w =? -1); [eapply SetWay_contents, Hset | inv_ok Hset; reflexivity]. }
    assert (Hc12 : contents c2 = contents c) by (unfold unchanged in *; congruence).
    destruct (same_contents_set _ _ _ _ Hc12 Hs0) as (s2 & Hs2 & Hmap2).
    rewrite Hs2 in Hs. injection Hs as <-.
    apply at_index_Some in Hl as [Hw Hl].
    set (mem := fst (clCreateBuffer env (create_flags flags hostAddress)
                       (dataSize c2) hostAddress)).
    exists (Z.to_nat w'), (<[Z.to_nat w' := populated hostAddress mem l]> s2),
           (populated hostAddress mem l). simpl.
    split; [eapply at_index_insert_eq, Hs2|].
    split; [apply list_lookup_insert_eq; eapply lookup_lt_Some, Hl|].
    split; [unfold holds; simpl; now rewrite Z.eqb_refl|].
    split; [reflexivity|].
    split; [rewrite length_insert; now apply same_content_length|].
    assert (Hkeep : forall k, (k <= Z.to_nat w')%nat ->
              none_between hostAddress s0 0 k ->
              none_between hostAddress
                (<[Z.to_nat w' := populated hostAddress mem l]> s2) 0 k).
    { intros k Hk Hnone j Hj.
      destruct (none_between_content _ _ _ _ _ Hmap2 Hnone j Hj) as (lj & Hlj & Hhj).
      exists lj. split; [|exact Hhj].
      rewrite list_lookup_insert_ne by lia. exact Hlj. }
    destruct Hfound as [[Hc ->] | [Hc [[-> Hnone] | (w0 & l0 & -> & _ & _ & Hnone)]]].
    + simpl in Hset. inv_ok Hset. split; [reflexivity | contradiction].
    + split; [contradiction|]. intros _. apply Hkeep; [lia|].
      intros j Hj. apply Hnone. apply lookup_lt_Some in Hl.
      rewrite (same_content_length _ _ Hmap2) in Hl. lia.
    + split; [contradiction|]. intros _.
      assert (Hne : (Z.of_nat w0 =? -1) = false) by (apply Z.eqb_neq; lia).
      rewrite Hne in Hset. inv_ok Hset.
      apply Hkeep; [lia | rewrite Nat2Z.id; exact Hnone].
Qed.

Lemma shape_fields c c' :
  unchanged shape c c' ->
  config c' = config c /\ numberOfLinesPerSet c' = numberOfLinesPerSet c /\
  dataSize c' = dataSize c /\ indexBitMask c' = indexBitMask c /\
  addressBitShift c' = addressBitShift c.
Proof. unfold unchanged, shape. intros [= _ _ Hn _ Hc _ Hd _ Hm Hs]. auto. Qed.

Lemma GetWay_hit_returns setIndex way c s l :
  at_index (cacheLine c) setIndex = Some s -> at_index s way = Some l ->
  bookkeeping_in_range c setIndex s ->
  exists c', GetWay_hit setIndex way c = Ok (tt, c').
Proof.
  intros Hs Hl Hb. unfold bookkeeping_in_range in Hb.
  destruct (policy c) eqn:Hp.
  - eexists. apply GetWay_hit_none. auto.
  - eexists. apply GetWay_hit_none. auto.
  - destruct Hb as (cur & Hcur & Hr). eexists. eapply GetWay_hit_stamp; eauto.
  - destruct Hb as (cur & Hcur & Hr). eexists. eapply GetWay_hit_stamp; eauto.
  - pose proof Hl as [_ Hl']%at_index_Some.
    eexists. eapply GetWay_hit_count; eauto.
  - pose proof Hl as [_ Hl']%at_index_Some.
    eexists. eapply GetWay_hit_count; eauto.
Qed.

(** The lookup of an address whose first holder in its set is way [w]. *)
Lemma GetWay_first_match hostAddress setIndex c s w l :
  at_index (cacheLine c) setIndex = Some s -> s !! w = Some l ->
  holds hostAddress l = true -> (w < Z.to_nat (numberOfLinesPerSet c))%nat ->
  (config c = direct_mapped -> w = 0%nat) ->
  (config c <> direct_mapped -> none_between hostAddress s 0 w) ->
  (forall w2 c2, GetWay hostAddress setIndex c = Ok (w2, c2) -> w2 = Z.of_nat w) /\
  (bookkeeping_in_range c setIndex s ->
   exists c2, GetWay hostAddress setIndex c = Ok (Z.of_nat w, c2)).
Proof.
  intros Hs Hl Hh Hw Hdm Hnone.
  destruct (decide (config c = direct_mapped)) as [Hc|Hc].
  - rewrite (GetWay_direct_mapped _ _ _ _ Hc Hs), (Hdm Hc). split.
    + now intros w2 c2 [= <- _].
    + eauto.
  - rewrite (GetWay_associative _ _ _ _ Hc Hs).
    change (GetWay_scan hostAddress setIndex (Z.to_nat (numberOfLinesPerSet c)) 0 c)
      with (GetWay_scan hostAddress setIndex (Z.to_nat (numberOfLinesPerSet c))
              (Z.of_nat 0) c).
    rewrite (GetWay_scan_hit hostAddress setIndex c s Hs _ 0%nat w l); auto; [|lia].
    split.
    + intros w2 c2 H. apply bind_Ok in H as (u & c1 & _ & H). now inv_ok H.
    + intros Hb.
      destruct (GetWay_hit_returns setIndex (Z.of_nat w) c s l Hs) as [c2 H2];
        [now rewrite at_index_of_nat | exact Hb |].
      exists c2. now rewrite (bind_eq _ _ _ _ _ H2).
Qed.

(** A lookup keeps the valid flag, the tag and the buffer of every line. *)
Lemma GetWay_keeps_line hostAddress setIndex' c w2 c2 setIndex s j l :
  GetWay hostAddress setIndex' c = Ok (w2, c2) ->
  at_index (cacheLine c) setIndex = Some s -> s !! j = Some l ->
  exists s2 l2, at_index (cacheLine c2) setIndex = Some s2 /\ s2 !! j = Some l2 /\
                content l2 = content l.
Proof.
  intros Hway Hs Hl.
  destruct (same_contents_set _ _ _ _ (GetWay_contents _ _ _ _ _ Hway) Hs)
    as (s2 & Hs2 & Hmap).
  destruct (same_content_lookup _ _ _ _ Hmap Hl) as (l2 & Hl2 & Hc).
  eauto.
Qed.

(** After a completed [clCreateCacheBuffer] for an address, the lookup of
    that address finds a line that holds it, with the buffer that the call
    returned; and the lookup completes when its bookkeeping stays within
    [int]. *)
Lemma lookup_after_create env flags size hostAddress c res c' s0 :
  clCreateCacheBuffer env flags size hostAddress c = Ok (res, c') ->
  at_index (cacheLine c) (GetIndex (indexBitMask c) (addressBitShift c) hostAddress)
    = Some s0 ->
  length s0 = Z.to_nat (numberOfLinesPerSet c) ->
  (forall w2 c2,
     GetWay hostAddress (GetIndex (indexBitMask c) (addressBitShift c) hostAddress) c'
       = Ok (w2, c2) ->
     exists s2 l2,
       at_index (cacheLine c2) (GetIndex (indexBitMask c) (addressBitShift c) hostAddress)
         = Some s2 /\
       at_index s2 w2 = Some l2 /\ holds hostAddress l2 = true /\
       deviceData l2 = buffer res) /\
  ((forall s, at_index (cacheLine c')
                (GetIndex (indexBitMask c) (addressBitShift c) hostAddress) = Some s ->
              bookkeeping_in_range c'
                (GetIndex (indexBitMask c) (addressBitShift c) hostAddress) s) ->
   exists w2 c2,
     GetWay hostAddress (GetIndex (indexBitMask c) (addressBitShift c) hostAddress) c'
       = Ok (w2, c2)).
Proof.
  intros H Hs0 Hlen.
  destruct (clCreateCacheBuffer_first_match _ _ _ _ _ _ _ _ H Hs0 Hlen)
    as (w & s & l & Hs & Hl & Hh & Hd & Hlen' & Hdm & Hnone).
  destruct (shape_fields _ _ (clCreateCacheBuffer_shape _ _ _ _ _ _ _ H))
    as (Hc & Hn & _).
  destruct (GetWay_first_match hostAddress _ c' s w l Hs Hl Hh) as [Hpart Htot].
  { rewrite Hn, <- Hlen, <- Hlen'. eapply lookup_lt_Some, Hl. }
  { now rewrite Hc. }
  { now rewrite Hc. }
  split.
  - intros w2 c2 Hway. rewrite (Hpart _ _ Hway).
    destruct (GetWay_keeps_line _ _ _ _ _ _ _ _ _ Hway Hs Hl) as (s2 & l2 & Hs2 & Hl2 & Hcont).
    exists s2, l2. split; [exact Hs2|]. split; [now rewrite at_index_of_nat|].
    split; [now rewrite (holds_content _ _ _ Hcont)|].
    rewrite <- Hd. unfold content in Hcont. congruence.
  - intros Hb. destruct (Htot (Hb _ Hs)) as [c2 H2]. eauto.
Qed.

Lemma read_back_hit_eq env blocking_read offset size hostAddress c w c1 s l :
  GetWay hostAddress (GetIndex (indexBitMask c) (addressBitShift c) hostAddress) c
    = Ok (w, c1) ->
  at_index (cacheLine c1) (GetIndex (indexBitMask c) (addressBitShift c) hostAddress)
    = Some s ->
  at_index s w = Some l -> holds hostAddress l = true ->
  INT_MIN <= memCopies c1 + 1 <= INT_MAX ->
  INT_MIN <= ReadTransfers c1 + 1 <= INT_MAX ->
  clEnqueueReadCacheBuffer env blocking_read offset size hostAddress c =
    Ok (mkReadBack 0
          [ReadBuffer (deviceData l) blocking_read offset (dataSize c1) hostAddress],
        with_ReadTransfers (ReadTransfers c1 + 1)
          (with_memCopies (memCopies c1 + 1) c1)).
Proof.
  intros Hway Hs Hl Hh Hm Hr.
  set (setIndex := GetIndex (indexBitMask c) (addressBitShift c) hostAddress) in *.
  assert (Hload : load_line setIndex w c1 = Ok (l, c1))
    by (apply load_line_Ok; eauto).
  unfold clEnqueueReadCacheBuffer.
  rewrite (bind_eq _ _ c (indexBitMask c) c) by reflexivity.
  rewrite (bind_eq _ _ c (addressBitShift c) c) by reflexivity.
  fold setIndex. rewrite (bind_eq _ _ _ _ _ Hway), (bind_eq _ _ _ _ _ Hload).
  unfold holds in Hh. rewrite Hh.
  rewrite (bind_eq _ _ c1 (dataSize c1) c1) by reflexivity.
  rewrite (bind_eq _ _ c1 tt (with_memCopies (memCopies c1 + 1) c1))
    by now apply increment_Ok.
  rewrite (bind_eq _ _ _ tt (with_ReadTransfers (ReadTransfers c1 + 1)
                               (with_memCopies (memCopies c1 + 1) c1)))
    by now apply increment_Ok.
  reflexivity.
Qed.

Lemma create_hit_eq env flags size hostAddress c w c1 s l :
  GetWay hostAddress (GetIndex (indexBitMask c) (addressBitShift c) hostAddress) c
    = Ok (w, c1) ->
  at_index (cacheLine c1) (GetIndex (indexBitMask c) (addressBitShift c) hostAddress)
    = Some s ->
  at_index s w = Some l -> holds hostAddress l = true ->
  has_flag flags CL_MEM_COPY_HOST_PTR = true ->
  clCreateCacheBuffer env flags size hostAddress c =
    Ok (mkCreated (deviceData l) None [], c1).
Proof.
  intros Hway Hs Hl Hh Hflag.
  set (setIndex := GetIndex (indexBitMask c) (addressBitShift c) hostAddress) in *.
  assert (Hload : load_line setIndex w c1 = Ok (l, c1))
    by (apply load_line_Ok; eauto).
  unfold clCreateCacheBuffer.
  rewrite (bind_eq _ _ c (indexBitMask c) c) by reflexivity.
  rewrite (bind_eq _ _ c (addressBitShift c) c) by reflexivity.
  fold setIndex. rewrite (bind_eq _ _ _ _ _ Hway). rewrite Hflag.
  rewrite (bind_eq _ _ c1 (holds hostAddress l) c1)
    by (rewrite (bind_eq _ _ _ _ _ Hload); reflexivity).
  rewrite Hh. now rewrite (bind_eq _ _ _ _ _ Hload).
Qed.

(** X9: round trip.  After a completed [clCreateCacheBuffer] for a host
    address (whatever its flags), on a cache whose set for that address has
    [numberOfLinesPerSet] lines, a [clEnqueueReadCacheBuffer] of the same
    address that completes returns 0 and makes exactly one call,
    [clEnqueueReadBuffer] on the buffer that the first call returned, with
    the cache's [dataSize] as size; and it does complete when [memCopies],
    [ReadTransfers] and the bookkeeping of the lookup stay within [int]. *)
Theorem read_back_after_create env env' flags size blocking_read offset size'
    hostAddress c res c' s0 :
  clCreateCacheBuffer env flags size hostAddress c = Ok (res, c') ->
  at_index (cacheLine c) (GetIndex (indexBitMask c) (addressBitShift c) hostAddress)
    = Some s0 ->
  length s0 = Z.to_nat (numberOfLinesPerSet c) ->
  (forall rb c'',
     clEnqueueReadCacheBuffer env' blocking_read offset size' hostAddress c'
       = Ok (rb, c'') ->
     rb = mkReadBack 0
            [ReadBuffer (buffer res) blocking_read offset (dataSize c) hostAddress]) /\
  (0 <= memCopies c' < INT_MAX -> 0 <= ReadTransfers c' < INT_MAX ->
   (forall s, at_index (cacheLine c')
                (GetIndex (indexBitMask c) (addressBitShift c) hostAddress) = Some s ->
              bookkeeping_in_range c'
                (GetIndex (indexBitMask c) (addressBitShift c) hostAddress) s) ->
   exists c'',
     clEnqueueReadCacheBuffer env' blocking_read offset size' hostAddress c' =
       Ok (mkReadBack 0
             [ReadBuffer (buffer res) blocking_read offset (dataSize c) hostAddress],
           c'')).
Proof.
  intros H Hs0 Hlen.
  destruct (lookup_after_create _ _ _ _ _ _ _ _ H Hs0 Hlen) as [Hpart Htot].
  destruct (shape_fields _ _ (clCreateCacheBuffer_shape _ _ _ _ _ _ _ H))
    as (_ & _ & Hd & Hm & Hsh).
  assert (Hgo : forall w2 c2,
    GetWay hostAddress (GetIndex (indexBitMask c) (addressBitShift c) hostAddress) c'
      = Ok (w2, c2) ->
    INT_MIN <= memCopies c' + 1 <= INT_MAX ->
    INT_MIN <= ReadTransfers c' + 1 <= INT_MAX ->
    exists c'',
      clEnqueueReadCacheBuffer env' blocking_read offset size' hostAddress c' =
        Ok (mkReadBack 0
              [ReadBuffer (buffer res) blocking_read offset (dataSize c) hostAddress],
            c'')).
  { intros w2 c2 Hway Hmc Hrt.
    destruct (Hpart _ _ Hway) as (s2 & l2 & Hs2 & Hl2 & Hh2 & Hd2).
    destruct (counters_eq _ _ (GetWay_counters _ _ _ _ _ Hway)) as (Em & Er & _).
    pose proof (GetWay_dataSize _ _ _ _ _ Hway) as Ed. unfold unchanged in Ed.
    rewrite <- Hm, <- Hsh in Hway, Hs2.
    eexists.
    rewrite (read_back_hit_eq env' blocking_read offset size' hostAddress c' w2 c2 s2 l2
               Hway Hs2 Hl2 Hh2) by (rewrite ?Em, ?Er; assumption).
    rewrite Hd2, Ed, Hd. reflexivity. }
  split.
  - intros rb c'' H2.
    pose proof H2 as (w & c1 & s & l & Hway & Hs & Hl & Hcase)%clEnqueueReadCacheBuffer_inv.
    rewrite Hm, Hsh in Hway, Hs.
    destruct (Hpart _ _ Hway) as (s2 & l2 & Hs2 & Hl2 & Hh2 & Hd2).
    rewrite Hs in Hs2. injection Hs2 as <-. rewrite Hl in Hl2. injection Hl2 as <-.
    destruct Hcase as [(_ & -> & _) | (Hmiss & _)]; [|congruence].
    pose proof (GetWay_dataSize _ _ _ _ _ Hway) as Ed. unfold unchanged in Ed.
    now rewrite Hd2, Ed, Hd.
  - intros Hmc Hrt Hb. destruct (Htot Hb) as (w2 & c2 & Hway).
    apply (Hgo w2 c2 Hway); unfold INT_MIN; lia.
Qed.

Lemma read_back_after_create_witness :
  (clCreateCacheBuffer runtime_ok 1 64 64 (two_way_4x64 lru_RP) =
     Ok (mkCreated (Some 4160) (Some 0) [CreateBuffer 33 64 64], two_way_lru_holding_64) /\
   at_index (cacheLine (two_way_4x64 lru_RP)) (GetIndex 1 6 64) =
     Some [fresh_line; fresh_line] /\
   length [fresh_line; fresh_line] = Z.to_nat 2) /\
  exists c'',
    clEnqueueReadCacheBuffer runtime_failing 1 0 64 64 two_way_lru_holding_64 =
      Ok (mkReadBack 0 [ReadBuffer (Some 4160) 1 0 64 64], c'').
Proof.
  split; [repeat split|].
  refine (proj2 (read_back_after_create runtime_ok runtime_failing 1 64 1 0 64 64
                   (two_way_4x64 lru_RP)
                   (mkCreated (Some 4160) (Some 0) [CreateBuffer 33 64 64])
                   two_way_lru_holding_64 [fresh_line; fresh_line]
                   eq_refl eq_refl eq_refl) _ _ _).
  - vm_compute. split; [discriminate | reflexivity].
  - vm_compute. split; [discriminate | reflexivity].
  - intros s _. exists 1. split; [reflexivity|]. vm_compute. split; discriminate.
Defined.

(** X10: one buffer per address.  After a completed [clCreateCacheBuffer]
    for a host address, a second [clCreateCacheBuffer] for the same address
    with [CL_MEM_COPY_HOST_PTR] in its flags that completes returns the
    buffer of the first call, makes no call to the runtime, leaves
    [*errorcode_ret] unwritten, and changes no counter and no line's valid
    flag, tag or buffer; it completes when the bookkeeping of the lookup
    stays within [int]. *)
Theorem create_again_returns_same_buffer env env' flags size flags' size'
    hostAddress c res c' s0 :
  clCreateCacheBuffer env flags size hostAddress c = Ok (res, c') ->
  at_index (cacheLine c) (GetIndex (indexBitMask c) (addressBitShift c) hostAddress)
    = Some s0 ->
  length s0 = Z.to_nat (numberOfLinesPerSet c) ->
  has_flag flags' CL_MEM_COPY_HOST_PTR = true ->
  (forall res2 c'',
     clCreateCacheBuffer env' flags' size' hostAddress c' = Ok (res2, c'') ->
     res2 = mkCreated (buffer res) None [] /\
     counters c'' = counters c' /\ contents c'' = contents c') /\
  ((forall s, at_index (cacheLine c')
                (GetIndex (indexBitMask c) (addressBitShift c) hostAddress) = Some s ->
              bookkeeping_in_range c'
                (GetIndex (indexBitMask c) (addressBitShift c) hostAddress) s) ->
   exists c'',
     clCreateCacheBuffer env' flags' size' hostAddress c' =
       Ok (mkCreated (buffer res) None [], c'')).
Proof.
  intros H Hs0 Hlen Hflag.
  destruct (lookup_after_create _ _ _ _ _ _ _ _ H Hs0 Hlen) as [Hpart Htot].
  destruct (shape_fields _ _ (clCreateCacheBuffer_shape _ _ _ _ _ _ _ H))
    as (_ & _ & _ & Hm & Hsh).
  assert (Hgo : forall w2 c2,
    GetWay hostAddress (GetIndex (indexBitMask c) (addressBitShift c) hostAddress) c'
      = Ok (w2, c2) ->
    clCreateCacheBuffer env' flags' size' hostAddress c' =
      Ok (mkCreated (buffer res) None [], c2)).
  { intros w2 c2 Hway.
    destruct (Hpart _ _ Hway) as (s2 & l2 & Hs2 & Hl2 & Hh2 & Hd2).
    rewrite <- Hm, <- Hsh in Hway, Hs2.
    rewrite (create_hit_eq env' flags' size' hostAddress c' w2 c2 s2 l2
               Hway Hs2 Hl2 Hh2 Hflag).
    now rewrite Hd2. }
  split.
  - intros res2 c'' H2.
    pose proof H2 as (w & c1 & Hway & _)%clCreateCacheBuffer_inv.
    rewrite Hm, Hsh in Hway.
    rewrite (Hgo _ _ Hway) in H2. injection H2 as <- <-.
    split; [reflexivity|]. split.
    + exact (GetWay_counters _ _ _ _ _ Hway).
    + exact (GetWay_contents _ _ _ _ _ Hway).
  - intros Hb. destruct (Htot Hb) as (w2 & c2 & Hway). eauto.
Qed.

Lemma create_again_returns_same_buffer_witness :
  (clCreateCacheBuffer runtime_ok 1 64 64 (two_way_4x64 lru_RP) =
     Ok (mkCreated (Some 4160) (Some 0) [CreateBuffer 33 64 64], two_way_lru_holding_64) /\
   at_index (cacheLine (two_way_4x64 lru_RP)) (GetIndex 1 6 64) =
     Some [fresh_line; fresh_line] /\
   length [fresh_line; fresh_line] = Z.to_nat 2 /\
   has_flag 33 CL_MEM_COPY_HOST_PTR = true) /\
  exists c'',
    clCreateCacheBuffer runtime_failing 33 64 64 two_way_lru_holding_64 =
      Ok (mkCreated (Some 4160) None [], c'').
Proof.
  split; [repeat split|].
  refine (proj2 (create_again_returns_same_buffer runtime_ok runtime_failing 1 64 33 64 64
                   (two_way_4x64 lru_RP)
                   (mkCreated (Some 4160) (Some 0) [CreateBuffer 33 64 64])
                   two_way_lru_holding_64 [fresh_line; fresh_line]
                   eq_refl eq_refl eq_refl eq_refl) _).
  intros s _. exists 1. split; [reflexivity|]. vm_compute. split; discriminate.
Defined.

(** * The table over sequences of calls *)

(** What a completed [clCreateCacheBuffer] does to the table: nothing, or
    one line of the set of its address becomes valid with that address and
    the new buffer; the line is way 0 in a direct-mapped cache, and otherwise
    the line that held the address or, when no line of the set did, the
    victim. *)
Lemma clCreateCacheBuffer_table env flags size hostAddress c res c' s0 :
  clCreateCacheBuffer env flags size hostAddress c = Ok (res, c') ->
  at_index (cacheLine c) (GetIndex (indexBitMask c) (addressBitShift c) hostAddress)
    = Some s0 ->
  contents c' = contents c \/
  exists (w : nat) l0 mem,
    s0 !! w = Some l0 /\
    contents c' =
      <[Z.to_nat (GetIndex (indexBitMask c) (addressBitShift c) hostAddress) :=
          <[w := (true, hostAddress, Some mem)]> (map content s0)]> (contents c) /\
    buffer res = Some mem /\
    (config c = direct_mapped -> w = 0%nat) /\
    (config c <> direct_mapped ->
     holds hostAddress l0 = true \/
     none_between hostAddress s0 0 (Z.to_nat (numberOfLinesPerSet c))).
Proof.
  intros H Hs0.
  set (setIndex := GetIndex (indexBitMask c) (addressBitShift c) hostAddress) in *.
  apply clCreateCacheBuffer_inv in H as (w & c1 & Hway & H). fold setIndex in Hway, H.
  pose proof (GetWay_contents _ _ _ _ _ Hway) as Hc1.
  assert (Hfound :
    (config c = direct_mapped /\ w = 0) \/
    (config c <> direct_mapped /\
     ((w = -1 /\ none_between hostAddress s0 0 (Z.to_nat (numberOfLinesPerSet c))) \/
      (exists w' l0, w = Z.of_nat w' /\ s0 !! w' = Some l0 /\
                     holds hostAddress l0 = true)))).
  { destruct (decide (config c = direct_mapped)) as [Hc|Hc].
    - left. split; [exact Hc|].
      rewrite (GetWay_direct_mapped _ _ _ _ Hc Hs0) in Hway. now injection Hway.
    - right. split; [exact Hc|].
      rewrite (GetWay_associative _ _ _ _ Hc Hs0) in Hway.
      apply (GetWay_scan_inv hostAddress setIndex c s0 Hs0 _ 0%nat) in Hway
        as [(-> & _ & Hnone) | (w' & l0 & -> & _ & Hl0 & Hh & _)].
      + left. auto.
      + right. eauto 10. }
  destruct H as [(_ & s & l & Hs & Hl & Hh & -> & ->) |
                 (w' & c2 & s & l & Hset & Hs & Hl & -> & ->)].
  - left. exact Hc1.
  - right.
    assert (Hc2 : unchanged contents c1 c2).
    { destruct (w =? -1); [eapply SetWay_contents, Hset | inv_ok Hset; reflexivity]. }
    assert (Hc12 : contents c2 = contents c) by (unfold unchanged in *; congruence).
    destruct (same_contents_set _ _ _ _ Hc12 Hs0) as (s2 & Hs2 & Hmap2).
    rewrite Hs2 in Hs. injection Hs as <-.
    apply at_index_Some in Hl as [Hw Hl].
    destruct (same_content_lookup _ _ _ _ (eq_sym Hmap2) Hl) as (l0 & Hl0 & Hcont).
    set (mem := fst (clCreateBuffer env (create_flags flags hostAddress)
                       (dataSize c2) hostAddress)).
    exists (Z.to_nat w'), l0, mem.
    split; [exact Hl0|]. split.
    { unfold contents. simpl.
      change (map (map content)) with (fmap (M:=list) (map content)).
      rewrite list_fmap_insert. f_equal.
      - change (map content) with (fmap (M:=list) content).
        rewrite list_fmap_insert. f_equal. exact Hmap2.
      - exact Hc12. }
    split; [reflexivity|].
    destruct Hfound as [[Hc ->] | [Hc [[-> Hnone] | (w0 & l0' & -> & Hl0' & Hh)]]].
    + simpl in Hset. inv_ok Hset. split; [reflexivity | contradiction].
    + split; [contradiction | auto].
    + split; [contradiction|]. intros _. left.
      assert (Hne : (Z.of_nat w0 =? -1) = false) by (apply Z.eqb_neq; lia).
      rewrite Hne in Hset. inv_ok Hset. rewrite Nat2Z.id in Hl0. congruence.
Qed.

Lemma clEnqueueReadCacheBuffer_contents env blocking_read offset size hostAddress :
  preserves (unchanged contents)
    (clEnqueueReadCacheBuffer env blocking_read offset size hostAddress).
Proof.
  intros c res c' H.
  apply clEnqueueReadCacheBuffer_inv in H as (w & c1 & s & l & Hway & _ & _ & H).
  apply GetWay_contents in Hway.
  destruct H as [(_ & _ & ->) | (_ & _ & ->)]; exact Hway.
Qed.

Lemma well_formed_set c setIndex s :
  well_formed c -> at_index (cacheLine c) setIndex = Some s ->
  length s = Z.to_nat (numberOfLinesPerSet c).
Proof.
  intros [_ Hall] [_ Hs]%at_index_Some.
  eapply (Forall_lookup_1 _ _ (Z.to_nat setIndex)) in Hall; [exact Hall|].
  change (map length) with (fmap (M:=list) (length (A:=CacheLine_t))).
  now rewrite list_lookup_fmap, Hs.
Qed.

(** A property of well-formed caches that every completed call keeps holds
    after every completed run. *)
Lemma run_invariant (I : Cache_t -> Prop) :
  (forall env op c u c',
     well_formed c -> I c -> step env op c = Ok (u, c') -> I c') ->
  forall ops c u c',
    well_formed c -> I c -> run ops c = Ok (u, c') -> I c'.
Proof.
  intros Hstep ops. induction ops as [|[env op] ops IH]; intros c u c' Hwf HI H.
  - simpl in H. inv_ok H. exact HI.
  - simpl in H. apply bind_Ok in H as (u1 & c1 & H1 & H).
    apply (IH c1 u c'); [| |exact H].
    + eapply well_formed_shape; [eapply step_shape, H1 | exact Hwf].
    + eapply Hstep; eassumption.
Qed.

Lemma step_Ok env op c u c' :
  step env op c = Ok (u, c') ->
  match op with
  | Resolve flags size hostAddress =>
      exists res, clCreateCacheBuffer env flags size hostAddress c = Ok (res, c')
  | ReadBackOp blocking_read offset size hostAddress =>
      exists res,
        clEnqueueReadCacheBuffer env blocking_read offset size hostAddress c = Ok (res, c')
  end.
Proof.
  destruct op; simpl; intros H; apply bind_Ok in H as (res & c1 & H1 & H);
    inv_ok H; eauto.
Qed.

Lemma CreateCache_contents numberOfCacheLines d tagSize' config' policy' c :
  CreateCache numberOfCacheLines d tagSize' config' policy' = Ok c ->
  contents c =
    replicate (Z.to_nat (numberOfSets c))
      (replicate (Z.to_nat (numberOfLinesPerSet c)) (content fresh_line)).
Proof.
  intros (_ & _ & Htable & _)%CreateCache_geometry.
  unfold contents. rewrite Htable.
  change (map (map content)) with (fmap (M:=list) (map content)).
  rewrite fmap_replicate. f_equal.
  change (map content) with (fmap (M:=list) content).
  now rewrite fmap_replicate.
Qed.

Lemma step_contents env op c u c' :
  step env op c = Ok (u, c') ->
  contents c' = contents c \/
  exists hostAddress s0 (w : nat) l0 mem,
    at_index (cacheLine c) (GetIndex (indexBitMask c) (addressBitShift c) hostAddress)
      = Some s0 /\
    s0 !! w = Some l0 /\
    contents c' =
      <[Z.to_nat (GetIndex (indexBitMask c) (addressBitShift c) hostAddress) :=
          <[w := (true, hostAddress, Some mem)]> (map content s0)]> (contents c) /\
    (config c = direct_mapped -> w = 0%nat) /\
    (config c <> direct_mapped ->
     holds hostAddress l0 = true \/
     none_between hostAddress s0 0 (Z.to_nat (numberOfLinesPerSet c))).
Proof.
  intros H. apply step_Ok in H. destruct op as [flags size a | b o size a].
  - destruct H as [res H].
    pose proof H as (w & c1 & Hway & _)%clCreateCacheBuffer_inv.
    destruct (GetWay_Ok_set _ _ _ _ _ Hway) as [s Hs].
    destruct (clCreateCacheBuffer_table _ _ _ _ _ _ _ _ H Hs)
      as [E | (w' & l0 & mem & Hl0 & E & _ & Hdm & Hassoc)]; [now left|].
    right. exists a, s, w', l0, mem. auto.
  - destruct H as [res H]. left. exact (clEnqueueReadCacheBuffer_contents _ _ _ _ _ _ _ _ H).
Qed.

Lemma contents_set c setIndex s :
  at_index (cacheLine c) setIndex = Some s ->
  contents c !! Z.to_nat setIndex = Some (map content s).
Proof.
  intros [_ Hs]%at_index_Some. unfold contents.
  change (map (map content)) with (fmap (M:=list) (map content)).
  now rewrite list_lookup_fmap, Hs.
Qed.

Lemma row_holds hostAddress (s : list CacheLine_t) j d :
  map content s !! j = Some (true, hostAddress, d) ->
  exists l, s !! j = Some l /\ holds hostAddress l = true.
Proof.
  change (map content s) with (content <$> s). rewrite list_lookup_fmap.
  destruct (s !! j) as [l|]; [|discriminate]. cbn. unfold content.
  intros [= Hv Ht _]. exists l. split; [reflexivity|].
  unfold holds. rewrite Hv, Ht. now rewrite Z.eqb_refl.
Qed.

Lemma holds_row hostAddress (s : list CacheLine_t) j l :
  s !! j = Some l -> holds hostAddress l = true ->
  map content s !! j = Some (true, hostAddress, deviceData l).
Proof.
  intros Hl [Hv Ht%Z.eqb_eq]%andb_prop.
  change (map content s) with (content <$> s). rewrite list_lookup_fmap, Hl.
  cbn. unfold content. now rewrite Hv, Ht.
Qed.

(** A line of the table after one line was replaced: the new line, or a
    line of the table before. *)
Lemma insert_row_lookup {A} (table : list (list A)) si row0 w x i row j y :
  table !! si = Some row0 ->
  <[si := <[w := x]> row0]> table !! i = Some row -> row !! j = Some y ->
  (i = si /\ j = w /\ y = x) \/
  (exists row1, table !! i = Some row1 /\ row1 !! j = Some y /\ (i = si -> j <> w)).
Proof.
  intros Hrow0 Hrow Hy.
  destruct (decide (i = si)) as [->|Hi].
  - rewrite list_lookup_insert_eq in Hrow by (eapply lookup_lt_Some, Hrow0).
    injection Hrow as <-.
    destruct (decide (j = w)) as [->|Hj].
    + left. rewrite list_lookup_insert_eq in Hy.
      * injection Hy as <-. auto.
      * apply lookup_lt_Some in Hy. now rewrite length_insert in Hy.
    + right. rewrite list_lookup_insert_ne in Hy by auto. eauto.
  - right. rewrite list_lookup_insert_ne in Hrow by auto.
    exists row. split; [exact Hrow|]. split; [exact Hy|]. intros E. contradiction.
Qed.

(** X11: no address is cached twice.  In every cache reached from
    [CreateCache] by a sequence of completed [clCreateCacheBuffer] and
    [clEnqueueReadCacheBuffer] calls, with any flags and in any order, two
    valid lines of one set never carry the same tag: a repeated creation for
    an address overwrites the line that holds it instead of taking a second
    one. *)
Theorem no_address_cached_twice numberOfCacheLines d tagSize' config' policy'
    c0 ops u c :
  CreateCache numberOfCacheLines d tagSize' config' policy' = Ok c0 ->
  run ops c0 = Ok (u, c) ->
  cached_once c.
Proof.
  intros Hcreate Hrun.
  pose proof (CreateCache_well_formed _ _ _ _ _ _ Hcreate) as [Hwf0 _].
  pose proof (CreateCache_geometry _ _ _ _ _ _ Hcreate) as (Hlines & _).
  pose proof (CreateCache_fields _ _ _ _ _ _ Hcreate) as (_ & Hconfig & _).
  pose proof (CreateCache_contents _ _ _ _ _ _ Hcreate) as Hfresh.
  refine (proj1 (run_invariant
            (fun c => cached_once c /\
                      (config c = direct_mapped -> numberOfLinesPerSet c = 1))
            _ ops c0 u c Hwf0 _ Hrun)).
  - clear. intros env op c u c' Hwf [Honce Hdm] Hstep.
    destruct (shape_fields _ _ (step_shape _ _ _ _ _ Hstep)) as (Ec & En & _).
    split; [|now rewrite Ec, En].
    destruct (step_contents _ _ _ _ _ Hstep)
      as [E | (a & s0 & w & l0 & mem & Hs0 & Hl0 & E & Hw & Hassoc)].
    { unfold cached_once. now rewrite E. }
    pose proof (contents_set _ _ _ Hs0) as Hrow0.
    pose proof (well_formed_set _ _ _ Hwf Hs0) as Hlen.
    assert (Hother : forall j dj, j <> w ->
              map content s0 !! j = Some (true, a, dj) -> False).
    { intros j dj Hj Hrow.
      destruct (row_holds _ _ _ _ Hrow) as (l & Hl & Hh).
      destruct (decide (config c = direct_mapped)) as [Hc|Hc].
      - apply lookup_lt_Some in Hl. rewrite Hlen, (Hdm Hc) in Hl.
        specialize (Hw Hc). change (Z.to_nat 1) with 1%nat in Hl. lia.
      - destruct (Hassoc Hc) as [Hh0 | Hnone].
        + apply Hj. eapply (Honce _ _ j w); [exact Hrow0 | exact Hrow |].
          exact (holds_row _ _ _ _ Hl0 Hh0).
        + destruct (Hnone j) as (l' & Hl' & Hh').
          { apply lookup_lt_Some in Hl. lia. }
          congruence. }
    intros i row j1 j2 t d1 d2 Hrow H1 H2. rewrite E in Hrow.
    destruct (insert_row_lookup _ _ _ _ _ _ _ _ _ Hrow0 Hrow H1)
      as [(Hi1 & Hj1 & E1) | (row1 & Hrow1 & H1' & Hne1)];
    destruct (insert_row_lookup _ _ _ _ _ _ _ _ _ Hrow0 Hrow H2)
      as [(Hi2 & Hj2 & E2) | (row2 & Hrow2 & H2' & Hne2)].
    + congruence.
    + assert (t = a) by congruence. subst i t.
      rewrite Hrow0 in Hrow2. injection Hrow2 as <-.
      destruct (Hother j2 d2); auto.
    + assert (t = a) by congruence. subst i t.
      rewrite Hrow0 in Hrow1. injection Hrow1 as <-.
      destruct (Hother j1 d1); auto.
    + rewrite Hrow1 in Hrow2. injection Hrow2 as <-.
      exact (Honce _ _ _ _ _ _ _ Hrow1 H1' H2').
  - split.
    + intros i row j1 j2 t d1 d2 Hrow H1 _. rewrite Hfresh in Hrow.
      apply lookup_replicate in Hrow as [-> _].
      apply lookup_replicate in H1 as [H1 _]. discriminate.
    + intros Hc. rewrite Hlines, <- Hconfig, Hc. reflexivity.
Qed.

Lemma no_address_cached_twice_witness :
  (CreateCache 4 64 32 two_way lru_RP = Ok (two_way_4x64 lru_RP) /\
   run [(runtime_ok, Resolve 1 64 64); (runtime_ok, Resolve 1 64 64)]
     (two_way_4x64 lru_RP) = Ok (tt, two_way_lru_created_twice)) /\
  cached_once two_way_lru_created_twice.
Proof.
  assert (H1 : CreateCache 4 64 32 two_way lru_RP = Ok (two_way_4x64 lru_RP))
    by (vm_compute; reflexivity).
  assert (H2 : run [(runtime_ok, Resolve 1 64 64); (runtime_ok, Resolve 1 64 64)]
                 (two_way_4x64 lru_RP) = Ok (tt, two_way_lru_created_twice))
    by (vm_compute; reflexivity).
  split; [split; assumption|].
  exact (no_address_cached_twice 4 64 32 two_way lru_RP (two_way_4x64 lru_RP)
           [(runtime_ok, Resolve 1 64 64); (runtime_ok, Resolve 1 64 64)] tt
           two_way_lru_created_twice H1 H2).
Defined.

Lemma reachable_fresh_or_populated numberOfCacheLines d tagSize' config' policy'
    c0 ops u c :
  CreateCache numberOfCacheLines d tagSize' config' policy' = Ok c0 ->
  run ops c0 = Ok (u, c) ->
  fresh_or_populated c.
Proof.
  intros Hcreate Hrun.
  pose proof (CreateCache_well_formed _ _ _ _ _ _ Hcreate) as [Hwf0 _].
  pose proof (CreateCache_contents _ _ _ _ _ _ Hcreate) as Hfresh.
  refine (run_invariant fresh_or_populated _ ops c0 u c Hwf0 _ Hrun).
  - clear. intros env op c u c' _ Hinv Hstep.
    destruct (step_contents _ _ _ _ _ Hstep)
      as [E | (a & s0 & w & l0 & mem & Hs0 & Hl0 & E & _ & _)].
    { unfold fresh_or_populated. now rewrite E. }
    pose proof (contents_set _ _ _ Hs0) as Hrow0.
    intros i row j x Hrow Hx. rewrite E in Hrow.
    destruct (insert_row_lookup _ _ _ _ _ _ _ _ _ Hrow0 Hrow Hx)
      as [(_ & _ & ->) | (row1 & Hrow1 & Hx' & _)].
    + right. eauto.
    + exact (Hinv _ _ _ _ Hrow1 Hx').
  - intros i row j x Hrow Hx. rewrite Hfresh in Hrow.
    apply lookup_replicate in Hrow as [-> _].
    apply lookup_replicate in Hx as [-> _]. now left.
Qed.

Lemma step_valid_kept env op c u c' :
  step env op c = Ok (u, c') -> valid_kept c c'.
Proof.
  intros Hstep.
  destruct (step_contents _ _ _ _ _ Hstep)
    as [E | (a & s0 & w & l0 & mem & Hs0 & Hl0 & E & _ & _)];
    intros i row j t dd Hrow Hx.
  - rewrite E. eauto.
  - pose proof (contents_set _ _ _ Hs0) as Hrow0. rewrite E.
    destruct (decide (i = Z.to_nat
                (GetIndex (indexBitMask c) (addressBitShift c) a))) as [->|Hi].
    + rewrite Hrow0 in Hrow. injection Hrow as <-.
      rewrite list_lookup_insert_eq by (eapply lookup_lt_Some, Hrow0).
      destruct (decide (j = w)) as [->|Hj].
      * eexists _, a, (Some mem). split; [reflexivity|].
        apply list_lookup_insert_eq. eapply lookup_lt_Some, Hx.
      * eexists _, t, dd. split; [reflexivity|].
        now rewrite list_lookup_insert_ne by auto.
    + rewrite list_lookup_insert_ne by auto. eauto.
Qed.

(** X13: nothing is ever invalidated.  Over every completed sequence of
    [clCreateCacheBuffer] and [clEnqueueReadCacheBuffer] calls, from any
    cache, a line that is valid stays valid (its tag and buffer may be
    replaced): no call of the interface clears a valid flag. *)
Theorem valid_lines_stay_valid ops c u c' :
  run ops c = Ok (u, c') -> valid_kept c c'.
Proof.
  revert c. induction ops as [|[env op] ops IH]; intros c H; simpl in H.
  - inv_ok H. intros i row j t dd Hrow Hx. eauto.
  - apply bind_Ok in H as (u1 & c1 & H1 & H).
    intros i row j t dd Hrow Hx.
    destruct (step_valid_kept _ _ _ _ _ H1 _ _ _ _ _ Hrow Hx)
      as (row1 & t1 & d1 & Hrow1 & Hx1).
    exact (IH _ H _ _ _ _ _ Hrow1 Hx1).
Qed.

Lemma valid_lines_stay_valid_witness :
  run [(runtime_ok, Resolve 1 64 192); (runtime_failing, ReadBackOp 1 0 64 192)]
    direct_lru_holding_64 = Ok (tt, direct_lru_holding_64_192) /\
  valid_kept direct_lru_holding_64 direct_lru_holding_64_192.
Proof.
  assert (H : run [(runtime_ok, Resolve 1 64 192);
                   (runtime_failing, ReadBackOp 1 0 64 192)]
                direct_lru_holding_64 = Ok (tt, direct_lru_holding_64_192))
    by (vm_compute; reflexivity).
  split; [exact H|].
  exact (valid_lines_stay_valid
           [(runtime_ok, Resolve 1 64 192); (runtime_failing, ReadBackOp 1 0 64 192)]
           direct_lru_holding_64 tt direct_lru_holding_64_192 H).
Defined.

(** * FreeCache *)

Lemma FreeCache_lines_eq c i s (n k : nat) :
  at_index (cacheLine c) i = Some s -> (k + n <= length s)%nat ->
  FreeCache_lines i n (Z.of_nat k) c = Ok (map deviceData (take n (drop k s)), c).
Proof.
  intros Hs. revert k. induction n as [|n IH]; intros k Hk; simpl.
  - reflexivity.
  - destruct (lookup_lt_is_Some_2 s k) as [l Hl]; [lia|].
    rewrite (bind_eq _ _ _ _ _ (load_line_eq _ _ _ _ _ Hs Hl)).
    replace (Z.of_nat k + 1) with (Z.of_nat (S k)) by lia.
    rewrite (bind_eq _ _ _ _ _ (IH (S k) ltac:(lia))).
    rewrite (drop_S _ _ _ Hl). reflexivity.
Qed.

Lemma FreeCache_sets_eq c (n k : nat) :
  well_formed c -> (k + n <= length (cacheLine c))%nat ->
  FreeCache_sets (numberOfLinesPerSet c) n (Z.of_nat k) c =
  Ok (concat (map (map deviceData) (take n (drop k (cacheLine c)))), c).
Proof.
  intros Hwf. revert k. induction n as [|n IH]; intros k Hk; simpl.
  - reflexivity.
  - destruct (lookup_lt_is_Some_2 (cacheLine c) k) as [s Hs]; [lia|].
    assert (Hs' : at_index (cacheLine c) (Z.of_nat k) = Some s)
      by now rewrite at_index_of_nat.
    pose proof (well_formed_set _ _ _ Hwf Hs') as Hlen.
    change 0 with (Z.of_nat 0).
    rewrite (bind_eq _ _ _ _ _
               (FreeCache_lines_eq c _ s (Z.to_nat (numberOfLinesPerSet c)) 0 Hs'
                  ltac:(lia))).
    replace (Z.of_nat k + 1) with (Z.of_nat (S k)) by lia.
    rewrite (bind_eq _ _ _ _ _ (IH (S k) ltac:(lia))).
    rewrite (drop_S _ _ _ Hs). simpl.
    rewrite drop_0, <- Hlen, firstn_all. reflexivity.
Qed.

Lemma FreeCache_eq c :
  well_formed c -> length (cacheLine c) = Z.to_nat (numberOfSets c) ->
  FreeCache c = Ok (handles c).
Proof.
  intros Hwf Hlen. unfold FreeCache, handles.
  change 0 with (Z.of_nat 0).
  rewrite (FreeCache_sets_eq c _ 0 Hwf) by lia.
  now rewrite drop_0, <- Hlen, firstn_all.
Qed.

Lemma reachable_table numberOfCacheLines d tagSize' config' policy' c0 ops u c :
  CreateCache numberOfCacheLines d tagSize' config' policy' = Ok c0 ->
  run ops c0 = Ok (u, c) ->
  well_formed c /\ length (cacheLine c) = Z.to_nat (numberOfSets c) /\
  numberOfSets c = setsOf config' numberOfCacheLines /\
  numberOfLinesPerSet c = linesPerSet config' numberOfCacheLines.
Proof.
  intros Hcreate Hrun.
  pose proof (CreateCache_well_formed _ _ _ _ _ _ Hcreate) as [Hwf0 _].
  pose proof (CreateCache_geometry _ _ _ _ _ _ Hcreate) as (Hlines & Hsets & Htable & _).
  pose proof (run_shape _ _ _ _ Hrun) as Hshape.
  split; [exact (well_formed_shape _ _ Hshape Hwf0)|].
  unfold unchanged, shape in Hshape. injection Hshape as Hl _ Hn Hs _ _ _ _ _ _.
  rewrite Hs, Hn. repeat split; auto.
  rewrite <- (length_map length (cacheLine c)), Hl, length_map, Htable.
  apply length_replicate.
Qed.

Lemma concat_rows_length {A B} (f : A -> B) k (table : list (list A)) :
  Forall (fun n => n = k) (map length table) ->
  length (concat (map (map f) table)) = (length table * k)%nat.
Proof.
  induction table as [|row table IH]; simpl; intros H; [reflexivity|].
  apply Forall_cons in H as [Hrow H].
  rewrite length_app, length_map, (IH H). lia.
Qed.

Lemma In_handles c x :
  In x (handles c) <->
  exists i s j l, cacheLine c !! i = Some s /\ s !! j = Some l /\ deviceData l = x.
Proof.
  unfold handles. rewrite in_concat. split.
  - intros (row & Hrow & Hx).
    apply in_map_iff in Hrow as (s & <- & Hs).
    apply in_map_iff in Hx as (l & <- & Hl).
    apply list_elem_of_In, list_elem_of_lookup in Hs as [i Hs].
    apply list_elem_of_In, list_elem_of_lookup in Hl as [j Hl].
    eauto 10.
  - intros (i & s & j & l & Hs & Hl & <-).
    exists (map deviceData s). split.
    + apply in_map, list_elem_of_In, list_elem_of_lookup. eauto.
    + apply in_map, list_elem_of_In, list_elem_of_lookup. eauto.
Qed.

(** X14: [FreeCache] on a reachable cache.  On every cache reached from
    [CreateCache] by a sequence of completed calls, [FreeCache] reads no
    line outside the table and calls [clReleaseMemObject] once for every
    line, set by set and way by way, on the line's [deviceData], whether the
    line is valid or not: [numberOfSets * numberOfLinesPerSet] calls. *)
Theorem FreeCache_releases_every_line numberOfCacheLines d tagSize' config' policy'
    c0 ops u c :
  CreateCache numberOfCacheLines d tagSize' config' policy' = Ok c0 ->
  run ops c0 = Ok (u, c) ->
  FreeCache c = Ok (handles c) /\
  length (handles c) =
    (Z.to_nat (setsOf config' numberOfCacheLines) *
     Z.to_nat (linesPerSet config' numberOfCacheLines))%nat.
Proof.
  intros Hcreate Hrun.
  destruct (reachable_table _ _ _ _ _ _ _ _ _ Hcreate Hrun) as (Hwf & Hlen & Hs & Hn).
  split; [exact (FreeCache_eq _ Hwf Hlen)|].
  unfold handles. destruct Hwf as [_ Hall].
  rewrite (concat_rows_length _ _ _ Hall), Hlen, Hs, Hn. reflexivity.
Qed.

Lemma FreeCache_releases_every_line_witness :
  (CreateCache 4 64 32 two_way lru_RP = Ok (two_way_4x64 lru_RP) /\
   run [(runtime_ok, Resolve 1 64 64)] (two_way_4x64 lru_RP) =
     Ok (tt, two_way_lru_holding_64)) /\
  FreeCache two_way_lru_holding_64 = Ok [None; None; Some 4160; None].
Proof.
  split; [split; reflexivity|].
  exact (proj1 (FreeCache_releases_every_line 4 64 32 two_way lru_RP
                  (two_way_4x64 lru_RP) [(runtime_ok, Resolve 1 64 64)] tt
                  two_way_lru_holding_64 eq_refl eq_refl)).
Defined.

(** X15: [FreeCache] releases handles that were never written.  On every
    cache reached from [CreateCache] by a sequence of completed calls,
    [FreeCache] completes, and it passes a [deviceData] that no call ever
    wrote to [clReleaseMemObject] exactly when some line of the table is not
    valid: only a cache whose every line was populated is freed without
    releasing an uninitialised handle. *)
Theorem FreeCache_releases_unwritten_handles numberOfCacheLines d tagSize' config'
    policy' c0 ops u c :
  CreateCache numberOfCacheLines d tagSize' config' policy' = Ok c0 ->
  run ops c0 = Ok (u, c) ->
  exists released,
    FreeCache c = Ok released /\
    (In None released <->
     exists setIndex s way l,
       at_index (cacheLine c) setIndex = Some s /\ at_index s way = Some l /\
       valid l = false).
Proof.
  intros Hcreate Hrun.
  destruct (reachable_table _ _ _ _ _ _ _ _ _ Hcreate Hrun) as (Hwf & Hlen & _).
  pose proof (reachable_fresh_or_populated _ _ _ _ _ _ _ _ _ Hcreate Hrun) as Hinv.
  assert (Hline : forall i s j l,
            cacheLine c !! i = Some s -> s !! j = Some l ->
            (valid l = false <-> deviceData l = None)).
  { intros i s j l Hs Hl.
    assert (Hs' : at_index (cacheLine c) (Z.of_nat i) = Some s)
      by now rewrite at_index_of_nat.
    pose proof (contents_set _ _ _ Hs') as Hrow. rewrite Nat2Z.id in Hrow.
    destruct (Hinv _ _ j (content l) Hrow) as [E | (t & mem & E)].
    - change (map content s) with (content <$> s). now rewrite list_lookup_fmap, Hl.
    - unfold content in E. simpl in E. injection E as -> _ ->. tauto.
    - unfold content in E. injection E as -> _ ->. split; discriminate. }
  exists (handles c). split; [exact (FreeCache_eq _ Hwf Hlen)|].
  rewrite In_handles. split.
  - intros (i & s & j & l & Hs & Hl & Hd).
    exists (Z.of_nat i), s, (Z.of_nat j), l. rewrite !at_index_of_nat.
    repeat split; auto. now apply (Hline _ _ _ _ Hs Hl).
  - intros (setIndex & s & way & l & [_ Hs]%at_index_Some & [_ Hl]%at_index_Some & Hv).
    exists (Z.to_nat setIndex), s, (Z.to_nat way), l.
    repeat split; auto. now apply (Hline _ _ _ _ Hs Hl).
Qed.

Lemma FreeCache_releases_unwritten_handles_witness :
  (CreateCache 4 64 32 direct_mapped lru_RP = Ok (direct_4x64 lru_RP) /\
   run [(runtime_ok, Resolve 33 64 64)] (direct_4x64 lru_RP) =
     Ok (tt, direct_lru_holding_64)) /\
  exists released,
    FreeCache direct_lru_holding_64 = Ok released /\
    (In None released <->
     exists setIndex s way l,
       at_index (cacheLine direct_lru_holding_64) setIndex = Some s /\
       at_index s way = Some l /\ valid l = false).
Proof.
  split; [split; reflexivity|].
  exact (FreeCache_releases_unwritten_handles 4 64 32 direct_mapped lru_RP
           (direct_4x64 lru_RP) [(runtime_ok, Resolve 33 64 64)] tt
           direct_lru_holding_64 eq_refl eq_refl).
Defined.

(** * Completion of a creation *)

Lemma store_line_returns setIndex way g c :
  (exists s l, at_index (cacheLine c) setIndex = Some s /\ at_index s way = Some l) ->
  exists c', store_line setIndex way g c = Ok (tt, c') /\
             counters c' = counters c /\
             exists s l, at_index (cacheLine c') setIndex = Some s /\
                         at_index s way = Some l.
Proof.
  intros (s & l & Hs & Hl).
  eexists. split; [apply store_line_Ok; exists s, l; eauto|].
  split; [reflexivity|]. simpl.
  exists (<[Z.to_nat way := g l]> s), (g l).
  split; eapply at_index_insert_eq; eassumption.
Qed.

Lemma populate_returns flags hostAddress setIndex way mem err fl sz c :
  (exists s l, at_index (cacheLine c) setIndex = Some s /\ at_index s way = Some l) ->
  INT_MIN <= memCopies c + 1 <= INT_MAX ->
  INT_MIN <= WriteTransfers c + 1 <= INT_MAX ->
  exists res c',
    (store_line setIndex way (set_deviceData mem) ;;;
     increment memCopies with_memCopies ;;;
     (if has_flag flags CL_MEM_COPY_HOST_PTR
      then increment WriteTransfers with_WriteTransfers else ret tt) ;;;
     store_line setIndex way (set_tag hostAddress) ;;;
     store_line setIndex way (set_valid true) ;;;
     l <- load_line setIndex way ;;
     ret (mkCreated (deviceData l) (Some err) [CreateBuffer fl sz hostAddress])) c
    = Ok (res, c').
Proof.
  intros Hline Hm Hw.
  destruct (store_line_returns setIndex way (set_deviceData mem) c Hline)
    as (c1 & H1 & Hc1 & Hline1).
  destruct (counters_eq _ _ Hc1) as (Em & _ & Ew).
  rewrite (bind_eq _ _ _ _ _ H1).
  rewrite (bind_eq _ _ c1 tt (with_memCopies (memCopies c1 + 1) c1))
    by (apply increment_Ok; rewrite Em; auto).
  assert (Htail : forall c3,
    (exists s l, at_index (cacheLine c3) setIndex = Some s /\ at_index s way = Some l) ->
    exists res c',
      (store_line setIndex way (set_tag hostAddress) ;;;
       store_line setIndex way (set_valid true) ;;;
       l <- load_line setIndex way ;;
       ret (mkCreated (deviceData l) (Some err) [CreateBuffer fl sz hostAddress])) c3
      = Ok (res, c')).
  { intros c3 Hline3.
    destruct (store_line_returns setIndex way (set_tag hostAddress) c3 Hline3)
      as (c4 & H4 & _ & Hline4).
    destruct (store_line_returns setIndex way (set_valid true) c4 Hline4)
      as (c5 & H5 & _ & (s5 & l5 & Hs5 & Hl5)).
    rewrite (bind_eq _ _ _ _ _ H4), (bind_eq _ _ _ _ _ H5).
    rewrite (bind_eq _ _ c5 l5 c5) by (apply load_line_Ok; eauto).
    eauto. }
  destruct (has_flag flags CL_MEM_COPY_HOST_PTR).
  - rewrite (bind_eq _ _ _ tt
               (with_WriteTransfers (WriteTransfers c1 + 1)
                  (with_memCopies (memCopies c1 + 1) c1)))
      by (apply increment_Ok; simpl; rewrite Ew; auto).
    apply Htail. exact Hline1.
  - rewrite (bind_eq _ _ (with_memCopies (memCopies c1 + 1) c1) tt
               (with_memCopies (memCopies c1 + 1) c1)) by reflexivity.
    apply Htail. exact Hline1.
Qed.

(** The creation that does not return the cached line: it completes, with
    the outcome of [clCreateCacheBuffer_inv], when the counters stay within
    [int]. *)
Lemma create_populate_eq env flags size hostAddress c w c1 s l :
  GetWay hostAddress (GetIndex (indexBitMask c) (addressBitShift c) hostAddress) c
    = Ok (w, c1) ->
  w <> -1 ->
  at_index (cacheLine c1) (GetIndex (indexBitMask c) (addressBitShift c) hostAddress)
    = Some s ->
  at_index s w = Some l ->
  (has_flag flags CL_MEM_COPY_HOST_PTR = true -> holds hostAddress l = false) ->
  INT_MIN <= memCopies c1 + 1 <= INT_MAX ->
  INT_MIN <= WriteTransfers c1 + 1 <= INT_MAX ->
  clCreateCacheBuffer env flags size hostAddress c =
    Ok (mkCreated
          (Some (fst (clCreateBuffer env (create_flags flags hostAddress)
                        (dataSize c1) hostAddress)))
          (Some (snd (clCreateBuffer env (create_flags flags hostAddress)
                        (dataSize c1) hostAddress)))
          [CreateBuffer (create_flags flags hostAddress) (dataSize c1) hostAddress],
        with_cacheLine
          (<[Z.to_nat (GetIndex (indexBitMask c) (addressBitShift c) hostAddress) :=
               <[Z.to_nat w :=
                   populated hostAddress
                     (fst (clCreateBuffer env (create_flags flags hostAddress)
                             (dataSize c1) hostAddress)) l]> s]>
             (cacheLine c1))
          (count_create flags c1)).
Proof.
  intros Hway Hw Hs Hl Hmiss Hm Hwt.
  set (setIndex := GetIndex (indexBitMask c) (addressBitShift c) hostAddress) in *.
  assert (Hload : load_line setIndex w c1 = Ok (l, c1))
    by (apply load_line_Ok; eauto).
  unfold clCreateCacheBuffer.
  rewrite (bind_eq _ _ c (indexBitMask c) c) by reflexivity.
  rewrite (bind_eq _ _ c (addressBitShift c) c) by reflexivity.
  fold setIndex. rewrite (bind_eq _ _ _ _ _ Hway).
  rewrite (bind_eq _ _ c1 false c1).
  2:{ destruct (has_flag flags CL_MEM_COPY_HOST_PTR); [|reflexivity].
      rewrite (bind_eq _ _ _ _ _ Hload). specialize (Hmiss eq_refl).
      unfold holds in Hmiss. now rewrite Hmiss. }
  cbv iota.
  rewrite (bind_eq _ _ c1 w c1)
    by (apply Z.eqb_neq in Hw; now rewrite Hw).
  rewrite (bind_eq _ _ c1 (dataSize c1) c1) by reflexivity.
  cbv zeta. fold (create_flags flags hostAddress).
  destruct (clCreateBuffer env (create_flags flags hostAddress) (dataSize c1) hostAddress)
    as [mem err] eqn:Ecreate.
  destruct (populate_returns flags hostAddress setIndex w mem err
              (create_flags flags hostAddress) (dataSize c1) c1) as (res & c' & H);
    eauto.
  rewrite H.
  apply populate_Ok in H as (s' & l' & Hs' & Hl' & -> & ->).
  rewrite Hs in Hs'. injection Hs' as <-. rewrite Hl in Hl'. injection Hl' as <-.
  reflexivity.
Qed.

(** * Where the valid lines are *)

Lemma placed_weaken (P Q : Z -> Prop) c :
  (forall t, P t -> Q t) -> placed P c -> placed Q c.
Proof.
  intros HPQ H i row j t dd Hrow Hx.
  destruct (H _ _ _ _ _ Hrow Hx). auto.
Qed.

Lemma step_placed P env op c u c' :
  placed P c -> step env op c = Ok (u, c') ->
  placed (fun t => resolved_by op t \/ P t) c'.
Proof.
  intros Hinv Hstep.
  destruct (shape_fields _ _ (step_shape _ _ _ _ _ Hstep)) as (_ & _ & _ & Em & Es).
  assert (Hsame : contents c' = contents c ->
                  placed (fun t => resolved_by op t \/ P t) c').
  { intros E i row j t dd Hrow Hx. rewrite E in Hrow. rewrite Em, Es.
    destruct (Hinv _ _ _ _ _ Hrow Hx). auto. }
  apply step_Ok in Hstep. destruct op as [flags size a | b o size a].
  - destruct Hstep as [res H].
    pose proof H as (w & c1 & Hway & _)%clCreateCacheBuffer_inv.
    destruct (GetWay_Ok_set _ _ _ _ _ Hway) as [s0 Hs0].
    destruct (clCreateCacheBuffer_table _ _ _ _ _ _ _ _ H Hs0)
      as [E | (w' & l0 & mem & Hl0 & E & _)]; [auto|].
    pose proof (contents_set _ _ _ Hs0) as Hrow0.
    apply at_index_Some in Hs0 as [Hnn _].
    intros i row j t dd Hrow Hx. rewrite E in Hrow. rewrite Em, Es.
    destruct (insert_row_lookup _ _ _ _ _ _ _ _ _ Hrow0 Hrow Hx)
      as [(-> & _ & [= -> _]) | (row1 & Hrow1 & Hx' & _)].
    + split; [now left | lia].
    + destruct (Hinv _ _ _ _ _ Hrow1 Hx'). auto.
  - destruct Hstep as [res H].
    exact (Hsame (clEnqueueReadCacheBuffer_contents _ _ _ _ _ _ _ _ H)).
Qed.

Lemma run_placed ops : forall P c u c',
  placed P c -> run ops c = Ok (u, c') ->
  placed (fun t => In t (resolved ops) \/ P t) c'.
Proof.
  induction ops as [|[env op] ops IH]; intros P c u c' Hinv H; simpl in H.
  - inv_ok H. eapply placed_weaken; [|exact Hinv]. auto.
  - apply bind_Ok in H as (u1 & c1 & H1 & H).
    pose proof (IH _ _ _ _ (step_placed _ _ _ _ _ _ Hinv H1) H) as Hinv'.
    eapply placed_weaken; [|exact Hinv'].
    intros t [Ht | [Ht | Ht]]; auto; destruct op; simpl in *; subst; auto.
    contradiction.
Qed.

Lemma CreateCache_placed numberOfCacheLines d tagSize' config' policy' c :
  CreateCache numberOfCacheLines d tagSize' config' policy' = Ok c ->
  placed (fun _ => False) c.
Proof.
  intros Hfresh%CreateCache_contents i row j t dd Hrow Hx.
  rewrite Hfresh in Hrow.
  apply lookup_replicate in Hrow as [-> _].
  apply lookup_replicate in Hx as [Hx _]. discriminate.
Qed.

(** X16: where the valid lines are.  In every cache reached from
    [CreateCache] by a sequence of completed calls, a valid line carries a
    host address that one of the [clCreateCacheBuffer] calls of the sequence
    was given, and it lies in the set that [GetIndex] selects for that
    address: no lookup of another set can miss it. *)
Theorem valid_line_is_in_the_set_of_its_tag numberOfCacheLines d tagSize' config'
    policy' c0 ops u c setIndex s way l :
  CreateCache numberOfCacheLines d tagSize' config' policy' = Ok c0 ->
  run ops c0 = Ok (u, c) ->
  at_index (cacheLine c) setIndex = Some s -> at_index s way = Some l ->
  valid l = true ->
  In (tag l) (resolved ops) /\
  GetIndex (indexBitMask c) (addressBitShift c) (tag l) = setIndex.
Proof.
  intros Hcreate Hrun Hs Hl Hv.
  pose proof (run_placed _ _ _ _ _ (CreateCache_placed _ _ _ _ _ _ Hcreate) Hrun) as Hinv.
  pose proof (contents_set _ _ _ Hs) as Hrow.
  apply at_index_Some in Hs as [Hnn _]. apply at_index_Some in Hl as [_ Hl].
  destruct (Hinv _ _ (Z.to_nat way) (tag l) (deviceData l) Hrow) as [[Hin | []] Hi].
  - change (map content s) with (content <$> s). rewrite list_lookup_fmap, Hl.
    cbn. unfold content. now rewrite Hv.
  - split; [exact Hin | lia].
Qed.

Lemma valid_line_is_in_the_set_of_its_tag_witness :
  (CreateCache 4 64 32 two_way lru_RP = Ok (two_way_4x64 lru_RP) /\
   run [(runtime_ok, Resolve 1 64 64)] (two_way_4x64 lru_RP) =
     Ok (tt, two_way_lru_holding_64) /\
   at_index (cacheLine two_way_lru_holding_64) 1 =
     Some [mkCacheLine true 64 (mkMetaData (-1) 1) (Some 4160); fresh_line] /\
   at_index [mkCacheLine true 64 (mkMetaData (-1) 1) (Some 4160); fresh_line] 0 =
     Some (mkCacheLine true 64 (mkMetaData (-1) 1) (Some 4160)) /\
   valid (mkCacheLine true 64 (mkMetaData (-1) 1) (Some 4160)) = true) /\
  In 64 (resolved [(runtime_ok, Resolve 1 64 64)]) /\
  GetIndex 1 6 64 = 1.
Proof.
  split; [repeat split|].
  exact (valid_line_is_in_the_set_of_its_tag 4 64 32 two_way lru_RP
           (two_way_4x64 lru_RP) [(runtime_ok, Resolve 1 64 64)] tt
           two_way_lru_holding_64 1
           [mkCacheLine true 64 (mkMetaData (-1) 1) (Some 4160); fresh_line] 0
           (mkCacheLine true 64 (mkMetaData (-1) 1) (Some 4160))
           eq_refl eq_refl eq_refl eq_refl eq_refl).
Defined.

(** * The example program *)

Lemma shape_every_address_has_a_line c c' :
  unchanged shape c c' -> every_address_has_a_line c -> every_address_has_a_line c'.
Proof.
  intros Hshape Hall a.
  destruct (shape_fields _ _ Hshape) as (_ & _ & _ & -> & ->).
  destruct (Hall a) as (s & l & [Hnn Hs]%at_index_Some & [_ Hl]%at_index_Some).
  unfold unchanged, shape in Hshape. injection Hshape as Hlen _ _ _ _ _ _ _ _ _.
  assert (H : map length (cacheLine c') !!
                Z.to_nat (GetIndex (indexBitMask c) (addressBitShift c) a)
              = Some (length s)).
  { rewrite Hlen. change (map length (cacheLine c)) with (length <$> cacheLine c).
    now rewrite list_lookup_fmap, Hs. }
  change (map length (cacheLine c')) with (length <$> cacheLine c') in H.
  rewrite list_lookup_fmap in H.
  destruct (cacheLine c' !! Z.to_nat (GetIndex (indexBitMask c) (addressBitShift c) a))
    as [s'|] eqn:Hs'; [|discriminate].
  cbn in H. injection H as H.
  destruct s' as [|l' s']; [destruct s; discriminate|].
  exists (l' :: s'), l'. split; [now apply at_index_Some | reflexivity].
Qed.

(** In a direct-mapped cache, the creation for an address that no valid line
    carries, or without [CL_MEM_COPY_HOST_PTR]: it completes, counts one
    copy (and one write transfer with the flag), and way 0 holds the
    address. *)
Lemma direct_create_new P copies writes env flags size hostAddress c :
  direct_state P copies writes c ->
  0 <= copies < INT_MAX -> 0 <= writes < INT_MAX ->
  (has_flag flags CL_MEM_COPY_HOST_PTR = true -> ~ P hostAddress) ->
  exists c',
    step env (Resolve flags size hostAddress) c = Ok (tt, c') /\
    direct_state (fun t => t = hostAddress \/ P t) (copies + 1)
      (writes + (if has_flag flags CL_MEM_COPY_HOST_PTR then 1 else 0)) c' /\
    held_at_way_0 hostAddress c'.
Proof.
  intros (Hc & Hcnt & Hpl & Hall) Hm Hw Hnew.
  destruct (Hall hostAddress) as (s & l & Hs & Hl).
  pose proof (GetWay_direct_mapped hostAddress _ _ _ Hc Hs) as Hway.
  unfold counters in Hcnt. injection Hcnt as Em Er Ew.
  assert (Hmiss : has_flag flags CL_MEM_COPY_HOST_PTR = true ->
                  holds hostAddress l = false).
  { intros Hflag. destruct (holds hostAddress l) eqn:Hh; [|reflexivity].
    destruct (Hnew Hflag).
    pose proof Hl as [_ Hl']%at_index_Some.
    exact (proj1 (Hpl _ _ _ _ _ (contents_set _ _ _ Hs) (holds_row _ _ _ _ Hl' Hh))). }
  pose proof (create_populate_eq env flags size hostAddress c 0 c s l Hway
                ltac:(discriminate) Hs Hl Hmiss
                ltac:(unfold INT_MIN; lia) ltac:(unfold INT_MIN; lia)) as Hcreate.
  assert (Hstep : step env (Resolve flags size hostAddress) c =
                  Ok (tt, with_cacheLine
                    (<[Z.to_nat (GetIndex (indexBitMask c) (addressBitShift c) hostAddress) :=
                         <[Z.to_nat 0 :=
                             populated hostAddress
                               (fst (clCreateBuffer env (create_flags flags hostAddress)
                                       (dataSize c) hostAddress)) l]> s]>
                       (cacheLine c))
                    (count_create flags c))).
  { simpl. now rewrite (bind_eq _ _ _ _ _ Hcreate). }
  eexists. split; [exact Hstep|].
  destruct (shape_fields _ _ (step_shape _ _ _ _ _ Hstep)) as (Ec & _ & _ & Emask & Eshift).
  destruct (count_create_fields flags c) as (_ & _ & _ & Hr' & Hm' & Hw').
  split; [split; [|split; [|split]]|].
  - now rewrite Ec.
  - unfold counters. simpl. rewrite Hr', Hm', Hw'. congruence.
  - exact (step_placed _ _ _ _ _ _ Hpl Hstep).
  - exact (shape_every_address_has_a_line _ _ (step_shape _ _ _ _ _ Hstep) Hall).
  - unfold held_at_way_0. rewrite Emask, Eshift. simpl.
    eexists _, _. split; [eapply at_index_insert_eq, Hs|].
    split; [eapply at_index_insert_eq, Hl|].
    unfold holds. simpl. now rewrite Z.eqb_refl.
Qed.

(** In a direct-mapped cache, the creation with [CL_MEM_COPY_HOST_PTR] for
    the address that way 0 holds changes nothing. *)
Lemma direct_create_again env flags size hostAddress c :
  config c = direct_mapped -> held_at_way_0 hostAddress c ->
  has_flag flags CL_MEM_COPY_HOST_PTR = true ->
  step env (Resolve flags size hostAddress) c = Ok (tt, c).
Proof.
  intros Hc (s & l & Hs & Hl & Hh) Hflag.
  pose proof (GetWay_direct_mapped hostAddress _ _ _ Hc Hs) as Hway.
  simpl.
  now rewrite (bind_eq _ _ _ _ _
                 (create_hit_eq env flags size hostAddress c 0 c s l Hway Hs Hl Hh Hflag)).
Qed.

Lemma CreateCache_vadd_chain :
  CreateCache 8 40 32 direct_mapped random_RP =
    Ok (mkCache 0 0 0 32 40 7 3 1 8 direct_mapped
          (replicate 8 [fresh_line]) (replicate 8 0) random_RP) /\
  direct_state (fun _ => False) 0 0
    (mkCache 0 0 0 32 40 7 3 1 8 direct_mapped
       (replicate 8 [fresh_line]) (replicate 8 0) random_RP).
Proof.
  assert (H : CreateCache 8 40 32 direct_mapped random_RP =
    Ok (mkCache 0 0 0 32 40 7 3 1 8 direct_mapped
          (replicate 8 [fresh_line]) (replicate 8 0) random_RP)) by reflexivity.
  split; [exact H|]. split; [reflexivity|]. split; [reflexivity|]. split.
  - exact (CreateCache_placed _ _ _ _ _ _ H).
  - intros a. cbn [indexBitMask addressBitShift cacheLine].
    change 7 with (2 ^ 3 - 1). rewrite GetIndex_eq by lia.
    pose proof (Z.mod_pos_bound (a / 2 ^ 3) (2 ^ 3) ltac:(lia)) as Hb.
    exists [fresh_line], fresh_line. split; [|reflexivity].
    apply at_index_Some. split; [lia|].
    apply lookup_replicate. split; [reflexivity|].
    change (2 ^ 3) with 8 in *. lia.
Qed.

Lemma small_counter_in_range k :
  0 <= k <= 8 -> 0 <= k < INT_MAX /\ INT_MIN <= k + 1 <= INT_MAX.
Proof. unfold INT_MIN, INT_MAX. lia. Qed.

(** X17: the transfers of the example program.  With seven pairwise
    distinct host vectors, whatever sets they fall into and whatever the
    runtime returns, the nine [clCreateCacheBuffer] calls of [main] on the
    cache of [CreateCache(8, 40, 32, direct_mapped, random_RP)] all
    complete, the final [clEnqueueReadCacheBuffer] of [h_g] returns 0 and
    reads the buffer created for [h_g], and the counters end at
    [memCopies = 8], [ReadTransfers = 1] and [WriteTransfers = 4]: the two
    creations that find their vector cached ([h_c] and [h_e]) cost no
    transfer. *)
Theorem vadd_chain_transfers runtime h_a h_b h_c h_d h_e h_f h_g :
  NoDup [h_a; h_b; h_c; h_d; h_e; h_f; h_g] ->
  exists c0 c9 c10,
    CreateCache 8 40 32 direct_mapped random_RP = Ok c0 /\
    run (vadd_chain_creates runtime h_a h_b h_c h_d h_e h_f h_g) c0 = Ok (tt, c9) /\
    counters c9 = (7, 0, 4) /\
    clEnqueueReadCacheBuffer (runtime 9%nat) 1 0 40 h_g c9 =
      Ok (mkReadBack 0
            [ReadBuffer
               (Some (fst (clCreateBuffer (runtime 8%nat) (create_flags 1 h_g) 40 h_g)))
               1 0 40 h_g],
          c10) /\
    counters c10 = (8, 1, 4).
Proof.
  intros Hnd.
  apply NoDup_cons in Hnd as [Ha Hnd]. apply NoDup_cons in Hnd as [Hb Hnd].
  apply NoDup_cons in Hnd as [Hc Hnd]. apply NoDup_cons in Hnd as [Hd Hnd].
  apply NoDup_cons in Hnd as [He Hnd]. apply NoDup_cons in Hnd as [Hf _].
  repeat match goal with
         | H : _ /\ _ |- _ => destruct H
         | H : _ ∉ _ :: _ |- _ => apply not_elem_of_cons in H
         end.
  destruct CreateCache_vadd_chain as [Hcreate I0].
  set (c0 := mkCache 0 0 0 32 40 7 3 1 8 direct_mapped
               (replicate 8 [fresh_line]) (replicate 8 0) random_RP) in *.
  pose proof (fun k H => proj1 (small_counter_in_range k H)) as Hrange.
  destruct (direct_create_new _ _ _ (runtime 0%nat) 33 40 h_a c0 I0)
    as (c1 & S1 & I1 & _); [apply Hrange; vm_compute; split; discriminate | apply Hrange; vm_compute; split; discriminate | intros _ Hin; decompose [or] Hin; first [contradiction | congruence] |].
  destruct (direct_create_new _ _ _ (runtime 1%nat) 33 40 h_b c1 I1)
    as (c2 & S2 & I2 & _); [apply Hrange; vm_compute; split; discriminate | apply Hrange; vm_compute; split; discriminate | intros _ Hin; decompose [or] Hin; first [contradiction | congruence] |].
  destruct (direct_create_new _ _ _ (runtime 2%nat) 1 40 h_c c2 I2)
    as (c3 & S3 & I3 & L3); [apply Hrange; vm_compute; split; discriminate | apply Hrange; vm_compute; split; discriminate | discriminate |].
  pose proof (direct_create_again (runtime 3%nat) 33 40 h_c c3
                (proj1 I3) L3 eq_refl) as S4.
  destruct (direct_create_new _ _ _ (runtime 4%nat) 33 40 h_d c3 I3)
    as (c5 & S5 & I5 & _); [apply Hrange; vm_compute; split; discriminate | apply Hrange; vm_compute; split; discriminate | intros _ Hin; decompose [or] Hin; first [contradiction | congruence] |].
  destruct (direct_create_new _ _ _ (runtime 5%nat) 1 40 h_e c5 I5)
    as (c6 & S6 & I6 & L6); [apply Hrange; vm_compute; split; discriminate | apply Hrange; vm_compute; split; discriminate | discriminate |].
  pose proof (direct_create_again (runtime 6%nat) 33 40 h_e c6
                (proj1 I6) L6 eq_refl) as S7.
  destruct (direct_create_new _ _ _ (runtime 7%nat) 33 40 h_f c6 I6)
    as (c8 & S8 & I8 & _); [apply Hrange; vm_compute; split; discriminate | apply Hrange; vm_compute; split; discriminate | intros _ Hin; decompose [or] Hin; first [contradiction | congruence] |].
  pose proof (direct_create_new _ _ _ (runtime 8%nat) 1 40 h_g c8 I8
                ltac:(apply Hrange; vm_compute; split; discriminate) ltac:(apply Hrange; vm_compute; split; discriminate)
                ltac:(discriminate)) as S9.
  clear I0 I1 I2 I3 I5 I6 L3 L6.
  destruct I8 as (Hc8 & Hcnt8 & _ & Hall8).
  destruct (Hall8 h_g) as (s8 & l8 & Hs8 & Hl8).
  unfold counters in Hcnt8. injection Hcnt8 as Em8 Er8 Ew8. cbn in Em8, Ew8.
  assert (Ed8 : dataSize c8 = 40).
  { assert (Hrun : run [(runtime 0%nat, Resolve 33 40 h_a);
                        (runtime 1%nat, Resolve 33 40 h_b);
                        (runtime 2%nat, Resolve 1 40 h_c);
                        (runtime 4%nat, Resolve 33 40 h_d);
                        (runtime 5%nat, Resolve 1 40 h_e);
                        (runtime 7%nat, Resolve 33 40 h_f)] c0 = Ok (tt, c8)).
    { cbn [run].
      rewrite (bind_eq _ _ _ _ _ S1), (bind_eq _ _ _ _ _ S2), (bind_eq _ _ _ _ _ S3),
              (bind_eq _ _ _ _ _ S5), (bind_eq _ _ _ _ _ S6), (bind_eq _ _ _ _ _ S8).
      reflexivity. }
    now destruct (shape_fields _ _ (run_shape _ _ _ _ Hrun)) as (_ & _ & -> & _). }
  pose proof (GetWay_direct_mapped h_g _ _ _ Hc8 Hs8) as Hway8.
  pose proof (create_populate_eq (runtime 8%nat) 1 40 h_g c8 0 c8 s8 l8 Hway8
                ltac:(discriminate) Hs8 Hl8 ltac:(discriminate)
                ltac:(rewrite Em8; apply small_counter_in_range;
                      vm_compute; split; discriminate)
                ltac:(rewrite Ew8; apply small_counter_in_range;
                      vm_compute; split; discriminate)) as Hcreate9.
  rewrite Ed8 in Hcreate9.
  set (mem := fst (clCreateBuffer (runtime 8%nat) (create_flags 1 h_g) 40 h_g)) in *.
  set (c9 := with_cacheLine
               (<[Z.to_nat (GetIndex (indexBitMask c8) (addressBitShift c8) h_g) :=
                    <[Z.to_nat 0 := populated h_g mem l8]> s8]> (cacheLine c8))
               (count_create 1 c8)) in *.
  assert (S9' : step (runtime 8%nat) (Resolve 1 40 h_g) c8 = Ok (tt, c9))
    by (simpl; now rewrite (bind_eq _ _ _ _ _ Hcreate9)).
  assert (Hs9 : at_index (cacheLine c9)
                  (GetIndex (indexBitMask c9) (addressBitShift c9) h_g) =
                Some (<[Z.to_nat 0 := populated h_g mem l8]> s8))
    by (eapply at_index_insert_eq, Hs8).
  assert (Hl9 : at_index (<[Z.to_nat 0 := populated h_g mem l8]> s8) 0 =
                Some (populated h_g mem l8))
    by (eapply at_index_insert_eq, Hl8).
  assert (Hh9 : holds h_g (populated h_g mem l8) = true)
    by (unfold holds; simpl; now rewrite Z.eqb_refl).
  assert (Em9 : memCopies c9 = 7) by (unfold c9; simpl; now rewrite Em8).
  assert (Er9 : ReadTransfers c9 = 0) by (unfold c9; simpl; exact Er8).
  assert (Ew9 : WriteTransfers c9 = 4) by (unfold c9; simpl; now rewrite Ew8).
  pose proof (GetWay_direct_mapped h_g _ c9 _ Hc8 Hs9) as Hway9.
  pose proof (read_back_hit_eq (runtime 9%nat) 1 0 40 h_g c9 0 c9 _ _ Hway9 Hs9 Hl9 Hh9
                ltac:(rewrite Em9; apply small_counter_in_range;
                      vm_compute; split; discriminate)
                ltac:(rewrite Er9; apply small_counter_in_range;
                      vm_compute; split; discriminate)) as Hread.
  exists c0, c9, (with_ReadTransfers (ReadTransfers c9 + 1)
                    (with_memCopies (memCopies c9 + 1) c9)).
  split; [exact Hcreate|]. split.
  { unfold vadd_chain_creates. cbn [run].
    rewrite (bind_eq _ _ _ _ _ S1), (bind_eq _ _ _ _ _ S2), (bind_eq _ _ _ _ _ S3),
            (bind_eq _ _ _ _ _ S4), (bind_eq _ _ _ _ _ S5), (bind_eq _ _ _ _ _ S6),
            (bind_eq _ _ _ _ _ S7), (bind_eq _ _ _ _ _ S8), (bind_eq _ _ _ _ _ S9').
    reflexivity. }
  split; [unfold counters; now rewrite Em9, Er9, Ew9|].
  split.
  - rewrite Hread. replace (dataSize c9) with 40 by (symmetry; exact Ed8). reflexivity.
  - unfold counters. cbn [memCopies ReadTransfers WriteTransfers with_ReadTransfers
                            with_memCopies].
    now rewrite Em9, Er9, Ew9.
Qed.

Lemma vadd_chain_transfers_witness :
  NoDup [1000; 1064; 1080; 1120; 1160; 1200; 1240] /\
  exists c0 c9 c10,
    CreateCache 8 40 32 direct_mapped random_RP = Ok c0 /\
    run (vadd_chain_creates (fun _ => runtime_ok) 1000 1064 1080 1120 1160 1200 1240) c0
      = Ok (tt, c9) /\
    counters c9 = (7, 0, 4) /\
    clEnqueueReadCacheBuffer runtime_ok 1 0 40 1240 c9 =
      Ok (mkReadBack 0 [ReadBuffer (Some 5336) 1 0 40 1240], c10) /\
    counters c10 = (8, 1, 4).
Proof.
  assert (H : NoDup [1000; 1064; 1080; 1120; 1160; 1200; 1240])
    by (apply (bool_decide_unpack (NoDup [1000; 1064; 1080; 1120; 1160; 1200; 1240]));
        vm_compute; exact I).
  split; [exact H|].
  exact (vadd_chain_transfers (fun _ => runtime_ok) 1000 1064 1080 1120 1160 1200 1240 H).
Defined.

(** * The handle of a valid line *)

(** The line that a completed [clCreateCacheBuffer] writes carries the
    handle that its [clCreateBuffer] call returned. *)
Lemma clCreateCacheBuffer_stores env flags size hostAddress c res c' s0 :
  clCreateCacheBuffer env flags size hostAddress c = Ok (res, c') ->
  at_index (cacheLine c) (GetIndex (indexBitMask c) (addressBitShift c) hostAddress)
    = Some s0 ->
  contents c' = contents c \/
  exists (w : nat),
    contents c' =
      <[Z.to_nat (GetIndex (indexBitMask c) (addressBitShift c) hostAddress) :=
          <[w := (true, hostAddress,
                  Some (fst (clCreateBuffer env (create_flags flags hostAddress)
                               (dataSize c) hostAddress)))]>
            (map content s0)]> (contents c).
Proof.
  intros H Hs0.
  destruct (clCreateCacheBuffer_table _ _ _ _ _ _ _ _ H Hs0)
    as [E | (w' & l0 & mem & _ & E & Hmem & _)]; [now left|].
  apply clCreateCacheBuffer_inv in H as (w & c1 & Hway & H).
  destruct H as [(_ & s & l & _ & _ & _ & _ & ->) |
                 (w2 & c2 & s & l & Hset & _ & _ & -> & _)].
  - left. exact (GetWay_contents _ _ _ _ _ Hway).
  - right. exists w'. rewrite E. simpl in Hmem. injection Hmem as <-.
    assert (Ed : dataSize c2 = dataSize c).
    { pose proof (GetWay_dataSize _ _ _ _ _ Hway) as E1. unfold unchanged in E1.
      destruct (w =? -1).
      - pose proof (SetWay_dataSize _ _ _ _ _ Hset) as E2. unfold unchanged in E2.
        congruence.
      - inv_ok Hset. exact E1. }
    now rewrite Ed.
Qed.

Lemma step_buffers_satisfy P env op c u c' :
  buffers_satisfy P c -> step env op c = Ok (u, c') ->
  buffers_satisfy (fun t d => returned_by [(env, op)] (dataSize c) t d \/ P t d) c'.
Proof.
  intros Hinv Hstep.
  assert (Hsame : contents c' = contents c ->
            buffers_satisfy
              (fun t d => returned_by [(env, op)] (dataSize c) t d \/ P t d) c').
  { intros E i row j t dd Hrow Hx. rewrite E in Hrow. right. eauto. }
  apply step_Ok in Hstep. destruct op as [flags size a | b o size a].
  - destruct Hstep as [res H].
    pose proof H as (w & c1 & Hway & _)%clCreateCacheBuffer_inv.
    destruct (GetWay_Ok_set _ _ _ _ _ Hway) as [s0 Hs0].
    destruct (clCreateCacheBuffer_stores _ _ _ _ _ _ _ _ H Hs0) as [E | (w' & E)];
      [auto|].
    pose proof (contents_set _ _ _ Hs0) as Hrow0.
    intros i row j t dd Hrow Hx. rewrite E in Hrow.
    destruct (insert_row_lookup _ _ _ _ _ _ _ _ _ Hrow0 Hrow Hx)
      as [(_ & _ & [= -> ->]) | (row1 & Hrow1 & Hx' & _)].
    + left. exists env, flags, size. split; [now left | reflexivity].
    + right. eauto.
  - destruct Hstep as [res H].
    exact (Hsame (clEnqueueReadCacheBuffer_contents _ _ _ _ _ _ _ _ H)).
Qed.

Lemma run_buffers_satisfy ops : forall P c u c',
  buffers_satisfy P c -> run ops c = Ok (u, c') ->
  buffers_satisfy (fun t d => returned_by ops (dataSize c) t d \/ P t d) c'.
Proof.
  induction ops as [|[env op] ops IH]; intros P c u c' Hinv H; simpl in H.
  - inv_ok H. intros i row j t dd Hrow Hx. right. eauto.
  - apply bind_Ok in H as (u1 & c1 & H1 & H).
    destruct (shape_fields _ _ (step_shape _ _ _ _ _ H1)) as (_ & _ & Ed & _).
    pose proof (IH _ _ _ _ (step_buffers_satisfy _ _ _ _ _ _ Hinv H1) H) as Hinv'.
    rewrite Ed in Hinv'.
    intros i row j t dd Hrow Hx.
    destruct (Hinv' _ _ _ _ _ Hrow Hx)
      as [(e & f & z & Hin & ->) | [(e & f & z & Hin & ->) | HP]].
    + left. exists e, f, z. split; [now right | reflexivity].
    + left. exists e, f, z. split; [|reflexivity].
      destruct Hin as [Hin | []]. now left.
    + now right.
Qed.

(** X12: a line is fresh or populated.  In every cache reached from
    [CreateCache] by a sequence of completed calls, every line is either
    exactly as [CreateCache] left it (invalid, tag [NULL], the buffer handle
    never written) or valid with, as buffer handle, the very handle that
    [clCreateBuffer] returned in one of the [clCreateCacheBuffer] calls of
    the sequence for the line's tag (called with that call's flags, joined
    with [CL_MEM_COPY_HOST_PTR] unless the address is [NULL], and the
    cache's [dataSize]): the valid flag tells whether [deviceData] was ever
    written, and nothing but a returned handle is ever stored. *)
Theorem line_is_fresh_or_populated numberOfCacheLines d tagSize' config' policy'
    c0 ops u c setIndex s way l :
  CreateCache numberOfCacheLines d tagSize' config' policy' = Ok c0 ->
  run ops c0 = Ok (u, c) ->
  at_index (cacheLine c) setIndex = Some s -> at_index s way = Some l ->
  (valid l = false /\ tag l = NULL /\ deviceData l = None) \/
  (valid l = true /\
   exists env flags size,
     In (env, Resolve flags size (tag l)) ops /\
     deviceData l =
       Some (fst (clCreateBuffer env (create_flags flags (tag l)) d (tag l)))).
Proof.
  intros Hcreate Hrun Hs [_ Hl]%at_index_Some.
  pose proof (reachable_fresh_or_populated _ _ _ _ _ _ _ _ _ Hcreate Hrun) as Hinv.
  assert (Hrow : map content s !! Z.to_nat way = Some (content l)).
  { change (map content s) with (content <$> s). now rewrite list_lookup_fmap, Hl. }
  destruct (Hinv _ _ (Z.to_nat way) (content l) (contents_set _ _ _ Hs) Hrow)
    as [E | (t & mem & E)].
  - left. unfold content in E. simpl in E. now injection E.
  - right. unfold content in E. injection E as Hv _ _. split; [exact Hv|].
    assert (H0 : buffers_satisfy (fun _ _ => False) c0).
    { intros i row j t0 dd Hrow0 Hx.
      rewrite (CreateCache_contents _ _ _ _ _ _ Hcreate) in Hrow0.
      apply lookup_replicate in Hrow0 as [-> _].
      apply lookup_replicate in Hx as [Hx _]. discriminate. }
    pose proof (run_buffers_satisfy _ _ _ _ _ H0 Hrun) as Hbuf.
    destruct (CreateCache_fields _ _ _ _ _ _ Hcreate) as (_ & _ & _ & Ed & _).
    rewrite Ed in Hbuf.
    destruct (Hbuf _ _ (Z.to_nat way) (tag l) (deviceData l) (contents_set _ _ _ Hs))
      as [(e & f & z & Hin & Hd) | []].
    + rewrite Hrow. unfold content. now rewrite Hv.
    + eauto.
Qed.

Lemma line_is_fresh_or_populated_witness :
  (CreateCache 4 64 32 two_way lru_RP = Ok (two_way_4x64 lru_RP) /\
   run [(runtime_ok, Resolve 1 64 64)] (two_way_4x64 lru_RP) =
     Ok (tt, two_way_lru_holding_64) /\
   at_index (cacheLine two_way_lru_holding_64) 1 =
     Some [mkCacheLine true 64 (mkMetaData (-1) 1) (Some 4160); fresh_line] /\
   at_index [mkCacheLine true 64 (mkMetaData (-1) 1) (Some 4160); fresh_line] 0 =
     Some (mkCacheLine true 64 (mkMetaData (-1) 1) (Some 4160))) /\
  ((valid (mkCacheLine true 64 (mkMetaData (-1) 1) (Some 4160)) = false /\
    tag (mkCacheLine true 64 (mkMetaData (-1) 1) (Some 4160)) = NULL /\
    deviceData (mkCacheLine true 64 (mkMetaData (-1) 1) (Some 4160)) = None) \/
   (valid (mkCacheLine true 64 (mkMetaData (-1) 1) (Some 4160)) = true /\
    exists env flags size,
      In (env, Resolve flags size
                 (tag (mkCacheLine true 64 (mkMetaData (-1) 1) (Some 4160))))
         [(runtime_ok, Resolve 1 64 64)] /\
      deviceData (mkCacheLine true 64 (mkMetaData (-1) 1) (Some 4160)) =
        Some (fst (clCreateBuffer env
                     (create_flags flags
                        (tag (mkCacheLine true 64 (mkMetaData (-1) 1) (Some 4160))))
                     64
                     (tag (mkCacheLine true 64 (mkMetaData (-1) 1) (Some 4160))))))).
Proof.
  split; [repeat split|].
  exact (line_is_fresh_or_populated 4 64 32 two_way lru_RP (two_way_4x64 lru_RP)
           [(runtime_ok, Resolve 1 64 64)] tt two_way_lru_holding_64 1
           [mkCacheLine true 64 (mkMetaData (-1) 1) (Some 4160); fresh_line] 0
           (mkCacheLine true 64 (mkMetaData (-1) 1) (Some 4160))
           eq_refl eq_refl eq_refl eq_refl).
Defined.

(** * The counters, call by call *)

Lemma existsb_holds_lookup hostAddress (s : list CacheLine_t) n :
  existsb (holds hostAddress) (take n s) = true <->
  exists j l, (j < n)%nat /\ s !! j = Some l /\ holds hostAddress l = true.
Proof.
  rewrite existsb_exists. split.
  - intros (l & Hin & Hh).
    apply list_elem_of_In, list_elem_of_lookup in Hin as [j Hj].
    apply lookup_take_Some in Hj as [Hj Hn]. eauto.
  - intros (j & l & Hn & Hj & Hh). exists l. split; [|exact Hh].
    apply list_elem_of_In, list_elem_of_lookup. exists j.
    apply lookup_take_Some. auto.
Qed.

Lemma cached_associative hostAddress c s :
  config c <> direct_mapped ->
  at_index (cacheLine c) (GetIndex (indexBitMask c) (addressBitShift c) hostAddress)
    = Some s ->
  cached hostAddress c =
  existsb (holds hostAddress) (take (Z.to_nat (numberOfLinesPerSet c)) s).
Proof.
  intros Hc Hs. unfold cached. rewrite Hs.
  destruct (config c); [contradiction | reflexivity ..].
Qed.

(** What the lookup returns for a cached address: a way whose line holds
    it. *)
Lemma GetWay_cached_true hostAddress c w c1 :
  GetWay hostAddress (GetIndex (indexBitMask c) (addressBitShift c) hostAddress) c
    = Ok (w, c1) ->
  cached hostAddress c = true ->
  exists s1 l,
    at_index (cacheLine c1) (GetIndex (indexBitMask c) (addressBitShift c) hostAddress)
      = Some s1 /\
    at_index s1 w = Some l /\ holds hostAddress l = true.
Proof.
  intros Hway Hcached.
  destruct (GetWay_Ok_set _ _ _ _ _ Hway) as [s Hs].
  destruct (decide (config c = direct_mapped)) as [Hc|Hc].
  - rewrite (GetWay_direct_mapped _ _ _ _ Hc Hs) in Hway. injection Hway as <- <-.
    unfold cached in Hcached. rewrite Hs, Hc in Hcached.
    destruct (s !! 0%nat) as [l|] eqn:Hl; [|discriminate].
    exists s, l. auto.
  - rewrite (cached_associative _ _ _ Hc Hs) in Hcached.
    apply existsb_holds_lookup in Hcached as (j & l0 & Hj & Hl0 & Hh0).
    pose proof Hway as Hscan. rewrite (GetWay_associative _ _ _ _ Hc Hs) in Hscan.
    apply (GetWay_scan_inv hostAddress _ c s Hs _ 0%nat) in Hscan
      as [(_ & _ & Hnone) | (w' & l & -> & _ & Hl & Hh & _)].
    + destruct (Hnone j) as (l & Hl & Hh); [lia|]. congruence.
    + destruct (GetWay_keeps_line _ _ _ _ _ _ _ _ _ Hway Hs Hl)
        as (s1 & l1 & Hs1 & Hl1 & Hcont).
      exists s1, l1. split; [exact Hs1|]. split; [now rewrite at_index_of_nat|].
      now rewrite (holds_content _ _ _ Hcont).
Qed.

(** What the lookup returns for an address that is not cached: a way (0, or
    -1) at which no line holds it. *)
Lemma GetWay_cached_false hostAddress c w c1 s1 l :
  GetWay hostAddress (GetIndex (indexBitMask c) (addressBitShift c) hostAddress) c
    = Ok (w, c1) ->
  cached hostAddress c = false ->
  at_index (cacheLine c1) (GetIndex (indexBitMask c) (addressBitShift c) hostAddress)
    = Some s1 ->
  at_index s1 w = Some l ->
  holds hostAddress l = false.
Proof.
  intros Hway Hcached Hs1 Hl.
  destruct (GetWay_Ok_set _ _ _ _ _ Hway) as [s Hs].
  destruct (decide (config c = direct_mapped)) as [Hc|Hc].
  - rewrite (GetWay_direct_mapped _ _ _ _ Hc Hs) in Hway. injection Hway as <- <-.
    unfold cached in Hcached. rewrite Hs, Hc in Hcached.
    rewrite Hs in Hs1. injection Hs1 as <-.
    change (at_index s 0) with (s !! 0%nat) in Hl. now rewrite Hl in Hcached.
  - rewrite (cached_associative _ _ _ Hc Hs) in Hcached.
    rewrite (GetWay_associative _ _ _ _ Hc Hs) in Hway.
    destruct (GetWay_scan_inv hostAddress _ c s Hs _ 0%nat _ _ Hway)
      as [(Ew & _ & _) | (w' & l0 & Ew & Hw' & Hl0 & Hh0 & _)].
    + rewrite Ew in Hl. now rewrite at_index_negative in Hl.
    + assert (H : existsb (holds hostAddress)
                    (take (Z.to_nat (numberOfLinesPerSet c)) s) = true)
        by (apply existsb_holds_lookup; exists w', l0; repeat split; auto; lia).
      congruence.
Qed.

(** The counters and the runtime calls of a completed [clCreateCacheBuffer],
    from the flags and the cache before the call. *)
Lemma clCreateCacheBuffer_counts env flags size hostAddress c res c' :
  clCreateCacheBuffer env flags size hostAddress c = Ok (res, c') ->
  ReadTransfers c' = ReadTransfers c /\
  if has_flag flags CL_MEM_COPY_HOST_PTR && cached hostAddress c
  then create_calls res = [] /\ memCopies c' = memCopies c /\
       WriteTransfers c' = WriteTransfers c
  else create_calls res =
         [CreateBuffer (create_flags flags hostAddress) (dataSize c) hostAddress] /\
       memCopies c' = memCopies c + 1 /\
       WriteTransfers c' =
         WriteTransfers c + (if has_flag flags CL_MEM_COPY_HOST_PTR then 1 else 0).
Proof.
  intros H.
  pose proof H as (w & c1 & Hway & Hcase)%clCreateCacheBuffer_inv.
  destruct (counters_eq _ _ (GetWay_counters _ _ _ _ _ Hway)) as (Hm & Hr & Hw).
  destruct (has_flag flags CL_MEM_COPY_HOST_PTR) eqn:Hflag;
    [destruct (cached hostAddress c) eqn:Hcached|]; simpl.
  - destruct (GetWay_cached_true _ _ _ _ Hway Hcached) as (s1 & l & Hs1 & Hl & Hh).
    rewrite (create_hit_eq env flags size hostAddress c w c1 s1 l Hway Hs1 Hl Hh Hflag)
      in H.
    injection H as <- <-. auto.
  - destruct Hcase as [(_ & s & l & Hs & Hl & Hh & _) |
                       (w' & c2 & s & l & Hset & _ & _ & -> & ->)].
    + rewrite (GetWay_cached_false _ _ _ _ _ _ Hway Hcached Hs Hl) in Hh. discriminate.
    + assert (Hc2 : counters c2 = counters c1 /\ dataSize c2 = dataSize c).
      { pose proof (GetWay_dataSize _ _ _ _ _ Hway) as E1. unfold unchanged in E1.
        destruct (w =? -1).
        - pose proof (SetWay_dataSize _ _ _ _ _ Hset) as E2.
          pose proof (SetWay_counters _ _ _ _ _ Hset) as E3.
          unfold unchanged in E2, E3. split; congruence.
        - inv_ok Hset. auto. }
      destruct Hc2 as [(Hm2 & Hr2 & Hw2)%counters_eq Hd].
      destruct (count_create_fields flags c2) as (_ & _ & _ & Hr' & Hm' & Hw').
      rewrite Hflag in Hw'. simpl. rewrite Hd. repeat split; lia.
  - destruct Hcase as [(Hflag' & _) |
                       (w' & c2 & s & l & Hset & _ & _ & -> & ->)]; [discriminate|].
    assert (Hc2 : counters c2 = counters c1 /\ dataSize c2 = dataSize c).
    { pose proof (GetWay_dataSize _ _ _ _ _ Hway) as E1. unfold unchanged in E1.
      destruct (w =? -1).
      - pose proof (SetWay_dataSize _ _ _ _ _ Hset) as E2.
        pose proof (SetWay_counters _ _ _ _ _ Hset) as E3.
        unfold unchanged in E2, E3. split; congruence.
      - inv_ok Hset. auto. }
    destruct Hc2 as [(Hm2 & Hr2 & Hw2)%counters_eq Hd].
    destruct (count_create_fields flags c2) as (_ & _ & _ & Hr' & Hm' & Hw').
    rewrite Hflag in Hw'. simpl. rewrite Hd. repeat split; lia.
Qed.

(** The counters, the status and the runtime calls of a completed
    [clEnqueueReadCacheBuffer], from the cache before the call. *)
Lemma clEnqueueReadCacheBuffer_counts env blocking_read offset size hostAddress
    c res c' :
  clEnqueueReadCacheBuffer env blocking_read offset size hostAddress c = Ok (res, c') ->
  WriteTransfers c' = WriteTransfers c /\
  if cached hostAddress c
  then status res = 0 /\
       (exists mem, read_calls res =
          [ReadBuffer mem blocking_read offset (dataSize c) hostAddress]) /\
       memCopies c' = memCopies c + 1 /\ ReadTransfers c' = ReadTransfers c + 1
  else status res = 1 /\ read_calls res = [] /\
       memCopies c' = memCopies c /\ ReadTransfers c' = ReadTransfers c.
Proof.
  intros H.
  apply clEnqueueReadCacheBuffer_inv in H as (w & c1 & s & l & Hway & Hs & Hl & Hcase).
  destruct (counters_eq _ _ (GetWay_counters _ _ _ _ _ Hway)) as (Hm & Hr & Hw).
  pose proof (GetWay_dataSize _ _ _ _ _ Hway) as Hd. unfold unchanged in Hd.
  destruct (cached hostAddress c) eqn:Hcached.
  - destruct (GetWay_cached_true _ _ _ _ Hway Hcached) as (s1 & l1 & Hs1 & Hl1 & Hh).
    rewrite Hs in Hs1. injection Hs1 as <-. rewrite Hl in Hl1. injection Hl1 as <-.
    destruct Hcase as [(_ & -> & ->) | (Hmiss & _)]; [|congruence].
    simpl. rewrite Hd. split; [exact Hw|]. split; [reflexivity|].
    split; [eauto|]. split; lia.
  - pose proof (GetWay_cached_false _ _ _ _ _ _ Hway Hcached Hs Hl) as Hmiss.
    destruct Hcase as [(Hh & _) | (_ & -> & ->)]; [congruence|].
    simpl. auto.
Qed.

Lemma read_back_miss_eq env blocking_read offset size hostAddress c w c1 s l :
  GetWay hostAddress (GetIndex (indexBitMask c) (addressBitShift c) hostAddress) c
    = Ok (w, c1) ->
  at_index (cacheLine c1) (GetIndex (indexBitMask c) (addressBitShift c) hostAddress)
    = Some s ->
  at_index s w = Some l -> holds hostAddress l = false ->
  clEnqueueReadCacheBuffer env blocking_read offset size hostAddress c =
    Ok (mkReadBack 1 [], c1).
Proof.
  intros Hway Hs Hl Hh.
  assert (Hload : load_line
                    (GetIndex (indexBitMask c) (addressBitShift c) hostAddress) w c1
                  = Ok (l, c1)) by (apply load_line_Ok; eauto).
  unfold clEnqueueReadCacheBuffer.
  rewrite (bind_eq _ _ c (indexBitMask c) c) by reflexivity.
  rewrite (bind_eq _ _ c (addressBitShift c) c) by reflexivity.
  rewrite (bind_eq _ _ _ _ _ Hway), (bind_eq _ _ _ _ _ Hload).
  unfold holds in Hh. now rewrite Hh.
Qed.

(** In a direct-mapped cache with one line in the set of the address, both
    calls complete as long as the counters stay within [int]. *)
Lemma direct_mapped_calls_return env flags size blocking_read offset hostAddress c l :
  config c = direct_mapped ->
  at_index (cacheLine c) (GetIndex (indexBitMask c) (addressBitShift c) hostAddress)
    = Some [l] ->
  INT_MIN <= memCopies c + 1 <= INT_MAX ->
  INT_MIN <= ReadTransfers c + 1 <= INT_MAX ->
  INT_MIN <= WriteTransfers c + 1 <= INT_MAX ->
  (exists res c', clCreateCacheBuffer env flags size hostAddress c = Ok (res, c')) /\
  (exists res c',
     clEnqueueReadCacheBuffer env blocking_read offset size hostAddress c = Ok (res, c')).
Proof.
  intros Hc Hs Hm Hr Hw.
  pose proof (GetWay_direct_mapped hostAddress _ _ _ Hc Hs) as Hway.
  assert (Hl : at_index [l] 0 = Some l) by reflexivity.
  destruct (holds hostAddress l) eqn:Hh; split.
  - destruct (has_flag flags CL_MEM_COPY_HOST_PTR) eqn:Hflag.
    + eexists _, _. exact (create_hit_eq env flags size hostAddress c 0 c _ l
                             Hway Hs Hl Hh Hflag).
    + eexists _, _. apply (create_populate_eq env flags size hostAddress c 0 c _ l
                             Hway ltac:(discriminate) Hs Hl); auto.
      rewrite Hflag. discriminate.
  - eexists _, _. exact (read_back_hit_eq env blocking_read offset size hostAddress
                           c 0 c _ l Hway Hs Hl Hh Hm Hr).
  - eexists _, _. apply (create_populate_eq env flags size hostAddress c 0 c _ l
                           Hway ltac:(discriminate) Hs Hl); auto.
  - eexists _, _. exact (read_back_miss_eq env blocking_read offset size hostAddress
                           c 0 c _ l Hway Hs Hl Hh).
Qed.

(** C8, as stated, fails on "successful" and on "qualifying".  (1) On the
    fresh direct-mapped cache, with a runtime in which every call fails with
    [CL_OUT_OF_RESOURCES], a [clCreateCacheBuffer] followed by a
    [clEnqueueReadCacheBuffer] of the same address end with
    [memCopies = 2], [ReadTransfers = 1] and [WriteTransfers = 1]: no
    operation succeeded, and every counter moved.  (2) A
    [clCreateCacheBuffer] with [CL_MEM_READ_WRITE] alone and the host
    address 64 hands the host content to the runtime (the flags of its
    [clCreateBuffer] call carry [CL_MEM_COPY_HOST_PTR]), and
    [WriteTransfers] stays 0: the counter follows the caller's flag, not
    the content. *)
Lemma counters_count_failed_calls :
  CreateCache 4 64 32 direct_mapped random_RP = Ok (direct_4x64 random_RP) /\
  (snd (clCreateBuffer runtime_failing 33 64 64) = CL_OUT_OF_RESOURCES /\
   clEnqueueReadBuffer runtime_failing (Some NULL) 1 0 64 64 = CL_OUT_OF_RESOURCES /\
   CL_OUT_OF_RESOURCES <> CL_SUCCESS /\
   exists res c1 back c2,
     clCreateCacheBuffer runtime_failing 33 64 64 (direct_4x64 random_RP) = Ok (res, c1) /\
     create_calls res = [CreateBuffer 33 64 64] /\
     errorcode_ret res = Some CL_OUT_OF_RESOURCES /\
     clEnqueueReadCacheBuffer runtime_failing 1 0 64 64 c1 = Ok (back, c2) /\
     read_calls back = [ReadBuffer (Some NULL) 1 0 64 64] /\
     run [(runtime_failing, Resolve 33 64 64); (runtime_failing, ReadBackOp 1 0 64 64)]
       (direct_4x64 random_RP) = Ok (tt, c2) /\
     counters (direct_4x64 random_RP) = (0, 0, 0) /\ counters c2 = (2, 1, 1)) /\
  (exists res c1,
     clCreateCacheBuffer runtime_ok 1 64 64 (direct_4x64 random_RP) = Ok (res, c1) /\
     create_calls res = [CreateBuffer 33 64 64] /\
     has_flag 33 CL_MEM_COPY_HOST_PTR = true /\
     errorcode_ret res = Some CL_SUCCESS /\
     counters c1 = (1, 0, 0)).
Proof.
  split; [reflexivity|]. split.
  - split; [reflexivity|]. split; [reflexivity|]. split; [discriminate|].
    eexists _, _, _, _.
    split; [vm_compute; reflexivity|]. split; [reflexivity|]. split; [reflexivity|].
    split; [vm_compute; reflexivity|]. split; [reflexivity|].
    split; [vm_compute; reflexivity|]. split; reflexivity.
  - eexists _, _. split; [vm_compute; reflexivity|]. repeat split.
Qed.

(** C8: over every sequence of completed [clCreateCacheBuffer] and
    [clEnqueueReadCacheBuffer] calls that starts from a freshly constructed
    cache, [WriteTransfers <= memCopies] and [ReadTransfers <= memCopies]
    hold and no counter ever decreases.  What a call adds is fixed by its
    flags and by the cache before it, whatever the runtime returns (in
    particular when the runtime call fails): a [clCreateCacheBuffer] with
    [CL_MEM_COPY_HOST_PTR] for an address that the lookup finds cached makes
    no runtime call and changes no counter; every other
    [clCreateCacheBuffer] makes one [clCreateBuffer] call and adds exactly 1
    to [memCopies], and exactly 1 to [WriteTransfers] when
    [CL_MEM_COPY_HOST_PTR] is among the caller's flags and nothing
    otherwise.  A [clEnqueueReadCacheBuffer] of a cached address returns 0,
    makes one [clEnqueueReadBuffer] call and adds exactly 1 to [memCopies]
    and to [ReadTransfers]; of any other address it returns 1, makes no call
    and changes no counter.  In a direct-mapped cache both calls complete
    for every address whose set exists, as long as [memCopies] is below
    [INT_MAX]. *)
Theorem counters_over_every_run numberOfCacheLines d tagSize' config' policy' c0 :
  CreateCache numberOfCacheLines d tagSize' config' policy' = Ok c0 ->
  (forall ops u c, run ops c0 = Ok (u, c) ->
     0 <= WriteTransfers c <= memCopies c /\ 0 <= ReadTransfers c <= memCopies c) /\
  (forall ops u c ops' u' c',
     run ops c0 = Ok (u, c) -> run ops' c = Ok (u', c') ->
     memCopies c <= memCopies c' /\ ReadTransfers c <= ReadTransfers c' /\
     WriteTransfers c <= WriteTransfers c') /\
  (forall ops u c env flags size hostAddress res c',
     run ops c0 = Ok (u, c) ->
     clCreateCacheBuffer env flags size hostAddress c = Ok (res, c') ->
     ReadTransfers c' = ReadTransfers c /\
     if has_flag flags CL_MEM_COPY_HOST_PTR && cached hostAddress c
     then create_calls res = [] /\ memCopies c' = memCopies c /\
          WriteTransfers c' = WriteTransfers c
     else create_calls res =
            [CreateBuffer (create_flags flags hostAddress) (dataSize c) hostAddress] /\
          memCopies c' = memCopies c + 1 /\
          WriteTransfers c' =
            WriteTransfers c + (if has_flag flags CL_MEM_COPY_HOST_PTR then 1 else 0)) /\
  (forall ops u c env blocking_read offset size hostAddress res c',
     run ops c0 = Ok (u, c) ->
     clEnqueueReadCacheBuffer env blocking_read offset size hostAddress c = Ok (res, c') ->
     WriteTransfers c' = WriteTransfers c /\
     if cached hostAddress c
     then status res = 0 /\
          (exists mem, read_calls res =
             [ReadBuffer mem blocking_read offset (dataSize c) hostAddress]) /\
          memCopies c' = memCopies c + 1 /\ ReadTransfers c' = ReadTransfers c + 1
     else status res = 1 /\ read_calls res = [] /\
          memCopies c' = memCopies c /\ ReadTransfers c' = ReadTransfers c) /\
  (forall ops u c env flags size blocking_read offset hostAddress s,
     run ops c0 = Ok (u, c) ->
     config' = direct_mapped ->
     at_index (cacheLine c) (GetIndex (indexBitMask c) (addressBitShift c) hostAddress)
       = Some s ->
     memCopies c < INT_MAX ->
     (exists res c', clCreateCacheBuffer env flags size hostAddress c = Ok (res, c')) /\
     (exists res c',
        clEnqueueReadCacheBuffer env blocking_read offset size hostAddress c
          = Ok (res, c'))).
Proof.
  intros Hcreate.
  pose proof (CreateCache_fields _ _ _ _ _ _ Hcreate) as (Hzero & Hconfig & _).
  unfold counters in Hzero. injection Hzero as Hm Hr Hw.
  assert (Hle : forall ops u c, run ops c0 = Ok (u, c) ->
            0 <= WriteTransfers c <= memCopies c /\
            0 <= ReadTransfers c <= memCopies c).
  { intros ops u c Hrun. apply run_counters_grow in Hrun.
    unfold counters_grow in Hrun. lia. }
  split; [exact Hle|]. split; [|split; [|split]].
  - intros ops u c ops' u' c' _ Hrun'. apply run_counters_grow in Hrun'.
    unfold counters_grow in Hrun'. lia.
  - intros ops u c env flags size hostAddress res c' _ H.
    exact (clCreateCacheBuffer_counts _ _ _ _ _ _ _ H).
  - intros ops u c env blocking_read offset size hostAddress res c' _ H.
    exact (clEnqueueReadCacheBuffer_counts _ _ _ _ _ _ _ _ H).
  - intros ops u c env flags size blocking_read offset hostAddress s Hrun Hdm Hs Hmax.
    destruct (reachable_table _ _ _ _ _ _ _ _ _ Hcreate Hrun) as (Hwf & _ & _ & Hn).
    pose proof (well_formed_set _ _ _ Hwf Hs) as Hlen.
    rewrite Hn, Hdm in Hlen. simpl in Hlen.
    destruct s as [|l [|l' s]]; try discriminate.
    destruct (shape_fields _ _ (run_shape _ _ _ _ Hrun)) as (Hc & _).
    destruct (Hle _ _ _ Hrun) as [Hwr Hrd].
    apply (direct_mapped_calls_return env flags size blocking_read offset hostAddress c l);
      [congruence | exact Hs | ..]; unfold INT_MIN, INT_MAX in *; lia.
Qed.

Lemma counters_over_every_run_witness :
  CreateCache 4 64 32 direct_mapped random_RP = Ok (direct_4x64 random_RP) /\
  (forall ops u c, run ops (direct_4x64 random_RP) = Ok (u, c) ->
     0 <= WriteTransfers c <= memCopies c /\ 0 <= ReadTransfers c <= memCopies c) /\
  (exists res c',
     clCreateCacheBuffer runtime_failing 33 64 64 (direct_4x64 random_RP) =
       Ok (res, c') /\
     create_calls res = [CreateBuffer 33 64 64] /\
     memCopies c' = 1 /\ WriteTransfers c' = 1 /\ ReadTransfers c' = 0).
Proof.
  assert (H0 : CreateCache 4 64 32 direct_mapped random_RP = Ok (direct_4x64 random_RP))
    by reflexivity.
  destruct (counters_over_every_run 4 64 32 direct_mapped random_RP
              (direct_4x64 random_RP) H0) as (Hle & _ & Hcount & _ & Hreturn).
  split; [exact H0|]. split; [exact Hle|].
  destruct (Hreturn [] tt (direct_4x64 random_RP) runtime_failing 33 64 1 0 64
              [fresh_line] eq_refl eq_refl eq_refl eq_refl)
    as [(res & c' & Hcall) _].
  exists res, c'. split; [exact Hcall|].
  destruct (Hcount [] tt (direct_4x64 random_RP) runtime_failing 33 64 64 res c'
              eq_refl Hcall) as (Hread & Hcalls & Hmem & Hwrite).
  repeat split; assumption.
Defined.
